(** * HLE syscall dispatch of PPSSPP (Core/HLE/HLE.cpp)

    A shallow embedding of the module registry, the syscall opcode
    encoding, the call-site patcher and resolver, the dispatcher and the
    post-call action coordinator, followed by the properties proved about
    them.

    Conventions.
    - [u32] and [int] values are integers in [Z]; the conversions to
      [u32] that the C++ code performs are written [to_u32].
    - A [const char *] is the list of bytes found at the pointer; reading
      stops at the first NUL byte, and the end of the list stands for the
      terminator when the list holds none.
    - The statics of the file form the record [HLE].  Calls that leave the
      file (logging, guest memory, the kernel scheduler, the debugger, the
      bound host functions) are recorded, in program order, in the
      [events] field.  The kernel scheduler and the debugger are taken not
      to call back into this file while they run; a host function calls
      back through the request functions only.
    - Indexing a [std::vector] or a table outside its bounds, and writing
      outside a fixed buffer, is undefined behaviour in C++: the embedding
      returns [Fault] there. *)

From Stdlib Require Import ZArith String Ascii Bool Lia List Permutation.
Import ListNotations.

Local Open Scope Z_scope.

(** ** Machine integers *)

Definition to_u32 (z : Z) : Z := z mod 2 ^ 32.

(** ** C strings *)

Definition NUL : ascii := Ascii.zero.

Definition bytes := list ascii.

Definition lit (s : string) : bytes := list_ascii_of_string s.

Fixpoint strlen (s : bytes) : nat :=
  match s with
  | [] => O
  | c :: t => if Ascii.eqb c NUL then O else S (strlen t)
  end.

(** The characters of the C string at [s], without the terminator. *)
Definition cstr (s : bytes) : bytes := firstn (strlen s) s.

Fixpoint bytes_eqb (a b : bytes) : bool :=
  match a, b with
  | [], [] => true
  | x :: a', y :: b' => Ascii.eqb x y && bytes_eqb a' b'
  | _, _ => false
  end.

(** [strcmp(a, b) == 0] *)
Definition strcmp_eq (a b : bytes) : bool := bytes_eqb (cstr a) (cstr b).

(** [strncmp(a, b, n) == 0] *)
Definition strncmp_eq (a b : bytes) (n : nat) : bool :=
  bytes_eqb (firstn n (cstr a)) (firstn n (cstr b)).

(** [strncpy(dst, src, n)] into a fresh array of [n] bytes: the characters
    of [src], at most [n] of them, padded with NUL bytes. *)
Definition strncpy (src : bytes) (n : nat) : bytes :=
  let chars := firstn n (cstr src) in
  chars ++ repeat NUL (n - length chars).

(** [buf[off .. off + length data) = data], inside the buffer only. *)
Definition poke (buf : bytes) (off : nat) (data : bytes) : option bytes :=
  if (off + length data <=? length buf)%nat
  then Some (firstn off buf ++ data ++ skipn (off + length data) buf)
  else None.

(** ** Registry and coordinator data *)

(** The requests a host function body can raise against the coordinator. *)
Inductive Request : Type :=
| ReqCheckAllCallbacks
| ReqCheckCurrentCallbacks
| ReqReSchedule (reason : option bytes)
| ReqReScheduleCB (callbacks : bool) (reason : option bytes)
| ReqRunInterrupts
| ReqDebugBreak.

(** [HLEFunc]: a host function reaches this file through the request
    functions only, so it is the sequence of requests its body raises; a
    null pointer is [None]. *)
Definition HLEFunc := list Request.

(** The structures of HLE.h, with the fields this file reads. *)
Record HLEFunction : Type := mkHLEFunction {
  ID : Z;
  func : option HLEFunc;
  fname : bytes
}.

Record HLEModule : Type := mkHLEModule {
  name : bytes;
  numFunctions : Z;
  funcTable : list HLEFunction
}.

Record Syscall : Type := mkSyscall {
  moduleName : bytes;   (* char moduleName[32] *)
  symAddr : Z;
  nid : Z
}.

Inductive LogArg : Type :=
| ArgStr (s : bytes)
| ArgHex (n : Z).

Inductive Event : Type :=
| EvErrorLog (fmt : string) (args : list LogArg)
| EvInfoLog (fmt : string) (args : list LogArg)
| EvDbgAssert (msg : string)
| EvWriteU32 (value address : Z)
| EvInvoke (modulenum funcnum : Z)
| EvKernelForceCallbacks
| EvRunOnePendingInterrupt
| EvKernelReScheduleCB (callbacks : bool) (reason : bytes)
| EvKernelReSchedule (reason : bytes)
| EvKernelCheckCallbacks
| EvCoreEnableStepping (step : bool)
| EvHostSetDebugMode (mode : bool).

Definition HLE_AFTER_NOTHING : Z := 0x00.
Definition HLE_AFTER_RESCHED : Z := 0x01.
Definition HLE_AFTER_CURRENT_CALLBACKS : Z := 0x02.
Definition HLE_AFTER_ALL_CALLBACKS : Z := 0x04.
Definition HLE_AFTER_RESCHED_CALLBACKS : Z := 0x08.
Definition HLE_AFTER_RUN_INTERRUPTS : Z := 0x10.
Definition HLE_AFTER_DEBUG_BREAK : Z := 0x20.

(** [sizeof(hleAfterSyscallReschedReason)] *)
Definition REASON_SIZE : nat := 512.

Record HLE : Type := mkHLE {
  moduleDB : list HLEModule;
  unresolvedSyscalls : list Syscall;
  hleAfterSyscall : Z;
  hleAfterSyscallReschedReason : bytes;
  events : list Event
}.

(** The statics as the program starts: empty vectors, a zeroed buffer. *)
Definition HLE_initial : HLE :=
  mkHLE [] [] HLE_AFTER_NOTHING (repeat NUL REASON_SIZE) [].

(** ** A state monad with faults *)

Inductive Result (A : Type) : Type :=
| Ok (a : A) (s : HLE)
| Fault.
Arguments Ok {A} a s.
Arguments Fault {A}.

Definition M (A : Type) : Type := HLE -> Result A.

Definition ret {A} (a : A) : M A := fun s => Ok a s.

Definition bind {A B} (m : M A) (k : A -> M B) : M B :=
  fun s => match m s with
           | Ok a s' => k a s'
           | Fault => Fault
           end.

Definition fault {A} : M A := fun _ => Fault.

Definition gets {A} (f : HLE -> A) : M A := fun s => Ok (f s) s.

Definition modify (f : HLE -> HLE) : M unit := fun s => Ok tt (f s).

Declare Scope hle_scope.
Delimit Scope hle_scope with hle.
Notation "x <- m ;; k" := (bind m (fun x => k))
  (at level 61, m at next level, right associativity) : hle_scope.
Notation "m ;; k" := (bind m (fun _ => k))
  (at level 61, right associativity) : hle_scope.
Local Open Scope hle_scope.

Definition of_option {A} (o : option A) : M A :=
  match o with
  | Some a => ret a
  | None => fault
  end.

Definition emit (e : Event) : M unit :=
  modify (fun s => mkHLE (moduleDB s) (unresolvedSyscalls s) (hleAfterSyscall s)
                         (hleAfterSyscallReschedReason s) (events s ++ [e])).

Definition set_moduleDB (db : list HLEModule) : M unit :=
  modify (fun s => mkHLE db (unresolvedSyscalls s) (hleAfterSyscall s)
                         (hleAfterSyscallReschedReason s) (events s)).

Definition set_unresolvedSyscalls (l : list Syscall) : M unit :=
  modify (fun s => mkHLE (moduleDB s) l (hleAfterSyscall s)
                         (hleAfterSyscallReschedReason s) (events s)).

Definition set_hleAfterSyscall (b : Z) : M unit :=
  modify (fun s => mkHLE (moduleDB s) (unresolvedSyscalls s) b
                         (hleAfterSyscallReschedReason s) (events s)).

Definition set_reason (r : bytes) : M unit :=
  modify (fun s => mkHLE (moduleDB s) (unresolvedSyscalls s) (hleAfterSyscall s)
                         r (events s)).

(** [v[i]] on a vector or table. *)
Definition at_index {A} (v : list A) (i : Z) : M A :=
  if i <? 0 then fault else of_option (nth_error v (Z.to_nat i)).

(** External calls. *)
Definition ERROR_LOG (fmt : string) (args : list LogArg) : M unit :=
  emit (EvErrorLog fmt args).

Definition INFO_LOG (fmt : string) (args : list LogArg) : M unit :=
  emit (EvInfoLog fmt args).

(** Modelled from the spec: the macro [_dbg_assert_msg_] is defined outside
    this file.  A failed assertion is reported on the assertion channel of
    diagnostic builds, and the program goes on. *)
Definition dbg_assert (cond : bool) (msg : string) : M unit :=
  if cond then ret tt else emit (EvDbgAssert msg).

Definition Write_U32 (value address : Z) : M unit :=
  emit (EvWriteU32 value address).

Definition when (c : bool) (m : M unit) : M unit :=
  if c then m else ret tt.

(** ** The program *)

Section Program.

Set Default Proof Using "Type".

(** The identifier of the idle function and the builders of guest
    instructions are declared in headers outside this file: they are
    parameters of the program. *)
Variable NID_IDLE : Z.
Variable MIPS_MAKE_JR_RA : Z.
Variable MIPS_MAKE_NOP : Z.
Variable MIPS_MAKE_J : Z -> Z.

Definition HLEShutdown : M unit :=
  set_hleAfterSyscall HLE_AFTER_NOTHING ;;
  set_moduleDB [] ;;
  set_unresolvedSyscalls [].

Definition RegisterModule (name : bytes) (numFunctions : Z)
    (funcTable : list HLEFunction) : M unit :=
  db <- gets moduleDB ;;
  set_moduleDB (db ++ [mkHLEModule name numFunctions funcTable]).

Fixpoint GetModuleIndex_loop (db : list HLEModule) (moduleName : bytes) (i : Z) : Z :=
  match db with
  | [] => -1
  | m :: rest =>
      if strcmp_eq moduleName (name m) then i
      else GetModuleIndex_loop rest moduleName (i + 1)
  end.

Definition GetModuleIndex (moduleName : bytes) : M Z :=
  db <- gets moduleDB ;;
  ret (GetModuleIndex_loop db moduleName 0).

Fixpoint GetFuncIndex_loop (tbl : list HLEFunction) (nib : Z) (todo : nat) (i : Z) : M Z :=
  match todo with
  | O => ret (-1)
  | S todo' =>
      f <- at_index tbl i ;;
      if ID f =? nib then ret i
      else GetFuncIndex_loop tbl nib todo' (i + 1)
  end.

Definition GetFuncIndex (moduleIndex : Z) (nib : Z) : M Z :=
  db <- gets moduleDB ;;
  module <- at_index db moduleIndex ;;
  GetFuncIndex_loop (funcTable module) nib (Z.to_nat (numFunctions module)) 0.

Definition GetSyscallOp (moduleName : bytes) (nib : Z) : M Z :=
  modindex <- GetModuleIndex moduleName ;;
  if negb (modindex =? -1) then
    funcindex <- GetFuncIndex modindex nib ;;
    if negb (funcindex =? -1) then
      ret (to_u32 (Z.lor (Z.lor 0x0000000c (Z.shiftl modindex 18)) (Z.shiftl funcindex 6)))
    else
      ret (to_u32 (Z.lor 0x0003FFCC (Z.shiftl modindex 18)))
  else
    ERROR_LOG "Unknown module %s!" [ArgStr (cstr moduleName)] ;;
    ret 0x0003FFCC.

Definition WriteSyscall (moduleName : bytes) (nib address : Z) : M unit :=
  if nib =? 0 then
    Write_U32 MIPS_MAKE_JR_RA address ;;
    Write_U32 MIPS_MAKE_NOP (to_u32 (address + 4))
  else
    modindex <- GetModuleIndex moduleName ;;
    if negb (modindex =? -1) then
      Write_U32 MIPS_MAKE_JR_RA address ;;
      op <- GetSyscallOp moduleName nib ;;
      Write_U32 op (to_u32 (address + 4))
    else
      INFO_LOG "Syscall (%s,%08x) unresolved, storing for later resolving"
               [ArgStr (cstr moduleName); ArgHex nib] ;;
      copied <- of_option (poke (strncpy moduleName 32) 31 [NUL]) ;;
      pending <- gets unresolvedSyscalls ;;
      set_unresolvedSyscalls (pending ++ [mkSyscall copied address nib]).

Fixpoint ResolveSyscall_loop (pending : list Syscall) (modName : bytes)
    (nib address : Z) : M unit :=
  match pending with
  | [] => ret tt
  | sysc :: rest =>
      when (strncmp_eq (moduleName sysc) modName 32 && (nid sysc =? nib))
        (INFO_LOG "Resolving %s/%08x" [ArgStr (cstr modName); ArgHex nib] ;;
         Write_U32 (MIPS_MAKE_J address) (symAddr sysc) ;;
         Write_U32 MIPS_MAKE_NOP (to_u32 (symAddr sysc + 4))) ;;
      ResolveSyscall_loop rest modName nib address
  end.

Definition ResolveSyscall (modName : bytes) (nib address : Z) : M unit :=
  pending <- gets unresolvedSyscalls ;;
  ResolveSyscall_loop pending modName nib address.

(** [hleAfterSyscall |= flag] *)
Definition or_hleAfterSyscall (flag : Z) : M unit :=
  cur <- gets hleAfterSyscall ;;
  set_hleAfterSyscall (Z.lor cur flag).

(** [(hleAfterSyscall & flag) != 0] *)
Definition hleAfterSyscall_has (flag : Z) : M bool :=
  cur <- gets hleAfterSyscall ;;
  ret (negb (Z.land cur flag =? 0)).

Definition hleCheckAllCallbacks : M unit :=
  or_hleAfterSyscall HLE_AFTER_ALL_CALLBACKS.

Definition hleCheckCurrentCallbacks : M unit :=
  or_hleAfterSyscall HLE_AFTER_CURRENT_CALLBACKS.

(** [strcpy(hleAfterSyscallReschedReason, src)] *)
Definition strcpy_reason (src : bytes) : M unit :=
  buf <- gets hleAfterSyscallReschedReason ;;
  buf' <- of_option (poke buf 0 (cstr src ++ [NUL])) ;;
  set_reason buf'.

(** [memcpy(hleAfterSyscallReschedReason, src, n)] *)
Definition memcpy_reason (src : bytes) (n : nat) : M unit :=
  buf <- gets hleAfterSyscallReschedReason ;;
  if (n <=? length src)%nat then
    buf' <- of_option (poke buf 0 (firstn n src)) ;;
    set_reason buf'
  else fault.

(** [hleAfterSyscallReschedReason[i] = c] *)
Definition set_reason_byte (i : nat) (c : ascii) : M unit :=
  buf <- gets hleAfterSyscallReschedReason ;;
  buf' <- of_option (poke buf i [c]) ;;
  set_reason buf'.

Definition hleReSchedule (reason : option bytes) : M unit :=
  dbg_assert (match reason with Some _ => true | None => false end)
             "hleReSchedule: Expecting a valid reason." ;;
  dbg_assert (match reason with Some r => (strlen r <? 256)%nat | None => false end)
             "hleReSchedule: Not too long reason." ;;
  or_hleAfterSyscall HLE_AFTER_RESCHED ;;
  match reason with
  | None => strcpy_reason (lit "Invalid reason")
  | Some r =>
      if (REASON_SIZE <=? strlen r)%nat then
        memcpy_reason r (REASON_SIZE - 1) ;;
        set_reason_byte (REASON_SIZE - 1) NUL
      else
        strcpy_reason r
  end.

Definition hleReScheduleCB (callbacks : bool) (reason : option bytes) : M unit :=
  hleReSchedule reason ;;
  when callbacks (or_hleAfterSyscall HLE_AFTER_RESCHED_CALLBACKS).

Definition hleRunInterrupts : M unit :=
  or_hleAfterSyscall HLE_AFTER_RUN_INTERRUPTS.

Definition hleDebugBreak : M unit :=
  or_hleAfterSyscall HLE_AFTER_DEBUG_BREAK.

Definition NID_SUSPEND_INTR : Z := 0x092968F4.
Definition NID_RESUME_INTR : Z := 0x5F10D406.

Definition blacklistedNIDs : list Z :=
  [NID_SUSPEND_INTR; NID_RESUME_INTR; NID_IDLE].

(** Calls into the kernel scheduler and the debugger, defined outside this
    file; the reschedules receive the reason buffer as a C string. *)
Definition KernelForceCallbacks : M unit := emit EvKernelForceCallbacks.

Definition RunOnePendingInterrupt : M unit := emit EvRunOnePendingInterrupt.

Definition KernelReScheduleCB (callbacks : bool) : M unit :=
  reason <- gets hleAfterSyscallReschedReason ;;
  emit (EvKernelReScheduleCB callbacks (cstr reason)).

Definition KernelReSchedule : M unit :=
  reason <- gets hleAfterSyscallReschedReason ;;
  emit (EvKernelReSchedule (cstr reason)).

Definition KernelCheckCallbacks : M unit := emit EvKernelCheckCallbacks.

Definition Core_EnableStepping (step : bool) : M unit :=
  emit (EvCoreEnableStepping step).

Definition host_SetDebugMode (mode : bool) : M unit :=
  emit (EvHostSetDebugMode mode).

Definition hleExecuteDebugBreak (f : HLEFunction) : M bool :=
  if existsb (fun n => ID f =? n) blacklistedNIDs then ret false
  else
    Core_EnableStepping true ;;
    host_SetDebugMode true ;;
    ret true.

Definition hleFinishSyscall (modulenum funcnum : Z) : M unit :=
  cur <- hleAfterSyscall_has HLE_AFTER_CURRENT_CALLBACKS ;;
  when cur KernelForceCallbacks ;;
  intr <- hleAfterSyscall_has HLE_AFTER_RUN_INTERRUPTS ;;
  when intr RunOnePendingInterrupt ;;
  reschedcb <- hleAfterSyscall_has HLE_AFTER_RESCHED_CALLBACKS ;;
  (if reschedcb then KernelReScheduleCB true
   else
     resched <- hleAfterSyscall_has HLE_AFTER_RESCHED ;;
     if resched then KernelReSchedule
     else
       allcb <- hleAfterSyscall_has HLE_AFTER_ALL_CALLBACKS ;;
       when allcb KernelCheckCallbacks) ;;
  dbg <- hleAfterSyscall_has HLE_AFTER_DEBUG_BREAK ;;
  if dbg then
    db <- gets moduleDB ;;
    module <- at_index db modulenum ;;
    f <- at_index (funcTable module) funcnum ;;
    broke <- hleExecuteDebugBreak f ;;
    if negb broke then
      set_hleAfterSyscall HLE_AFTER_DEBUG_BREAK ;;
      set_reason_byte 0 NUL
    else
      set_hleAfterSyscall HLE_AFTER_NOTHING ;;
      set_reason_byte 0 NUL
  else
    set_hleAfterSyscall HLE_AFTER_NOTHING ;;
    set_reason_byte 0 NUL.

(** One request of a host function body. *)
Definition request (r : Request) : M unit :=
  match r with
  | ReqCheckAllCallbacks => hleCheckAllCallbacks
  | ReqCheckCurrentCallbacks => hleCheckCurrentCallbacks
  | ReqReSchedule reason => hleReSchedule reason
  | ReqReScheduleCB callbacks reason => hleReScheduleCB callbacks reason
  | ReqRunInterrupts => hleRunInterrupts
  | ReqDebugBreak => hleDebugBreak
  end.

(** [func()] *)
Fixpoint call (body : HLEFunc) : M unit :=
  match body with
  | [] => ret tt
  | r :: rest => request r ;; call rest
  end.

(** The fields [CallSyscall] decodes from an opcode. *)
Definition callno (op : Z) : Z := Z.land (Z.shiftr op 6) 0xFFFFF.
Definition funcnum (op : Z) : Z := Z.land (callno op) 0xFFF.
Definition modulenum (op : Z) : Z := Z.shiftr (Z.land (callno op) 0xFF000) 12.

Definition CallSyscall (op : Z) : M unit :=
  if (funcnum op =? 0xfff) || (op =? 0xffff) then
    dbg_assert false "Unknown syscall" ;;
    db <- gets moduleDB ;;
    module <- at_index db (modulenum op) ;;
    ERROR_LOG "Unknown syscall: Module: %s" [ArgStr (cstr (name module))]
  else
    db <- gets moduleDB ;;
    module <- at_index db (modulenum op) ;;
    f <- at_index (funcTable module) (funcnum op) ;;
    match func f with
    | Some body =>
        emit (EvInvoke (modulenum op) (funcnum op)) ;;
        call body ;;
        after <- gets hleAfterSyscall ;;
        when (negb (after =? HLE_AFTER_NOTHING))
             (hleFinishSyscall (modulenum op) (funcnum op))
    | None =>
        ERROR_LOG "Unimplemented HLE function %s" [ArgStr (cstr (fname f))]
    end.


(** A run of the guest: the opcodes it traps with, in order.  The result
    lists the value of [hleAfterSyscall] seen at each entry to
    [CallSyscall]. *)
Fixpoint dispatch_all (ops : list Z) : M (list Z) :=
  match ops with
  | [] => ret []
  | op :: rest =>
      seen <- gets hleAfterSyscall ;;
      CallSyscall op ;;
      more <- dispatch_all rest ;;
      ret (seen :: more)
  end.

(** ** The remaining lookups *)

(** [sprintf] of a [u32] under [%08x]: eight lower-case hexadecimal digits,
    the most significant first. *)
Definition hex_digit (d : Z) : ascii :=
  nth (Z.to_nat d) (lit "0123456789abcdef") "0"%char.

Fixpoint hex_digits (n : nat) (v : Z) : bytes :=
  match n with
  | O => []
  | S n' => hex_digits n' (v / 16) ++ [hex_digit (v mod 16)]
  end.

Fixpoint GetNibByName_loop (tbl : list HLEFunction) (function : bytes)
    (todo : nat) (i : Z) : M Z :=
  match todo with
  | O => ret (to_u32 (-1))
  | S todo' =>
      f <- at_index tbl i ;;
      if strcmp_eq (fname f) function then ret (ID f)
      else GetNibByName_loop tbl function todo' (i + 1)
  end.

Definition GetNibByName (moduleName function : bytes) : M Z :=
  moduleIndex <- GetModuleIndex moduleName ;;
  db <- gets moduleDB ;;
  module <- at_index db moduleIndex ;;
  GetNibByName_loop (funcTable module) function (Z.to_nat (numFunctions module)) 0.

(** [GetFunc]: the pointer into the table is the entry it points to; the
    null pointer is [None]. *)
Definition GetFunc (moduleName : bytes) (nib : Z) : M (option HLEFunction) :=
  moduleIndex <- GetModuleIndex moduleName ;;
  if negb (moduleIndex =? -1) then
    idx <- GetFuncIndex moduleIndex nib ;;
    if negb (idx =? -1) then
      db <- gets moduleDB ;;
      module <- at_index db moduleIndex ;;
      f <- at_index (funcTable module) idx ;;
      ret (Some f)
    else ret None
  else ret None.

(** [static char temp[256]] of [GetFuncName]; every use writes it from its
    first byte. *)
Definition GetFuncName_temp : bytes := repeat NUL 256.

(** [sprintf(temp, "[UNK: 0x%08x ]", nib)] *)
Definition sprintf_UNK (temp : bytes) (nib : Z) : option bytes :=
  poke temp 0 (lit "[UNK: 0x" ++ hex_digits 8 nib ++ lit " ]" ++ [NUL]).

(** [GetFuncName(const char *, u32)]: the bytes at the pointer returned. *)
Definition GetFuncName (moduleName : bytes) (nib : Z) : M bytes :=
  found <- GetFunc moduleName nib ;;
  match found with
  | Some f => ret (fname f)
  | None => of_option (sprintf_UNK GetFuncName_temp nib)
  end.

(** [GetFuncName(int, int)] *)
Definition GetFuncName_index (moduleIndex func : Z) : M bytes :=
  db <- gets moduleDB ;;
  if (0 <=? moduleIndex) && (moduleIndex <? Z.of_nat (length db)) then
    module <- at_index db moduleIndex ;;
    if (0 <=? func) && (func <=? numFunctions module) then
      f <- at_index (funcTable module) func ;;
      ret (fname f)
    else ret (lit "[unknown]")
  else ret (lit "[unknown]").

(** ** Vocabulary of the statements *)

(** [s] after the external calls [evs]. *)
Definition with_events (s : HLE) (evs : list Event) : HLE :=
  mkHLE (moduleDB s) (unresolvedSyscalls s) (hleAfterSyscall s)
        (hleAfterSyscallReschedReason s) (events s ++ evs).

(** The table entry at [moduleDB[m].funcTable[f]], when both indices are
    inside their tables. *)
Definition slot (db : list HLEModule) (m f : Z) : option HLEFunction :=
  if (m <? 0) || (f <? 0) then None
  else match nth_error db (Z.to_nat m) with
       | Some module => nth_error (funcTable module) (Z.to_nat f)
       | None => None
       end.

Definition is_error_log (e : Event) : bool :=
  match e with EvErrorLog _ _ => true | _ => false end.

Definition is_invoke (e : Event) : bool :=
  match e with EvInvoke _ _ => true | _ => false end.

Definition is_write (e : Event) : bool :=
  match e with EvWriteU32 _ _ => true | _ => false end.

(** Calls into the debugger: [Core_EnableStepping], [host->SetDebugMode]. *)
Definition is_debugger (e : Event) : bool :=
  match e with
  | EvCoreEnableStepping _ | EvHostSetDebugMode _ => true
  | _ => false
  end.

(** Calls into the kernel scheduler. *)
Definition is_kernel (e : Event) : bool :=
  match e with
  | EvKernelForceCallbacks | EvRunOnePendingInterrupt
  | EvKernelReScheduleCB _ _ | EvKernelReSchedule _
  | EvKernelCheckCallbacks => true
  | _ => false
  end.

(** Reports on the assertion channel. *)
Definition is_dbg_assert (e : Event) : bool :=
  match e with EvDbgAssert _ => true | _ => false end.

(** The third phase of the coordinator: one of the two reschedules, or the
    sweep of all callbacks. *)
Definition is_resched_phase (e : Event) : bool :=
  match e with
  | EvKernelReScheduleCB _ _ | EvKernelReSchedule _ | EvKernelCheckCallbacks => true
  | _ => false
  end.

Definition is_plain_resched (e : Event) : bool :=
  match e with EvKernelReSchedule _ => true | _ => false end.

Definition count (p : Event -> bool) (evs : list Event) : nat :=
  length (filter p evs).

(** [(mask & flag) != 0] *)
Definition mask_has (mask flag : Z) : bool := negb (Z.land mask flag =? 0).

(** The identifiers [hleExecuteDebugBreak] never breaks on. *)
Definition blacklisted (f : HLEFunction) : bool :=
  existsb (fun n => ID f =? n) blacklistedNIDs.

(** The kernel calls of [hleFinishSyscall], for the bitmask and the reason
    it finds. *)
Definition kernel_calls (mask : Z) (reason : bytes) : list Event :=
  (if mask_has mask HLE_AFTER_CURRENT_CALLBACKS then [EvKernelForceCallbacks] else [])
  ++ (if mask_has mask HLE_AFTER_RUN_INTERRUPTS then [EvRunOnePendingInterrupt] else [])
  ++ (if mask_has mask HLE_AFTER_RESCHED_CALLBACKS then [EvKernelReScheduleCB true reason]
      else if mask_has mask HLE_AFTER_RESCHED then [EvKernelReSchedule reason]
      else if mask_has mask HLE_AFTER_ALL_CALLBACKS then [EvKernelCheckCallbacks]
      else []).

(** Its calls into the debugger, for the function just dispatched. *)
Definition debugger_calls (mask : Z) (f : HLEFunction) : list Event :=
  if mask_has mask HLE_AFTER_DEBUG_BREAK && negb (blacklisted f)
  then [EvCoreEnableStepping true; EvHostSetDebugMode true]
  else [].

(** The bitmask it leaves. *)
Definition mask_after_finish (mask : Z) (f : HLEFunction) : Z :=
  if mask_has mask HLE_AFTER_DEBUG_BREAK && blacklisted f
  then HLE_AFTER_DEBUG_BREAK
  else HLE_AFTER_NOTHING.

(** The opcodes [CallSyscall] refuses to dispatch. *)
Definition is_sentinel (op : Z) : bool :=
  (funcnum op =? 0xfff) || (op =? 0xffff).

(** The tables [CallSyscall] indexes for [op] hold the indices it uses. *)
Definition dispatchable (db : list HLEModule) (op : Z) : bool :=
  if is_sentinel op
  then match nth_error db (Z.to_nat (modulenum op)) with Some _ => true | None => false end
  else match slot db (modulenum op) (funcnum op) with Some _ => true | None => false end.

(** The two values of [hleAfterSyscall] a dispatch leaves behind. *)
Definition settled (mask : Z) : Prop :=
  mask = HLE_AFTER_NOTHING \/ mask = HLE_AFTER_DEBUG_BREAK.

(** Every module declares no more functions than its table holds. *)
Definition registry_wf (db : list HLEModule) : Prop :=
  Forall (fun m => (Z.to_nat (numFunctions m) <= length (funcTable m))%nat) db.

(** The module registered under a name: the first entry of the registry
    with that name, at index [m]. *)
Definition registered_at (db : list HLEModule) (modName : bytes) (m : nat)
    (module : HLEModule) : Prop :=
  nth_error db m = Some module /\
  strcmp_eq modName (name module) = true /\
  forallb (fun m' => negb (strcmp_eq modName (name m'))) (firstn m db) = true.

(** No entry of the registry has the name. *)
Definition unregistered (db : list HLEModule) (modName : bytes) : Prop :=
  existsb (fun m' => strcmp_eq modName (name m')) db = false.

(** The function a module declares for an ID: the first of its declared
    entries with that ID, at index [f]. *)
Definition declared_at (module : HLEModule) (nib : Z) (f : nat)
    (fn : HLEFunction) : Prop :=
  (f < Z.to_nat (numFunctions module))%nat /\
  nth_error (funcTable module) f = Some fn /\
  ID fn = nib /\
  forallb (fun g => negb (ID g =? nib)) (firstn f (funcTable module)) = true.

(** None of the declared entries of a module has the ID. *)
Definition undeclared (module : HLEModule) (nib : Z) : Prop :=
  (Z.to_nat (numFunctions module) <= length (funcTable module))%nat /\
  forallb (fun g => negb (ID g =? nib))
          (firstn (Z.to_nat (numFunctions module)) (funcTable module)) = true.

(** A pending entry that [ResolveSyscall] patches. *)
Definition resolves (modName : bytes) (nib : Z) (sysc : Syscall) : bool :=
  strncmp_eq (moduleName sysc) modName 32 && (nid sysc =? nib).

(** What [ResolveSyscall] does for one patched entry. *)
Definition patch_events (modName : bytes) (nib address : Z) (sysc : Syscall) : list Event :=
  [EvInfoLog "Resolving %s/%08x" [ArgStr (cstr modName); ArgHex nib];
   EvWriteU32 (MIPS_MAKE_J address) (symAddr sysc);
   EvWriteU32 MIPS_MAKE_NOP (to_u32 (symAddr sysc + 4))].

(** The bit a request raises. *)
Definition request_flags (r : Request) : Z :=
  match r with
  | ReqCheckAllCallbacks => HLE_AFTER_ALL_CALLBACKS
  | ReqCheckCurrentCallbacks => HLE_AFTER_CURRENT_CALLBACKS
  | ReqReSchedule _ => HLE_AFTER_RESCHED
  | ReqReScheduleCB callbacks _ =>
      if callbacks then Z.lor HLE_AFTER_RESCHED HLE_AFTER_RESCHED_CALLBACKS
      else HLE_AFTER_RESCHED
  | ReqRunInterrupts => HLE_AFTER_RUN_INTERRUPTS
  | ReqDebugBreak => HLE_AFTER_DEBUG_BREAK
  end.

(** The bits a body raises. *)
Fixpoint body_flags (body : HLEFunc) : Z :=
  match body with
  | [] => 0
  | r :: rest => Z.lor (request_flags r) (body_flags rest)
  end.

(** The reason of the last reschedule request of a body, if it has one. *)
Fixpoint last_reason (body : HLEFunc) : option (option bytes) :=
  match body with
  | [] => None
  | r :: rest =>
      match last_reason rest with
      | Some reason => Some reason
      | None =>
          match r with
          | ReqReSchedule reason | ReqReScheduleCB _ reason => Some reason
          | _ => None
          end
      end
  end.

(** The C string the reason buffer holds after a reschedule request. *)
Definition stored_reason (reason : option bytes) : bytes :=
  match reason with
  | None => lit "Invalid reason"
  | Some r => firstn (REASON_SIZE - 1) (cstr r)
  end.

(** The value of a string of hexadecimal digits. *)
Definition hex_value_digit (c : ascii) : Z :=
  let n := Z.of_nat (nat_of_ascii c) in
  if n <? 58 then n - 48 else n - 87.

Definition hex_value (s : bytes) : Z :=
  fold_left (fun acc c => acc * 16 + hex_value_digit c) s 0.

(** An opcode whose dispatch cannot take a pending debug break: a sentinel,
    a null host function, or a blacklisted function. *)
Definition quiet (db : list HLEModule) (op : Z) : bool :=
  if is_sentinel op
  then match nth_error db (Z.to_nat (modulenum op)) with Some _ => true | None => false end
  else match slot db (modulenum op) (funcnum op) with
       | Some fn => match func fn with None => true | Some _ => blacklisted fn end
       | None => false
       end.

(** ** A small registry for the examples *)

(** Values for the constants and instruction builders of the platform. *)
Definition demo_NID_IDLE : Z := 0x1D7E1D7E.
Definition demo_JR_RA : Z := 0x03E00008.
Definition demo_NOP : Z := 0x00000000.
Definition demo_J (addr : Z) : Z := Z.lor 0x08000000 (Z.shiftr addr 2).

(** A blacklisted function whose body asks for a debug break. *)
Definition demo_suspend : HLEFunction :=
  mkHLEFunction NID_SUSPEND_INTR (Some [ReqDebugBreak]) (lit "sceKernelCpuSuspendIntr").

(** A function without host implementation. *)
Definition demo_stub : HLEFunction :=
  mkHLEFunction 0x2222 None (lit "sceDemoStub").

(** A function that asks for nothing. *)
Definition demo_nothing : HLEFunction :=
  mkHLEFunction 0x3333 (Some []) (lit "sceDemoNothing").

(** A function that asks for a plain reschedule. *)
Definition demo_wait : HLEFunction :=
  mkHLEFunction 0x1111 (Some [ReqReScheduleCB false (Some (lit "wait"))]) (lit "sceDemoWait").

Definition demo_module_kernel : HLEModule :=
  mkHLEModule (lit "Kernel_Library") 1 [demo_suspend].

Definition demo_module_A : HLEModule :=
  mkHLEModule (lit "A") 3 [demo_stub; demo_nothing; demo_wait].

Definition demo_db : list HLEModule := [demo_module_kernel; demo_module_A].

Definition demo_state : HLE :=
  mkHLE demo_db [] HLE_AFTER_NOTHING (repeat NUL REASON_SIZE) [].

(** The state a body leaves when it asked for the current callbacks, the
    interrupts and a reschedule with the reason "wait". *)
Definition demo_requested : HLE :=
  mkHLE demo_db [] 0x13 (lit "wait" ++ repeat NUL 508) [].

(** Two call sites waiting for the module "B", each for its own function. *)
Definition demo_pending : HLE :=
  mkHLE demo_db
    [mkSyscall (strncpy (lit "B") 32) 0x08800000 0x5555;
     mkSyscall (strncpy (lit "B") 32) 0x08800010 0x6666]
    HLE_AFTER_NOTHING (repeat NUL REASON_SIZE) [].

(** A registry whose only module fills all 4096 function indices; the
    function asking for a reschedule sits at the last one. *)
Definition demo_full : HLE :=
  mkHLE [mkHLEModule (lit "A") 4096 (repeat demo_stub 4095 ++ [demo_wait])]
        [] HLE_AFTER_NOTHING (repeat NUL REASON_SIZE) [].

(** A reason longer than the buffer. *)
Definition demo_long_reason : bytes := repeat "x"%char 600.

(** Opcodes of the registry above, an invalid one for its module 1, and the
    [syscall] instruction with the largest code. *)
Definition demo_op_suspend : Z := 0x0000000C.   (* module 0, function 0 *)
Definition demo_op_stub : Z := 0x0004000C.      (* module 1, function 0 *)
Definition demo_op_nothing : Z := 0x0004004C.   (* module 1, function 1 *)
Definition demo_op_wait : Z := 0x0004008C.      (* module 1, function 2 *)
Definition demo_op_invalid : Z := 0x0007FFCC.   (* module 1, function 0xfff *)
Definition demo_op_garbage : Z := 0x03FFFFCC.   (* module 255, function 0xfff *)

(** A body with three requests, the state its dispatch leaves, and states
    with one bit pending. *)
Definition demo_body : HLEFunc :=
  [ReqRunInterrupts; ReqReScheduleCB true (Some (lit "wait")); ReqCheckCurrentCallbacks].

Definition demo_after_wait : HLE :=
  mkHLE demo_db [] HLE_AFTER_NOTHING (NUL :: lit "ait" ++ repeat NUL 508)
        [EvInvoke 1 2; EvKernelReSchedule (lit "wait")].

Definition demo_sweep : HLE :=
  mkHLE demo_db [] HLE_AFTER_ALL_CALLBACKS (repeat NUL REASON_SIZE) [].

Definition demo_break_pending : HLE :=
  mkHLE demo_db [] HLE_AFTER_DEBUG_BREAK (repeat NUL REASON_SIZE) [].

(** A registry of 257 modules, the module "A" last. *)
Definition demo_wide : HLE :=
  mkHLE (repeat demo_module_kernel 256 ++ [demo_module_A]) []
        HLE_AFTER_NOTHING (repeat NUL REASON_SIZE) [].

(** A module that declares five functions over a table of three. *)
Definition demo_module_short : HLEModule :=
  mkHLEModule (lit "S") 5 [demo_stub; demo_nothing; demo_wait].

Definition demo_short : HLE :=
  mkHLE [demo_module_short] [] HLE_AFTER_NOTHING (repeat NUL REASON_SIZE) [].

(** A module name of 40 characters. *)
Definition demo_long_name : bytes := repeat "m"%char 40.

(** ** Proof steps *)

(** Unfolds the monad down to matches on results. *)
Ltac unfold_monad :=
  unfold ERROR_LOG, INFO_LOG, Write_U32, dbg_assert, when, of_option in *;
  unfold emit, set_moduleDB, set_unresolvedSyscalls, set_hleAfterSyscall,
    set_reason in *;
  unfold bind, ret, gets, modify, fault in *.

(** Projections of a state given by its fields. *)
Ltac fields :=
  cbn [moduleDB unresolvedSyscalls hleAfterSyscall hleAfterSyscallReschedReason
       events] in *.

(** One step through a sequence whose head has been evaluated. *)
Ltac step := cbv beta iota; fields.

(** Drops the platform parameters a statement does not mention, so that
    arithmetic automation leaves them alone. *)
Ltac platform_free :=
  try clear MIPS_MAKE_J; try clear MIPS_MAKE_NOP; try clear MIPS_MAKE_JR_RA;
  try clear NID_IDLE.

(** Linear arithmetic with division and remainder by constants. *)
Ltac div_mod_lia := platform_free; Z.div_mod_to_equations; lia.

(** ** Bit fields *)

Lemma funcnum_div_mod (op : Z) : funcnum op = (op / 2 ^ 6) mod 2 ^ 12.
Proof.
  unfold funcnum, callno.
  change 0xFFF with (Z.ones 12). change 0xFFFFF with (Z.ones 20).
  rewrite !Z.land_ones, Z.shiftr_div_pow2 by lia.
  change (2 ^ 6) with 64. change (2 ^ 12) with 4096. change (2 ^ 20) with 1048576.
  div_mod_lia.
Qed.

Lemma modulenum_div_mod (op : Z) : modulenum op = (op / 2 ^ 18) mod 2 ^ 8.
Proof.
  unfold modulenum, callno.
  rewrite Z.shiftr_land.
  change (Z.shiftr 0xFF000 12) with (Z.ones 8). change 0xFFFFF with (Z.ones 20).
  rewrite !Z.land_ones, !Z.shiftr_div_pow2 by lia.
  change (2 ^ 6) with 64. change (2 ^ 12) with 4096. change (2 ^ 20) with 1048576.
  change (2 ^ 18) with 262144. change (2 ^ 8) with 256.
  div_mod_lia.
Qed.

Lemma funcnum_range (op : Z) : 0 <= funcnum op < 4096.
Proof.
  rewrite funcnum_div_mod. change (2 ^ 12) with 4096.
  apply Z.mod_pos_bound. lia.
Qed.

Lemma modulenum_range (op : Z) : 0 <= modulenum op < 256.
Proof.
  rewrite modulenum_div_mod. change (2 ^ 8) with 256.
  apply Z.mod_pos_bound. lia.
Qed.

(** A field shifted above [k] bits and a value below [2 ^ k] share no bit:
    their bitwise or is their sum. *)
Lemma lor_shiftl_low (a b k : Z) :
  0 <= k -> 0 <= b < 2 ^ k -> Z.lor (Z.shiftl a k) b = a * 2 ^ k + b.
Proof.
  intros Hk Hb.
  assert (Hdisj : Z.land (Z.shiftl a k) b = 0).
  { apply Z.bits_inj'. intros n Hn.
    rewrite Z.land_spec, Z.bits_0.
    destruct (Z.lt_ge_cases n k) as [Hlt | Hge].
    - rewrite Z.shiftl_spec_low by assumption. reflexivity.
    - replace (Z.testbit b n) with false; [apply andb_false_r |].
      symmetry. destruct (Z.eq_dec b 0) as [-> | Hnz]; [apply Z.bits_0 |].
      apply Z.bits_above_log2; [lia |].
      apply Z.log2_lt_pow2; [lia |].
      apply Z.lt_le_trans with (2 ^ k); [lia |].
      apply Z.pow_le_mono_r; lia. }
  rewrite <- Z.lxor_lor, <- Z.add_nocarry_lxor by assumption.
  rewrite Z.shiftl_mul_pow2 by assumption. reflexivity.
Qed.

Lemma encode_value (m f : Z) :
  0 <= f < 4096 ->
  Z.lor (Z.lor 0x0000000c (Z.shiftl m 18)) (Z.shiftl f 6)
  = m * 2 ^ 18 + f * 2 ^ 6 + 12.
Proof.
  intros Hf.
  rewrite (Z.lor_comm 0x0000000c), <- Z.lor_assoc, (Z.lor_comm 0x0000000c).
  rewrite (lor_shiftl_low f 12 6) by lia.
  rewrite lor_shiftl_low by lia. lia.
Qed.

Lemma encode_invalid_value (m : Z) :
  Z.lor 0x0003FFCC (Z.shiftl m 18) = m * 2 ^ 18 + 0x0003FFCC.
Proof.
  rewrite Z.lor_comm. apply lor_shiftl_low; lia.
Qed.

Lemma land_low6 (x : Z) : Z.land x 0x3F = x mod 2 ^ 6.
Proof. change 0x3F with (Z.ones 6). apply Z.land_ones. lia. Qed.

(** A single flag of the bitmask is a single bit. *)
Lemma has_flag_testbit (mask k : Z) :
  0 <= k -> negb (Z.land mask (2 ^ k) =? 0) = Z.testbit mask k.
Proof.
  intros Hk.
  destruct (Z.testbit mask k) eqn:Hbit.
  - apply negb_true_iff, Z.eqb_neq. intros H0.
    assert (Hc : Z.testbit (Z.land mask (2 ^ k)) k = true).
    { rewrite Z.land_spec, Hbit, Z.pow2_bits_true by assumption. reflexivity. }
    rewrite H0, Z.bits_0 in Hc. discriminate.
  - apply negb_false_iff, Z.eqb_eq.
    apply Z.bits_inj'. intros n Hn.
    rewrite Z.land_spec, Z.bits_0, Z.pow2_bits_eqb by assumption.
    destruct (Z.eqb_spec k n) as [<- | _].
    + rewrite Hbit. reflexivity.
    + apply andb_false_r.
Qed.

(** ** Registry lookups *)

Lemma at_index_ok {A} (v : list A) (i : Z) (a : A) (s : HLE) :
  0 <= i -> nth_error v (Z.to_nat i) = Some a -> at_index v i s = Ok a s.
Proof.
  intros Hi Hnth. unfold at_index.
  destruct (Z.ltb_spec i 0); [lia |].
  rewrite Hnth. reflexivity.
Qed.

Lemma at_index_inv {A} (v : list A) (i : Z) (a : A) (s s' : HLE) :
  at_index v i s = Ok a s' ->
  s' = s /\ 0 <= i /\ nth_error v (Z.to_nat i) = Some a.
Proof.
  unfold at_index. destruct (Z.ltb_spec i 0); [discriminate |].
  destruct (nth_error v (Z.to_nat i)); [| discriminate].
  cbn. intros [= -> ->]. auto.
Qed.

Lemma GetModuleIndex_eq (modName : bytes) (s : HLE) :
  GetModuleIndex modName s = Ok (GetModuleIndex_loop (moduleDB s) modName 0) s.
Proof. reflexivity. Qed.

Lemma GetModuleIndex_loop_found (db : list HLEModule) (modName : bytes) (i : Z) :
  0 <= i ->
  GetModuleIndex_loop db modName i <> -1 ->
  exists m,
    i <= GetModuleIndex_loop db modName i < i + Z.of_nat (length db) /\
    nth_error db (Z.to_nat (GetModuleIndex_loop db modName i - i)) = Some m /\
    strcmp_eq modName (name m) = true.
Proof.
  revert i. induction db as [| m0 rest IH]; intros i Hi; cbn [GetModuleIndex_loop].
  - intros H. contradiction.
  - destruct (strcmp_eq modName (name m0)) eqn:Hcmp.
    + intros _. exists m0. rewrite Z.sub_diag. cbn [length].
      repeat split; try lia; auto.
    + intros Hfound. destruct (IH (i + 1) ltac:(lia) Hfound) as (m & Hr & Hnth & Hm).
      exists m. cbn [length]. repeat split; try lia; auto.
      replace (Z.to_nat (GetModuleIndex_loop rest modName (i + 1) - i))
        with (S (Z.to_nat (GetModuleIndex_loop rest modName (i + 1) - (i + 1))))
        by lia.
      exact Hnth.
Qed.

Lemma GetFuncIndex_loop_pure (tbl : list HLEFunction) (nib : Z) (todo : nat)
    (i r : Z) (s s' : HLE) :
  GetFuncIndex_loop tbl nib todo i s = Ok r s' ->
  forall t, GetFuncIndex_loop tbl nib todo i t = Ok r t.
Proof.
  revert i. induction todo as [| todo IH]; intros i; cbn [GetFuncIndex_loop].
  - intros [= <- _] t. reflexivity.
  - unfold bind. destruct (at_index tbl i s) as [f s1 |] eqn:Hat; [| discriminate].
    apply at_index_inv in Hat. destruct Hat as (-> & Hi & Hnth).
    intros H t. rewrite (at_index_ok _ _ _ t Hi Hnth).
    destruct (ID f =? nib).
    + injection H as <- _. reflexivity.
    + eapply IH, H.
Qed.

Lemma GetFuncIndex_loop_found (tbl : list HLEFunction) (nib : Z) (todo : nat)
    (i r : Z) (s s' : HLE) :
  0 <= i ->
  GetFuncIndex_loop tbl nib todo i s = Ok r s' ->
  r <> -1 ->
  i <= r /\ exists f, nth_error tbl (Z.to_nat r) = Some f /\ ID f = nib.
Proof.
  revert i. induction todo as [| todo IH]; intros i Hi; cbn [GetFuncIndex_loop].
  - intros [= <- _] H. contradiction.
  - unfold bind. destruct (at_index tbl i s) as [f s1 |] eqn:Hat; [| discriminate].
    apply at_index_inv in Hat. destruct Hat as (-> & _ & Hnth).
    destruct (Z.eqb_spec (ID f) nib) as [Heq | _].
    + intros [= <- _] _. split; [lia |]. exists f. auto.
    + intros H Hr. destruct (IH (i + 1) ltac:(lia) H Hr) as (Hle & Hf).
      split; [lia | exact Hf].
Qed.

Lemma GetFuncIndex_pure (m nib r : Z) (s s' : HLE) :
  GetFuncIndex m nib s = Ok r s' ->
  s' = s /\ forall t, moduleDB t = moduleDB s -> GetFuncIndex m nib t = Ok r t.
Proof.
  unfold GetFuncIndex, bind, gets.
  destruct (at_index (moduleDB s) m s) as [module s1 |] eqn:Hat; [| discriminate].
  apply at_index_inv in Hat. destruct Hat as (-> & Hm & Hnth).
  intros H. split.
  - pose proof (GetFuncIndex_loop_pure _ _ _ _ _ _ _ H s) as H'.
    rewrite H in H'. injection H' as ->. reflexivity.
  - intros t Ht. rewrite Ht, (at_index_ok _ _ _ t Hm Hnth).
    eapply GetFuncIndex_loop_pure, H.
Qed.

Lemma GetFuncIndex_found (m nib r : Z) (s s' : HLE) :
  GetFuncIndex m nib s = Ok r s' ->
  r <> -1 ->
  0 <= r /\ exists f, slot (moduleDB s) m r = Some f /\ ID f = nib.
Proof.
  unfold GetFuncIndex, bind, gets.
  destruct (at_index (moduleDB s) m s) as [module s1 |] eqn:Hat; [| discriminate].
  apply at_index_inv in Hat. destruct Hat as (-> & Hm & Hnth).
  intros H Hr.
  destruct (GetFuncIndex_loop_found _ _ _ _ _ _ _ (Z.le_refl 0) H Hr) as (Hle & f & Hf & Hid).
  split; [exact Hle |]. exists f. unfold slot.
  destruct (Z.ltb_spec m 0); [lia |].
  destruct (Z.ltb_spec r 0); [lia |]. cbn [orb].
  rewrite Hnth. auto.
Qed.

(** What [GetSyscallOp] returns for a module that is registered. *)
Lemma GetSyscallOp_registered (modName : bytes) (nib m f : Z) (s s' : HLE) :
  GetModuleIndex_loop (moduleDB s) modName 0 = m ->
  m <> -1 ->
  GetFuncIndex m nib s = Ok f s' ->
  GetSyscallOp modName nib s
  = Ok (if negb (f =? -1)
        then to_u32 (Z.lor (Z.lor 0x0000000c (Z.shiftl m 18)) (Z.shiftl f 6))
        else to_u32 (Z.lor 0x0003FFCC (Z.shiftl m 18))) s.
Proof.
  intros Hm Hreg Hf.
  destruct (GetFuncIndex_pure _ _ _ _ _ Hf) as (-> & _).
  unfold GetSyscallOp, bind. rewrite GetModuleIndex_eq, Hm.
  destruct (Z.eqb_spec m (-1)) as [| _]; [contradiction |]. cbn [negb].
  rewrite Hf. destruct (negb (f =? -1)); reflexivity.
Qed.

(** ** The opcode encoding *)

(** C1.  For a registered module at index [m < 256] and a function found at
    index [f < 4096], the opcode [GetSyscallOp] returns decodes, by the
    arithmetic of [CallSyscall], to module [m] and function [f]; bits 17..6
    hold [f], bits 25..18 hold [m], and the low six bits are the tag [0x0c]. *)
Theorem GetSyscallOp_decode (s s1 s2 : HLE) (modName : bytes) (nib m f : Z) :
  GetModuleIndex modName s = Ok m s1 ->
  m <> -1 ->
  GetFuncIndex m nib s = Ok f s2 ->
  f <> -1 ->
  m < 256 ->
  f < 4096 ->
  exists op,
    GetSyscallOp modName nib s = Ok op s /\
    modulenum op = m /\ funcnum op = f /\
    Z.land (Z.shiftr op 6) 0xFFF = f /\
    Z.land (Z.shiftr op 18) 0xFF = m /\
    Z.land op 0x3F = 0x0c.
Proof.
  intros Hmod Hm Hfun Hf Hm256 Hf4096.
  rewrite GetModuleIndex_eq in Hmod. injection Hmod as Hmod _.
  destruct (GetModuleIndex_loop_found (moduleDB s) modName 0 (Z.le_refl 0))
    as (_ & Hm0 & _); [rewrite Hmod; exact Hm |].
  rewrite Hmod in Hm0.
  destruct (GetFuncIndex_found _ _ _ _ _ Hfun Hf) as (Hf0 & _).
  exists (to_u32 (Z.lor (Z.lor 0x0000000c (Z.shiftl m 18)) (Z.shiftl f 6))).
  split.
  { rewrite (GetSyscallOp_registered _ _ _ _ _ _ Hmod Hm Hfun).
    destruct (Z.eqb_spec f (-1)); [contradiction |]. reflexivity. }
  rewrite encode_value by lia.
  assert (Hop : to_u32 (m * 2 ^ 18 + f * 2 ^ 6 + 12) = m * 262144 + f * 64 + 12).
  { unfold to_u32. change (2 ^ 18) with 262144. change (2 ^ 6) with 64.
    apply Z.mod_small. change (2 ^ 32) with 4294967296. lia. }
  rewrite Hop, modulenum_div_mod, funcnum_div_mod, land_low6.
  change 0xFFF with (Z.ones 12). change 0xFF with (Z.ones 8).
  rewrite !Z.land_ones, !Z.shiftr_div_pow2 by lia.
  change (2 ^ 18) with 262144. change (2 ^ 6) with 64.
  change (2 ^ 12) with 4096. change (2 ^ 8) with 256.
  repeat split; div_mod_lia.
Qed.

(** ** C strings and the reason buffer *)

Lemma strlen_le (s : bytes) : (strlen s <= length s)%nat.
Proof.
  induction s as [| c t IH]; cbn [strlen length]; [lia |].
  destruct (Ascii.eqb c NUL); lia.
Qed.

Lemma cstr_length (s : bytes) : length (cstr s) = strlen s.
Proof.
  unfold cstr. rewrite length_firstn. pose proof (strlen_le s). lia.
Qed.

Lemma cstr_no_nul (s : bytes) : ~ In NUL (cstr s).
Proof.
  unfold cstr. induction s as [| c t IH]; cbn [strlen firstn]; [intros [] |].
  destruct (Ascii.eqb_spec c NUL) as [| Hc]; [intros [] |].
  cbn [firstn In]. intros [Heq | Hin]; [congruence | exact (IH Hin)].
Qed.

Lemma strlen_app_nul (l rest : bytes) :
  ~ In NUL l -> strlen (l ++ NUL :: rest) = length l.
Proof.
  induction l as [| c t IH]; intros Hl; cbn [app strlen length].
  - rewrite Ascii.eqb_refl. reflexivity.
  - destruct (Ascii.eqb_spec c NUL) as [-> | _].
    + exfalso. apply Hl. left. reflexivity.
    + f_equal. apply IH. intros Hin. apply Hl. right. exact Hin.
Qed.

Lemma cstr_app_nul (l rest : bytes) :
  ~ In NUL l -> cstr (l ++ NUL :: rest) = l.
Proof.
  intros Hl. unfold cstr. rewrite (strlen_app_nul l rest Hl).
  rewrite firstn_app, Nat.sub_diag, firstn_all. cbn [firstn].
  apply app_nil_r.
Qed.

Lemma in_firstn {A} (x : A) (n : nat) (l : list A) :
  In x (firstn n l) -> In x l.
Proof.
  intros Hin. rewrite <- (firstn_skipn n l). apply in_or_app. left. exact Hin.
Qed.

Lemma firstn_cstr (n : nat) (s : bytes) :
  (n <= strlen s)%nat -> firstn n (cstr s) = firstn n s.
Proof.
  intros Hn. unfold cstr. rewrite firstn_firstn.
  f_equal. lia.
Qed.

Lemma firstn_no_nul (n : nat) (s : bytes) :
  (n <= strlen s)%nat -> ~ In NUL (firstn n s).
Proof.
  intros Hn Hin. rewrite <- firstn_cstr in Hin by assumption.
  apply (cstr_no_nul s). eapply in_firstn, Hin.
Qed.

Lemma bytes_eqb_eq (a b : bytes) : bytes_eqb a b = true <-> a = b.
Proof.
  revert b. induction a as [| x a IH]; intros [| y b]; cbn [bytes_eqb];
    try (split; [discriminate | congruence]).
  - split; reflexivity.
  - rewrite andb_true_iff, Ascii.eqb_eq, IH. split.
    + intros [-> ->]. reflexivity.
    + intros [= -> ->]. auto.
Qed.

Lemma poke_ok (buf : bytes) (off : nat) (data : bytes) :
  (off + length data <= length buf)%nat ->
  poke buf off data
  = Some (firstn off buf ++ data ++ skipn (off + length data) buf).
Proof.
  intros H. unfold poke.
  destruct (Nat.leb_spec (off + length data) (length buf)); [reflexivity | lia].
Qed.

Lemma poke_length (buf : bytes) (off : nat) (data buf' : bytes) :
  poke buf off data = Some buf' -> length buf' = length buf.
Proof.
  unfold poke.
  destruct (Nat.leb_spec (off + length data) (length buf)) as [H |]; [| discriminate].
  intros [= <-]. rewrite !length_app, length_firstn, length_skipn. lia.
Qed.

Lemma REASON_SIZE_eq : REASON_SIZE = 512%nat.
Proof. reflexivity. Qed.

Lemma strcpy_reason_run (src : bytes) (s : HLE) :
  (strlen src < length (hleAfterSyscallReschedReason s))%nat ->
  strcpy_reason src s
  = Ok tt (mkHLE (moduleDB s) (unresolvedSyscalls s) (hleAfterSyscall s)
             (cstr src ++ NUL :: skipn (S (strlen src)) (hleAfterSyscallReschedReason s))
             (events s)).
Proof.
  intros Hlen. unfold strcpy_reason, bind, gets.
  rewrite poke_ok by (rewrite length_app, cstr_length; cbn [length]; lia).
  cbn [of_option firstn app]. unfold ret, set_reason, modify.
  rewrite length_app, cstr_length. cbn [length Nat.add].
  rewrite <- app_assoc. cbn [app].
  replace (strlen src + 1)%nat with (S (strlen src)) by lia.
  reflexivity.
Qed.

(** [hleAfterSyscallReschedReason[0] = 0] on a buffer that has a first byte. *)
Lemma clear_reason_run (s : HLE) :
  (0 < length (hleAfterSyscallReschedReason s))%nat ->
  set_reason_byte 0 NUL s
  = Ok tt (mkHLE (moduleDB s) (unresolvedSyscalls s) (hleAfterSyscall s)
             (NUL :: skipn 1 (hleAfterSyscallReschedReason s)) (events s)).
Proof.
  intros Hlen. unfold set_reason_byte, bind, gets.
  rewrite poke_ok by (cbn [length]; lia). reflexivity.
Qed.

Lemma length_cleared (buf : bytes) :
  (0 < length buf)%nat -> length (NUL :: skipn 1 buf) = length buf.
Proof. intros H. cbn [length]. rewrite length_skipn. lia. Qed.

Lemma cstr_cleared (buf : bytes) : cstr (NUL :: buf) = [].
Proof. reflexivity. Qed.

(** ** Requests *)

Lemma or_hleAfterSyscall_run (flag : Z) (s : HLE) :
  or_hleAfterSyscall flag s
  = Ok tt (mkHLE (moduleDB s) (unresolvedSyscalls s) (Z.lor (hleAfterSyscall s) flag)
             (hleAfterSyscallReschedReason s) (events s)).
Proof. reflexivity. Qed.

(** [memcpy] of [n] bytes followed by [buf[n] = 0], on a buffer of [n + 1]
    bytes. *)
Lemma truncate_store (buf r : bytes) (n : nat) :
  length buf = S n -> (n <= length r)%nat ->
  exists b1,
    poke buf 0 (firstn n r) = Some b1 /\
    poke b1 n [NUL] = Some (firstn n r ++ [NUL]).
Proof.
  intros Hbuf Hr.
  assert (Hn : length (firstn n r) = n) by (rewrite length_firstn; lia).
  exists (firstn n r ++ skipn n buf). split.
  - rewrite poke_ok by (rewrite Hn; lia). rewrite Hn. reflexivity.
  - rewrite poke_ok by (rewrite length_app, length_skipn, Hn; cbn [length]; lia).
    rewrite firstn_app, Hn, Nat.sub_diag, firstn_0, app_nil_r.
    rewrite firstn_all2 by lia.
    rewrite skipn_all2 by (rewrite length_app, length_skipn, Hn; cbn [length]; lia).
    reflexivity.
Qed.

(** What [hleReSchedule] leaves in the state. *)
Lemma hleReSchedule_run (reason : option bytes) (s : HLE) :
  length (hleAfterSyscallReschedReason s) = REASON_SIZE ->
  exists buf' evs,
    hleReSchedule reason s
    = Ok tt (mkHLE (moduleDB s) (unresolvedSyscalls s)
               (Z.lor (hleAfterSyscall s) HLE_AFTER_RESCHED) buf' (events s ++ evs)) /\
    length buf' = REASON_SIZE /\
    forallb is_dbg_assert evs = true /\
    match reason with
    | None => cstr buf' = lit "Invalid reason"
    | Some r =>
        if (REASON_SIZE <=? strlen r)%nat
        then cstr buf' = firstn (REASON_SIZE - 1) r /\
             nth_error buf' (REASON_SIZE - 1) = Some NUL
        else cstr buf' = cstr r
    end.
Proof.
  platform_free.
  destruct s as [db pend mask buf evs0]. fields. intros Hlen.
  pose proof REASON_SIZE_eq as Hsize.
  unfold hleReSchedule.
  destruct reason as [r |].
  - pose proof (strlen_le r) as Hr.
    destruct (Nat.leb_spec REASON_SIZE (strlen r)) as [Hlong | Hshort].
    + destruct (truncate_store buf r (REASON_SIZE - 1)) as (b1 & H1 & H2);
        [rewrite Hlen; reflexivity | lia |].
      exists (firstn (REASON_SIZE - 1) r ++ [NUL]), [EvDbgAssert "hleReSchedule: Not too long reason."].
      split; [| split; [| split; [reflexivity | split]]].
      * unfold or_hleAfterSyscall, memcpy_reason, set_reason_byte. unfold_monad.
        destruct (Nat.ltb_spec (strlen r) 256); [lia |]. step.
        destruct (Nat.leb_spec (REASON_SIZE - 1) (length r)); [| lia].
        rewrite H1. step. rewrite H2. reflexivity.
      * rewrite length_app, length_firstn. cbn [length]. lia.
      * change [NUL] with (NUL :: []). apply cstr_app_nul.
        apply firstn_no_nul. lia.
      * rewrite nth_error_app2 by (rewrite length_firstn; lia).
        rewrite length_firstn.
        replace (REASON_SIZE - 1 - Nat.min (REASON_SIZE - 1) (length r))%nat with O by lia.
        reflexivity.
    + exists (cstr r ++ NUL :: skipn (S (strlen r)) buf),
        (if (strlen r <? 256)%nat then [] else [EvDbgAssert "hleReSchedule: Not too long reason."]).
      split; [| split; [| split]].
      * unfold or_hleAfterSyscall. unfold_monad.
        destruct (strlen r <? 256)%nat; step.
        -- rewrite strcpy_reason_run by (fields; lia). fields.
           rewrite app_nil_r. reflexivity.
        -- rewrite strcpy_reason_run by (fields; lia). reflexivity.
      * rewrite length_app, cstr_length. cbn [length]. rewrite length_skipn. lia.
      * destruct (strlen r <? 256)%nat; reflexivity.
      * apply cstr_app_nul, cstr_no_nul.
  - exists (lit "Invalid reason" ++ NUL :: skipn 15 buf),
      [EvDbgAssert "hleReSchedule: Expecting a valid reason.";
       EvDbgAssert "hleReSchedule: Not too long reason."].
    split; [| split; [| split]].
    + unfold or_hleAfterSyscall. unfold_monad.
      step. rewrite strcpy_reason_run.
      * fields. rewrite <- app_assoc. reflexivity.
      * fields. rewrite Hlen, Hsize. cbn [lit list_ascii_of_string strlen Ascii.eqb NUL Ascii.zero Bool.eqb]. lia.
    + rewrite length_app. cbn [length lit list_ascii_of_string]. rewrite length_skipn. lia.
    + reflexivity.
    + apply cstr_app_nul. cbn. intuition discriminate.
Qed.

(** C9.  [hleReSchedule] always raises the reschedule bit and never writes
    outside the 512-byte reason buffer.  A reason of 512 characters or more
    is stored as its first 511 characters followed by a NUL in the last
    byte; a shorter reason is stored as it is; a null reason is stored as
    the string "Invalid reason". *)
Theorem hleReSchedule_stores_reason (reason : option bytes) (s : HLE) :
  length (hleAfterSyscallReschedReason s) = REASON_SIZE ->
  exists s',
    hleReSchedule reason s = Ok tt s' /\
    hleAfterSyscall s' = Z.lor (hleAfterSyscall s) HLE_AFTER_RESCHED /\
    Z.land (hleAfterSyscall s') HLE_AFTER_RESCHED <> 0 /\
    length (hleAfterSyscallReschedReason s') = REASON_SIZE /\
    match reason with
    | None => cstr (hleAfterSyscallReschedReason s') = lit "Invalid reason"
    | Some r =>
        ((REASON_SIZE <= strlen r)%nat ->
           cstr (hleAfterSyscallReschedReason s') = firstn (REASON_SIZE - 1) r /\
           length (cstr (hleAfterSyscallReschedReason s')) = (REASON_SIZE - 1)%nat /\
           nth_error (hleAfterSyscallReschedReason s') (REASON_SIZE - 1) = Some NUL) /\
        ((strlen r < REASON_SIZE)%nat ->
           cstr (hleAfterSyscallReschedReason s') = cstr r)
    end.
Proof.
  intros Hlen.
  destruct (hleReSchedule_run reason s Hlen) as (buf' & evs & Hrun & Hlen' & _ & Hbuf).
  eexists. split; [exact Hrun |]. fields.
  split; [reflexivity |]. split.
  { intros H0.
    assert (Hbit : Z.testbit (Z.lor (hleAfterSyscall s) HLE_AFTER_RESCHED) 0 = true).
    { rewrite Z.lor_spec. apply orb_true_r. }
    rewrite <- (has_flag_testbit _ 0 (Z.le_refl 0)) in Hbit.
    change (2 ^ 0) with HLE_AFTER_RESCHED in Hbit.
    rewrite H0 in Hbit. discriminate. }
  split; [exact Hlen' |].
  destruct reason as [r |]; [| exact Hbuf].
  pose proof (strlen_le r) as Hr.
  destruct (Nat.leb_spec REASON_SIZE (strlen r)) as [Hlong | Hshort].
  - split; [| lia]. intros _. destruct Hbuf as (Hc & Hn).
    split; [exact Hc |]. split; [| exact Hn].
    rewrite Hc, length_firstn. lia.
  - split; [lia |]. intros _. exact Hbuf.
Qed.

(** ** Host function bodies *)

Lemma lor_keeps_bit (mask flag k : Z) :
  Z.testbit mask k = true -> Z.testbit (Z.lor mask flag) k = true.
Proof. intros H. rewrite Z.lor_spec, H. reflexivity. Qed.

(** A request raises bits, may rewrite the reason inside its buffer, may
    report on the assertion channel, and does nothing else. *)
Lemma request_run (r : Request) (s : HLE) :
  length (hleAfterSyscallReschedReason s) = REASON_SIZE ->
  exists mask' buf' evs,
    request r s
    = Ok tt (mkHLE (moduleDB s) (unresolvedSyscalls s) mask' buf' (events s ++ evs)) /\
    length buf' = REASON_SIZE /\
    forallb is_dbg_assert evs = true /\
    (forall k, Z.testbit (hleAfterSyscall s) k = true -> Z.testbit mask' k = true) /\
    (r = ReqDebugBreak -> Z.testbit mask' 5 = true).
Proof.
  intros Hlen.
  assert (Hflag : forall flag,
    exists mask' buf' evs,
      or_hleAfterSyscall flag s
      = Ok tt (mkHLE (moduleDB s) (unresolvedSyscalls s) mask' buf' (events s ++ evs)) /\
      length buf' = REASON_SIZE /\
      forallb is_dbg_assert evs = true /\
      (forall k, Z.testbit (hleAfterSyscall s) k = true -> Z.testbit mask' k = true) /\
      mask' = Z.lor (hleAfterSyscall s) flag).
  { intros flag. exists (Z.lor (hleAfterSyscall s) flag), (hleAfterSyscallReschedReason s), [].
    rewrite app_nil_r, or_hleAfterSyscall_run.
    repeat split; auto using lor_keeps_bit. }
  destruct r as [| | reason | callbacks reason | |]; cbn [request];
    unfold hleCheckAllCallbacks, hleCheckCurrentCallbacks, hleRunInterrupts, hleDebugBreak.
  - destruct (Hflag HLE_AFTER_ALL_CALLBACKS) as (m & b & e & H1 & H2 & H3 & H4 & _).
    exists m, b, e. repeat split; auto; try discriminate.
  - destruct (Hflag HLE_AFTER_CURRENT_CALLBACKS) as (m & b & e & H1 & H2 & H3 & H4 & _).
    exists m, b, e. repeat split; auto; try discriminate.
  - destruct (hleReSchedule_run reason s Hlen) as (buf' & evs & Hrun & Hlen' & Hevs & _).
    exists (Z.lor (hleAfterSyscall s) HLE_AFTER_RESCHED), buf', evs.
    repeat split; auto using lor_keeps_bit; try discriminate.
  - destruct (hleReSchedule_run reason s Hlen) as (buf' & evs & Hrun & Hlen' & Hevs & _).
    unfold hleReScheduleCB, bind. rewrite Hrun.
    destruct callbacks; cbn [when].
    + rewrite or_hleAfterSyscall_run. fields.
      eexists _, buf', evs. split; [reflexivity |].
      repeat split; auto using lor_keeps_bit; try discriminate.
    + exists (Z.lor (hleAfterSyscall s) HLE_AFTER_RESCHED), buf', evs.
      repeat split; auto using lor_keeps_bit; try discriminate.
  - destruct (Hflag HLE_AFTER_RUN_INTERRUPTS) as (m & b & e & H1 & H2 & H3 & H4 & _).
    exists m, b, e. repeat split; auto; try discriminate.
  - destruct (Hflag HLE_AFTER_DEBUG_BREAK) as (m & b & e & H1 & H2 & H3 & H4 & ->).
    exists (Z.lor (hleAfterSyscall s) HLE_AFTER_DEBUG_BREAK), b, e.
    repeat split; auto. intros _. rewrite Z.lor_spec. apply orb_true_r.
Qed.

(** The same for a whole body. *)
Lemma call_run (body : HLEFunc) (s : HLE) :
  length (hleAfterSyscallReschedReason s) = REASON_SIZE ->
  exists mask' buf' evs,
    call body s
    = Ok tt (mkHLE (moduleDB s) (unresolvedSyscalls s) mask' buf' (events s ++ evs)) /\
    length buf' = REASON_SIZE /\
    forallb is_dbg_assert evs = true /\
    (forall k, Z.testbit (hleAfterSyscall s) k = true -> Z.testbit mask' k = true) /\
    (In ReqDebugBreak body -> Z.testbit mask' 5 = true).
Proof.
  revert s. induction body as [| r rest IH]; intros s Hlen; cbn [call].
  - exists (hleAfterSyscall s), (hleAfterSyscallReschedReason s), [].
    rewrite app_nil_r. destruct s. repeat split; auto.
  - destruct (request_run r s Hlen) as (m1 & b1 & e1 & Hr & Hl1 & He1 & Hk1 & Hd1).
    unfold bind. rewrite Hr.
    destruct (IH (mkHLE (moduleDB s) (unresolvedSyscalls s) m1 b1 (events s ++ e1)) Hl1)
      as (m2 & b2 & e2 & Hc & Hl2 & He2 & Hk2 & Hd2). fields.
    exists m2, b2, (e1 ++ e2). rewrite Hc, <- app_assoc.
    split; [reflexivity |]. split; [exact Hl2 |].
    split; [rewrite forallb_app, He1, He2; reflexivity |].
    split; [auto |].
    intros [-> | Hin]; auto.
Qed.

(** ** The coordinator *)

Lemma slot_inv (db : list HLEModule) (m f : Z) (fn : HLEFunction) :
  slot db m f = Some fn ->
  0 <= m /\ 0 <= f /\
  exists module,
    nth_error db (Z.to_nat m) = Some module /\
    nth_error (funcTable module) (Z.to_nat f) = Some fn.
Proof.
  unfold slot.
  destruct (Z.ltb_spec m 0); [discriminate |].
  destruct (Z.ltb_spec f 0); [discriminate |]. cbn [orb].
  destruct (nth_error db (Z.to_nat m)) as [module |]; [| discriminate].
  intros H'. repeat split; try assumption. exists module. auto.
Qed.

Lemma slot_intro (db : list HLEModule) (m f : Z) (module : HLEModule) :
  0 <= m -> 0 <= f ->
  nth_error db (Z.to_nat m) = Some module ->
  slot db m f = nth_error (funcTable module) (Z.to_nat f).
Proof.
  intros Hm Hf Hmod. unfold slot.
  destruct (Z.ltb_spec m 0); [lia |].
  destruct (Z.ltb_spec f 0); [lia |]. cbn [orb].
  rewrite Hmod. reflexivity.
Qed.

(** [hleFinishSyscall] after the dispatch of the function [fn]. *)
Lemma hleFinishSyscall_run (m f : Z) (fn : HLEFunction) (s : HLE) :
  slot (moduleDB s) m f = Some fn ->
  (0 < length (hleAfterSyscallReschedReason s))%nat ->
  hleFinishSyscall m f s
  = Ok tt (mkHLE (moduleDB s) (unresolvedSyscalls s)
             (mask_after_finish (hleAfterSyscall s) fn)
             (NUL :: skipn 1 (hleAfterSyscallReschedReason s))
             (events s ++ kernel_calls (hleAfterSyscall s)
                            (cstr (hleAfterSyscallReschedReason s))
                        ++ debugger_calls (hleAfterSyscall s) fn)).
Proof.
  destruct s as [db pend mask buf evs0]. fields.
  intros Hslot Hbuf.
  destruct (slot_inv _ _ _ _ Hslot) as (Hm & Hf & module & Hmod & Hfn).
  assert (Hpoke : poke buf 0 [NUL] = Some (NUL :: skipn 1 buf))
    by (rewrite poke_ok by (cbn [length]; lia); reflexivity).
  unfold hleFinishSyscall, hleAfterSyscall_has, hleExecuteDebugBreak, set_reason_byte,
    KernelForceCallbacks, RunOnePendingInterrupt, KernelReScheduleCB, KernelReSchedule,
    KernelCheckCallbacks, Core_EnableStepping, host_SetDebugMode.
  change (existsb (fun n => ID ?g =? n) blacklistedNIDs) with (blacklisted g).
  unfold kernel_calls, debugger_calls, mask_after_finish, mask_has.
  unfold_monad. step.
  repeat (match goal with
          | |- context [Z.land mask ?flag =? 0] => destruct (Z.land mask flag =? 0)
          end; cbn [negb andb app]; step);
  rewrite ?(at_index_ok _ _ _ _ Hm Hmod); step;
  rewrite ?(at_index_ok _ _ _ _ Hf Hfn); step;
  try (destruct (blacklisted fn); cbn [negb]; step);
  rewrite Hpoke; rewrite ?app_nil_r, <- ?app_assoc; reflexivity.
Qed.

(** ** The dispatcher *)

Lemma with_events_nil (s : HLE) : with_events s [] = s.
Proof. destruct s. unfold with_events. fields. rewrite app_nil_r. reflexivity. Qed.

Lemma CallSyscall_sentinel_run (op : Z) (module : HLEModule) (s : HLE) :
  is_sentinel op = true ->
  nth_error (moduleDB s) (Z.to_nat (modulenum op)) = Some module ->
  CallSyscall op s
  = Ok tt (with_events s
             [EvDbgAssert "Unknown syscall";
              EvErrorLog "Unknown syscall: Module: %s" [ArgStr (cstr (name module))]]).
Proof.
  intros Hsent Hmod. unfold CallSyscall.
  change ((funcnum op =? 0xfff) || (op =? 0xffff)) with (is_sentinel op).
  rewrite Hsent. destruct s as [db pend mask buf evs0]. fields.
  unfold_monad. step.
  rewrite (at_index_ok _ _ _ _ (proj1 (modulenum_range op)) Hmod). step.
  unfold with_events. fields. rewrite <- app_assoc. reflexivity.
Qed.

Lemma CallSyscall_unimplemented_run (op : Z) (fn : HLEFunction) (s : HLE) :
  is_sentinel op = false ->
  slot (moduleDB s) (modulenum op) (funcnum op) = Some fn ->
  func fn = None ->
  CallSyscall op s
  = Ok tt (with_events s
             [EvErrorLog "Unimplemented HLE function %s" [ArgStr (cstr (fname fn))]]).
Proof.
  intros Hsent Hslot Hnull. unfold CallSyscall.
  change ((funcnum op =? 0xfff) || (op =? 0xffff)) with (is_sentinel op).
  rewrite Hsent. destruct s as [db pend mask buf evs0]. fields.
  destruct (slot_inv _ _ _ _ Hslot) as (Hm & Hf & module & Hmod & Hfn).
  unfold_monad. step.
  rewrite (at_index_ok _ _ _ _ Hm Hmod). step.
  rewrite (at_index_ok _ _ _ _ Hf Hfn). step.
  rewrite Hnull. reflexivity.
Qed.

(** A dispatch that reaches the host function: the body runs, then the
    coordinator when the body left a bit raised. *)
Lemma CallSyscall_invoke_run (op : Z) (fn : HLEFunction) (body : HLEFunc) (s : HLE) :
  is_sentinel op = false ->
  slot (moduleDB s) (modulenum op) (funcnum op) = Some fn ->
  func fn = Some body ->
  length (hleAfterSyscallReschedReason s) = REASON_SIZE ->
  exists mask1 buf1 evs,
    length buf1 = REASON_SIZE /\
    forallb is_dbg_assert evs = true /\
    (forall k, Z.testbit (hleAfterSyscall s) k = true -> Z.testbit mask1 k = true) /\
    (In ReqDebugBreak body -> Z.testbit mask1 5 = true) /\
    CallSyscall op s
    = Ok tt
        (if mask1 =? HLE_AFTER_NOTHING
         then mkHLE (moduleDB s) (unresolvedSyscalls s) mask1 buf1
                (events s ++ EvInvoke (modulenum op) (funcnum op) :: evs)
         else mkHLE (moduleDB s) (unresolvedSyscalls s)
                (mask_after_finish mask1 fn) (NUL :: skipn 1 buf1)
                (events s ++ EvInvoke (modulenum op) (funcnum op) :: evs
                   ++ kernel_calls mask1 (cstr buf1) ++ debugger_calls mask1 fn)).
Proof.
  intros Hsent Hslot Hbody Hlen. unfold CallSyscall.
  change ((funcnum op =? 0xfff) || (op =? 0xffff)) with (is_sentinel op).
  rewrite Hsent. destruct s as [db pend mask buf evs0]. fields.
  destruct (slot_inv _ _ _ _ Hslot) as (Hm & Hf & module & Hmod & Hfn).
  destruct (call_run body
              (mkHLE db pend mask buf (evs0 ++ [EvInvoke (modulenum op) (funcnum op)])) Hlen)
    as (mask1 & buf1 & evs & Hcall & Hlen1 & Hevs & Hmono & Hdbg). fields.
  exists mask1, buf1, evs. repeat split; try assumption.
  unfold_monad. step.
  rewrite (at_index_ok _ _ _ _ Hm Hmod). step.
  rewrite (at_index_ok _ _ _ _ Hf Hfn). step.
  rewrite Hbody. step. rewrite Hcall. step.
  rewrite <- app_assoc. cbn [app].
  destruct (mask1 =? HLE_AFTER_NOTHING); cbn [negb]; [reflexivity |].
  rewrite hleFinishSyscall_run with (fn := fn); fields;
    [| exact Hslot | rewrite Hlen1, REASON_SIZE_eq; lia].
  rewrite <- app_assoc. reflexivity.
Qed.

(** ** Properties of a dispatch *)

Lemma mask_has_true (mask flag : Z) :
  Z.land mask flag <> 0 -> mask_has mask flag = true.
Proof.
  intros H. unfold mask_has. apply negb_true_iff, Z.eqb_neq. exact H.
Qed.

Lemma mask_has_debug_break (mask : Z) :
  mask_has mask HLE_AFTER_DEBUG_BREAK = Z.testbit mask 5.
Proof. unfold mask_has. apply (has_flag_testbit mask 5). lia. Qed.

Lemma kernel_calls_kernel (mask : Z) (reason : bytes) :
  forallb is_kernel (kernel_calls mask reason) = true.
Proof.
  unfold kernel_calls.
  repeat match goal with |- context [mask_has mask ?flag] => destruct (mask_has mask flag) end;
    reflexivity.
Qed.

Lemma debugger_calls_debugger (mask : Z) (fn : HLEFunction) :
  forallb is_debugger (debugger_calls mask fn) = true.
Proof.
  unfold debugger_calls.
  destruct (mask_has mask HLE_AFTER_DEBUG_BREAK && negb (blacklisted fn)); reflexivity.
Qed.

Lemma mask_after_finish_settled (mask : Z) (fn : HLEFunction) :
  settled (mask_after_finish mask fn).
Proof.
  unfold mask_after_finish, settled.
  destruct (mask_has mask HLE_AFTER_DEBUG_BREAK && blacklisted fn); auto.
Qed.

Lemma blacklisted_iff (fn : HLEFunction) :
  blacklisted fn = true <->
  ID fn = NID_SUSPEND_INTR \/ ID fn = NID_RESUME_INTR \/ ID fn = NID_IDLE.
Proof.
  platform_free.
  unfold blacklisted, blacklistedNIDs. cbn [existsb].
  rewrite !orb_true_iff, !Z.eqb_eq. intuition discriminate.
Qed.

Lemma filter_all_false {A} (p : A -> bool) (l : list A) :
  (forall x, In x l -> p x = false) -> filter p l = [].
Proof.
  induction l as [| x l IH]; intros H; cbn [filter]; [reflexivity |].
  rewrite (H x (or_introl eq_refl)). apply IH. intros y Hy. apply H. right. exact Hy.
Qed.

Lemma forallb_implies_false {A} (p q : A -> bool) (l : list A) :
  forallb p l = true ->
  (forall x, p x = true -> q x = false) ->
  forall x, In x l -> q x = false.
Proof.
  intros Hall Hpq x Hin. rewrite forallb_forall in Hall. auto.
Qed.

(** C2.  Run after the dispatch of [fn], [hleFinishSyscall] makes kernel
    calls and then, at most, debugger calls.  With the
    current-callbacks, run-interrupts and reschedule bits set, the kernel
    calls are, in this order, the delivery of the current thread's
    callbacks, one pending interrupt, and one reschedule that receives the
    stored reason.  With the reschedule and reschedule-with-callbacks
    bits set, the only call of the reschedule phase is the reschedule
    with callbacks: the plain reschedule is not called. *)
Theorem hleFinishSyscall_priority (m f : Z) (fn : HLEFunction) (s : HLE) :
  slot (moduleDB s) m f = Some fn ->
  (0 < length (hleAfterSyscallReschedReason s))%nat ->
  exists s' calls dbg,
    hleFinishSyscall m f s = Ok tt s' /\
    events s' = events s ++ calls ++ dbg /\
    forallb is_debugger dbg = true /\
    (Z.land (hleAfterSyscall s) HLE_AFTER_CURRENT_CALLBACKS <> 0 ->
     Z.land (hleAfterSyscall s) HLE_AFTER_RUN_INTERRUPTS <> 0 ->
     Z.land (hleAfterSyscall s) HLE_AFTER_RESCHED <> 0 ->
     calls = [EvKernelForceCallbacks; EvRunOnePendingInterrupt;
              if mask_has (hleAfterSyscall s) HLE_AFTER_RESCHED_CALLBACKS
              then EvKernelReScheduleCB true (cstr (hleAfterSyscallReschedReason s))
              else EvKernelReSchedule (cstr (hleAfterSyscallReschedReason s))]) /\
    (Z.land (hleAfterSyscall s) HLE_AFTER_RESCHED <> 0 ->
     Z.land (hleAfterSyscall s) HLE_AFTER_RESCHED_CALLBACKS <> 0 ->
     filter is_resched_phase (calls ++ dbg)
       = [EvKernelReScheduleCB true (cstr (hleAfterSyscallReschedReason s))] /\
     count is_plain_resched (calls ++ dbg) = O).
Proof.
  intros Hslot Hbuf.
  eexists _, (kernel_calls (hleAfterSyscall s) (cstr (hleAfterSyscallReschedReason s))),
    (debugger_calls (hleAfterSyscall s) fn).
  split; [exact (hleFinishSyscall_run m f fn s Hslot Hbuf) |]. fields.
  split; [reflexivity |]. split; [apply debugger_calls_debugger |].
  split.
  - intros Hcur Hintr Hres. unfold kernel_calls.
    rewrite (mask_has_true _ _ Hcur), (mask_has_true _ _ Hintr), (mask_has_true _ _ Hres).
    destruct (mask_has (hleAfterSyscall s) HLE_AFTER_RESCHED_CALLBACKS); reflexivity.
  - intros Hres Hcb.
    assert (Hdbg : forall p, (forall e, is_debugger e = true -> p e = false) ->
              filter p (debugger_calls (hleAfterSyscall s) fn) = []).
    { intros p Hp. apply filter_all_false.
      apply (forallb_implies_false is_debugger); auto using debugger_calls_debugger. }
    unfold count. rewrite !filter_app, !Hdbg, !app_nil_r
      by (intros [] ?; reflexivity || discriminate).
    unfold kernel_calls. rewrite (mask_has_true _ _ Hcb).
    destruct (mask_has (hleAfterSyscall s) HLE_AFTER_CURRENT_CALLBACKS);
      destruct (mask_has (hleAfterSyscall s) HLE_AFTER_RUN_INTERRUPTS);
      split; reflexivity.
Qed.

(** C4, as the code has it.  When the decoded function index is [0xfff],
    or the opcode is [0xffff], and the decoded module index is inside the
    registry, [CallSyscall] reports the failed assertion, logs one error
    that names the module at the decoded index, invokes no host function
    and changes nothing else. *)
Theorem CallSyscall_sentinel_aborts (op : Z) (module : HLEModule) (s : HLE) :
  funcnum op = 0xfff \/ op = 0xffff ->
  nth_error (moduleDB s) (Z.to_nat (modulenum op)) = Some module ->
  exists evs,
    CallSyscall op s = Ok tt (with_events s evs) /\
    evs = [EvDbgAssert "Unknown syscall";
           EvErrorLog "Unknown syscall: Module: %s" [ArgStr (cstr (name module))]] /\
    count is_error_log evs = 1%nat /\
    count is_invoke evs = O.
Proof.
  intros Hsent Hmod. eexists. split; [| repeat split].
  apply CallSyscall_sentinel_run; [| exact Hmod].
  unfold is_sentinel. apply orb_true_iff.
  destruct Hsent as [H | H]; [left | right]; apply Z.eqb_eq; exact H.
Qed.

(** C8.  When the opcode decodes to a table entry whose host function
    pointer is null, [CallSyscall] logs exactly one error, invokes no
    function, writes no guest memory, calls neither the kernel nor the
    debugger, and leaves the bitmask, the stored reason, the registry and
    the pending list as they were. *)
Theorem CallSyscall_unimplemented (op : Z) (fn : HLEFunction) (s : HLE) :
  slot (moduleDB s) (modulenum op) (funcnum op) = Some fn ->
  func fn = None ->
  exists evs,
    CallSyscall op s = Ok tt (with_events s evs) /\
    count is_error_log evs = 1%nat /\
    count is_invoke evs = O /\
    count is_write evs = O /\
    count is_kernel evs = O /\
    count is_debugger evs = O /\
    (is_sentinel op = false ->
     evs = [EvErrorLog "Unimplemented HLE function %s" [ArgStr (cstr (fname fn))]]).
Proof.
  intros Hslot Hnull.
  destruct (is_sentinel op) eqn:Hsent.
  - destruct (slot_inv _ _ _ _ Hslot) as (_ & _ & module & Hmod & _).
    eexists. split; [apply CallSyscall_sentinel_run; eassumption |].
    repeat split. discriminate.
  - eexists. split; [eapply CallSyscall_unimplemented_run; eassumption |].
    repeat split.
Qed.

Lemma testbit5_nonzero (mask : Z) :
  Z.testbit mask 5 = true -> (mask =? HLE_AFTER_NOTHING) = false.
Proof.
  intros Hbit. apply Z.eqb_neq. intros ->. discriminate.
Qed.

Lemma not_debugger_invoke_asserts_kernel (m f : Z) (evs : list Event)
    (mask : Z) (reason : bytes) :
  forallb is_dbg_assert evs = true ->
  forall e, In e (EvInvoke m f :: evs ++ kernel_calls mask reason) ->
            is_debugger e = false.
Proof.
  intros Hevs e [<- | Hin]; [reflexivity |].
  apply in_app_or in Hin. destruct Hin as [Hin | Hin].
  - apply (forallb_implies_false is_dbg_assert is_debugger evs Hevs); [| exact Hin].
    intros []; reflexivity || discriminate.
  - apply (forallb_implies_false is_kernel is_debugger _ (kernel_calls_kernel mask reason));
      [| exact Hin].
    intros []; reflexivity || discriminate.
Qed.

(** C3.  A debug break requested by the body of a blacklisted function
    (identifier [NID_SUSPEND_INTR], [NID_RESUME_INTR] or [NID_IDLE]) makes
    no call into the debugger; the dispatch ends with the bitmask equal to
    the debug-break bit and an empty stored reason.  The next dispatch, of
    a function that is not blacklisted, whatever its body requests (so also
    when it requests no debug break), enables stepping and sets the debug
    mode, and ends with an empty bitmask. *)
Theorem debug_break_sticky (op1 op2 : Z) (f1 f2 : HLEFunction)
    (body1 body2 : HLEFunc) (s : HLE) :
  length (hleAfterSyscallReschedReason s) = REASON_SIZE ->
  is_sentinel op1 = false ->
  slot (moduleDB s) (modulenum op1) (funcnum op1) = Some f1 ->
  func f1 = Some body1 ->
  ID f1 = NID_SUSPEND_INTR \/ ID f1 = NID_RESUME_INTR \/ ID f1 = NID_IDLE ->
  In ReqDebugBreak body1 ->
  is_sentinel op2 = false ->
  slot (moduleDB s) (modulenum op2) (funcnum op2) = Some f2 ->
  func f2 = Some body2 ->
  ID f2 <> NID_SUSPEND_INTR -> ID f2 <> NID_RESUME_INTR -> ID f2 <> NID_IDLE ->
  exists s1 s2 evs1 evs2,
    CallSyscall op1 s = Ok tt s1 /\
    events s1 = events s ++ evs1 /\
    (forall e, In e evs1 -> is_debugger e = false) /\
    hleAfterSyscall s1 = HLE_AFTER_DEBUG_BREAK /\
    cstr (hleAfterSyscallReschedReason s1) = [] /\
    CallSyscall op2 s1 = Ok tt s2 /\
    events s2 = events s1 ++ evs2 /\
    filter is_debugger evs2 = [EvCoreEnableStepping true; EvHostSetDebugMode true] /\
    hleAfterSyscall s2 = HLE_AFTER_NOTHING.
Proof.
  platform_free.
  intros Hlen Hs1 Hslot1 Hb1 Hblack Hreq Hs2 Hslot2 Hb2 Hn1 Hn2 Hn3.
  apply blacklisted_iff in Hblack.
  assert (Hwhite : blacklisted f2 = false).
  { destruct (blacklisted f2) eqn:Hbl; [| reflexivity].
    apply blacklisted_iff in Hbl. intuition congruence. }
  destruct (CallSyscall_invoke_run op1 f1 body1 s Hs1 Hslot1 Hb1 Hlen)
    as (mask1 & buf1 & e1 & Hlen1 & He1 & _ & Hdbg1 & Hcall1).
  specialize (Hdbg1 Hreq).
  rewrite (testbit5_nonzero _ Hdbg1) in Hcall1.
  unfold mask_after_finish, debugger_calls in Hcall1.
  rewrite mask_has_debug_break, Hdbg1, Hblack in Hcall1. cbn [andb negb] in Hcall1.
  rewrite app_nil_r in Hcall1.
  set (s1 := mkHLE (moduleDB s) (unresolvedSyscalls s) HLE_AFTER_DEBUG_BREAK
               (NUL :: skipn 1 buf1)
               (events s ++ EvInvoke (modulenum op1) (funcnum op1) :: e1
                  ++ kernel_calls mask1 (cstr buf1))) in *.
  assert (Hlen_s1 : length (hleAfterSyscallReschedReason s1) = REASON_SIZE).
  { subst s1. fields. rewrite length_cleared; rewrite Hlen1; [reflexivity |].
    rewrite REASON_SIZE_eq. lia. }
  destruct (CallSyscall_invoke_run op2 f2 body2 s1 Hs2 Hslot2 Hb2 Hlen_s1)
    as (mask2 & buf2 & e2 & Hlen2 & He2 & Hmono2 & _ & Hcall2).
  assert (Hdbg2 : Z.testbit mask2 5 = true) by (apply Hmono2; reflexivity).
  rewrite (testbit5_nonzero _ Hdbg2) in Hcall2.
  unfold mask_after_finish, debugger_calls in Hcall2.
  rewrite mask_has_debug_break, Hdbg2, Hwhite in Hcall2. cbn [andb negb] in Hcall2.
  eexists s1, _, _, _.
  split; [exact Hcall1 |]. split; [reflexivity |].
  split; [apply not_debugger_invoke_asserts_kernel; exact He1 |].
  split; [reflexivity |]. split; [reflexivity |].
  split; [exact Hcall2 |]. fields. split; [reflexivity |].
  split; [| reflexivity].
  rewrite (app_assoc e2), app_comm_cons, filter_app.
  rewrite filter_all_false
    by (apply not_debugger_invoke_asserts_kernel; exact He2).
  reflexivity.
Qed.

(** A dispatch of an opcode whose table entries exist returns, keeps the
    registry and the size of the reason buffer, and leaves the bitmask
    unchanged on the two paths that invoke nothing, settled otherwise. *)
Lemma CallSyscall_step (op : Z) (s : HLE) :
  length (hleAfterSyscallReschedReason s) = REASON_SIZE ->
  dispatchable (moduleDB s) op = true ->
  exists s',
    CallSyscall op s = Ok tt s' /\
    moduleDB s' = moduleDB s /\
    length (hleAfterSyscallReschedReason s') = REASON_SIZE /\
    (is_sentinel op = true -> hleAfterSyscall s' = hleAfterSyscall s) /\
    (forall fn, is_sentinel op = false ->
       slot (moduleDB s) (modulenum op) (funcnum op) = Some fn ->
       func fn = None -> hleAfterSyscall s' = hleAfterSyscall s) /\
    (forall fn body, is_sentinel op = false ->
       slot (moduleDB s) (modulenum op) (funcnum op) = Some fn ->
       func fn = Some body -> settled (hleAfterSyscall s')).
Proof.
  intros Hlen Hdisp. unfold dispatchable in Hdisp.
  destruct (is_sentinel op) eqn:Hsent.
  - destruct (nth_error (moduleDB s) (Z.to_nat (modulenum op))) as [module |] eqn:Hmod;
      [| discriminate].
    eexists. split; [apply (CallSyscall_sentinel_run op module s Hsent Hmod) |].
    unfold with_events; fields. repeat split; auto; discriminate.
  - destruct (slot (moduleDB s) (modulenum op) (funcnum op)) as [fn |] eqn:Hslot;
      [| discriminate].
    destruct (func fn) as [body |] eqn:Hbody.
    + destruct (CallSyscall_invoke_run op fn body s Hsent Hslot Hbody Hlen)
        as (mask1 & buf1 & e1 & Hlen1 & _ & _ & _ & Hcall).
      eexists. split; [exact Hcall |].
      destruct (Z.eqb_spec mask1 HLE_AFTER_NOTHING) as [Hz | _]; fields.
      * repeat split; auto; try discriminate.
        -- intros fn' _ [= <-]. congruence.
        -- intros _ _ _ _ _. left. exact Hz.
      * repeat split; auto; try discriminate.
        -- rewrite length_cleared; rewrite Hlen1; [reflexivity |].
           rewrite REASON_SIZE_eq. lia.
        -- intros fn' _ [= <-]. congruence.
        -- intros fn' _ _ [= <-] _. apply mask_after_finish_settled.
    + eexists. split; [apply (CallSyscall_unimplemented_run op fn s Hsent Hslot Hbody) |].
      unfold with_events; fields. repeat split; auto; try discriminate.
      intros fn' body _ [= <-]. congruence.
Qed.

Lemma dispatch_all_settled (db : list HLEModule) (ops : list Z) :
  forallb (dispatchable db) ops = true ->
  forall s,
    moduleDB s = db ->
    length (hleAfterSyscallReschedReason s) = REASON_SIZE ->
    settled (hleAfterSyscall s) ->
    exists seen s',
      dispatch_all ops s = Ok seen s' /\
      length seen = length ops /\
      Forall settled seen /\
      settled (hleAfterSyscall s').
Proof.
  induction ops as [| op rest IH]; intros Hops s Hdb Hlen Hset; cbn [dispatch_all].
  - exists [], s. repeat split; auto.
  - cbn [forallb] in Hops. apply andb_true_iff in Hops. destruct Hops as (Hop & Hrest).
    rewrite <- Hdb in Hop.
    destruct (CallSyscall_step op s Hlen Hop)
      as (s1 & Hcall & Hdb1 & Hlen1 & Hsent & Hnull & Hdone).
    assert (Hset1 : settled (hleAfterSyscall s1)).
    { unfold dispatchable in Hop. destruct (is_sentinel op) eqn:Hs.
      - rewrite Hsent; auto.
      - destruct (slot (moduleDB s) (modulenum op) (funcnum op)) as [fn |] eqn:Hslot;
          [| discriminate].
        destruct (func fn) as [body |] eqn:Hbody.
        + eapply Hdone; eauto.
        + rewrite (Hnull fn); auto. }
    destruct (IH Hrest s1 (eq_trans Hdb1 Hdb) Hlen1 Hset1)
      as (seen & s' & Hrun & Hn & Hall & Hfin).
    exists (hleAfterSyscall s :: seen), s'.
    unfold bind, gets. rewrite Hcall, Hrun. unfold ret.
    repeat split; auto. cbn [length]. congruence.
Qed.

(** C10.  Requests reach the coordinator from host function bodies only.
    A dispatch whose table entries exist returns; it leaves the bitmask
    unchanged when it aborts on a sentinel opcode or finds a null function
    pointer, and otherwise leaves it empty or equal to the debug-break bit.
    Hence, in a run of dispatches that starts from such a bitmask, the
    bitmask found at every entry to [CallSyscall] is empty or equal to the
    debug-break bit. *)
Theorem hleAfterSyscall_settled_at_entry (ops : list Z) (s : HLE) :
  length (hleAfterSyscallReschedReason s) = REASON_SIZE ->
  (forall op, dispatchable (moduleDB s) op = true ->
     exists s',
       CallSyscall op s = Ok tt s' /\
       (is_sentinel op = true -> hleAfterSyscall s' = hleAfterSyscall s) /\
       (forall fn, is_sentinel op = false ->
          slot (moduleDB s) (modulenum op) (funcnum op) = Some fn ->
          func fn = None -> hleAfterSyscall s' = hleAfterSyscall s) /\
       (forall fn body, is_sentinel op = false ->
          slot (moduleDB s) (modulenum op) (funcnum op) = Some fn ->
          func fn = Some body -> settled (hleAfterSyscall s'))) /\
  (settled (hleAfterSyscall s) ->
   forallb (dispatchable (moduleDB s)) ops = true ->
   exists seen s',
     dispatch_all ops s = Ok seen s' /\
     length seen = length ops /\
     Forall settled seen /\
     settled (hleAfterSyscall s')).
Proof.
  intros Hlen. split.
  - intros op Hop.
    destruct (CallSyscall_step op s Hlen Hop) as (s' & Hcall & _ & _ & H1 & H2 & H3).
    exists s'. auto.
  - intros Hset Hops. eapply dispatch_all_settled; eauto.
Qed.

(** ** The patcher and the resolver *)

Lemma with_events_app (s : HLE) (a b : list Event) :
  with_events (with_events s a) b = with_events s (a ++ b).
Proof. unfold with_events. fields. rewrite app_assoc. reflexivity. Qed.

Lemma GetFuncIndex_loop_total (tbl : list HLEFunction) (nib : Z) (todo : nat)
    (i : Z) (s : HLE) :
  0 <= i -> (Z.to_nat i + todo <= length tbl)%nat ->
  exists r, GetFuncIndex_loop tbl nib todo i s = Ok r s.
Proof.
  revert i. induction todo as [| todo IH]; intros i Hi Hlen; cbn [GetFuncIndex_loop].
  - exists (-1). reflexivity.
  - destruct (nth_error tbl (Z.to_nat i)) as [f |] eqn:Hnth.
    + unfold bind. rewrite (at_index_ok _ _ _ s Hi Hnth).
      destruct (ID f =? nib); [exists i; reflexivity |].
      apply IH; lia.
    + apply nth_error_None in Hnth. lia.
Qed.

Lemma GetSyscallOp_frame (modName : bytes) (nib op : Z) (s s' : HLE) :
  GetModuleIndex_loop (moduleDB s) modName 0 <> -1 ->
  GetSyscallOp modName nib s = Ok op s' ->
  forall t, moduleDB t = moduleDB s -> GetSyscallOp modName nib t = Ok op t.
Proof.
  intros Hreg Hop t Ht.
  destruct (GetFuncIndex (GetModuleIndex_loop (moduleDB s) modName 0) nib s)
    as [f s1 |] eqn:Hf.
  - pose proof (GetSyscallOp_registered _ _ _ _ _ _ eq_refl Hreg Hf) as Hs.
    destruct (GetFuncIndex_pure _ _ _ _ _ Hf) as (_ & Hpure).
    specialize (Hpure t Ht).
    revert Hreg Hs Hpure. rewrite <- Ht. intros Hreg Hs Hpure.
    pose proof (GetSyscallOp_registered _ _ _ _ _ _ eq_refl Hreg Hpure) as Hrun.
    match type of Hs with _ = Ok ?e _ => set (v := e) in * end.
    clearbody v. rewrite Hs in Hop. injection Hop as <- _. exact Hrun.
  - unfold GetSyscallOp, bind in Hop. rewrite GetModuleIndex_eq in Hop.
    destruct (Z.eqb_spec (GetModuleIndex_loop (moduleDB s) modName 0) (-1));
      [contradiction |].
    cbn [negb] in Hop. rewrite Hf in Hop. discriminate.
Qed.

Lemma GetSyscallOp_total (modName : bytes) (nib : Z) (s : HLE) :
  registry_wf (moduleDB s) ->
  GetModuleIndex_loop (moduleDB s) modName 0 <> -1 ->
  exists op, GetSyscallOp modName nib s = Ok op s.
Proof.
  intros Hwf Hreg.
  destruct (GetModuleIndex_loop_found _ _ 0 (Z.le_refl 0) Hreg) as (module & Hr & Hnth & _).
  rewrite Z.sub_0_r in Hnth.
  assert (Hmod : (Z.to_nat (numFunctions module) <= length (funcTable module))%nat).
  { unfold registry_wf in Hwf. rewrite Forall_forall in Hwf.
    apply Hwf. eapply nth_error_In, Hnth. }
  destruct (GetFuncIndex_loop_total (funcTable module) nib
              (Z.to_nat (numFunctions module)) 0 s (Z.le_refl 0)) as (f & Hf);
    [cbn; lia |].
  eexists. eapply GetSyscallOp_registered; [reflexivity | exact Hreg |].
  unfold GetFuncIndex, bind, gets.
  rewrite (at_index_ok _ _ _ s (proj1 Hr) Hnth). exact Hf.
Qed.

(** The module name as [WriteSyscall] copies it into a pending entry. *)
Lemma copied_name (modName : bytes) :
  exists copied,
    poke (strncpy modName 32) 31 [NUL] = Some copied /\
    length copied = 32%nat /\
    cstr copied = firstn 31 (cstr modName) /\
    ((strlen modName < 32)%nat -> cstr copied = cstr modName).
Proof.
  assert (Hlen : length (strncpy modName 32) = 32%nat).
  { unfold strncpy. rewrite length_app, repeat_length, length_firstn. lia. }
  assert (Hcut : ~ In NUL (firstn 31 (cstr modName))).
  { intros Hin. apply (cstr_no_nul modName). eapply in_firstn, Hin. }
  rewrite poke_ok by (rewrite Hlen; cbn [length]; lia).
  eexists. split; [reflexivity |].
  rewrite skipn_all2 by (rewrite Hlen; cbn [length]; lia).
  split.
  { rewrite !length_app, length_firstn, Hlen. cbn [length]. lia. }
  assert (Hshape : exists pad,
            firstn 31 (strncpy modName 32) ++ [NUL] ++ []
            = firstn 31 (cstr modName) ++ NUL :: pad).
  { unfold strncpy. rewrite firstn_app, firstn_firstn.
    change (Nat.min 31 32) with 31%nat.
    set (fill := firstn _ (repeat NUL _)).
    assert (Hfill : forall x, In x fill -> x = NUL).
    { intros x Hx. apply in_firstn in Hx. eapply repeat_spec, Hx. }
    rewrite <- app_assoc. cbn [app].
    destruct fill as [| x rest].
    - exists []. reflexivity.
    - exists (rest ++ [NUL]). rewrite (Hfill x (or_introl eq_refl)). reflexivity. }
  destruct Hshape as (pad & ->).
  rewrite cstr_app_nul by exact Hcut.
  split; [reflexivity |].
  intros Hshort. apply firstn_all2. rewrite cstr_length. lia.
Qed.

(** C5, as the code has it.  For a registered module whose table lacks the
    function, [GetSyscallOp] returns an opcode whose low six bits are
    [0x0c], the tag of a valid call, and whose function field is [0xfff].
    [CallSyscall] recognises it by that field alone: it reports the failed
    assertion, logs one error that names the module at the decoded index,
    and invokes no host function.  Below index 256 the module named is the
    one that was looked up. *)
Theorem GetSyscallOp_unresolved_function (modName : bytes) (nib m : Z) (s s1 s2 : HLE) :
  GetModuleIndex modName s = Ok m s1 ->
  m <> -1 ->
  GetFuncIndex m nib s = Ok (-1) s2 ->
  exists op module evs,
    GetSyscallOp modName nib s = Ok op s /\
    Z.land op 0x3F = 0x0c /\
    funcnum op = 0xfff /\
    modulenum op = m mod 256 /\
    nth_error (moduleDB s) (Z.to_nat (modulenum op)) = Some module /\
    (m < 256 -> modulenum op = m /\ cstr (name module) = cstr modName) /\
    CallSyscall op s = Ok tt (with_events s evs) /\
    evs = [EvDbgAssert "Unknown syscall";
           EvErrorLog "Unknown syscall: Module: %s" [ArgStr (cstr (name module))]] /\
    count is_invoke evs = O.
Proof.
  intros Hmod Hm Hfun.
  rewrite GetModuleIndex_eq in Hmod. injection Hmod as Hmod _.
  destruct (GetModuleIndex_loop_found (moduleDB s) modName 0 (Z.le_refl 0))
    as (found & Hrange & Hfound & Hname); [rewrite Hmod; exact Hm |].
  rewrite Hmod, Z.sub_0_r in *.
  set (op := to_u32 (Z.lor 0x0003FFCC (Z.shiftl m 18))).
  assert (Hop : GetSyscallOp modName nib s = Ok op s).
  { rewrite (GetSyscallOp_registered _ _ _ _ _ _ Hmod Hm Hfun). reflexivity. }
  assert (Hfn : funcnum op = 0xfff).
  { subst op. rewrite encode_invalid_value, funcnum_div_mod. unfold to_u32.
    change (2 ^ 18) with 262144. change (2 ^ 32) with 4294967296.
    change (2 ^ 6) with 64. change (2 ^ 12) with 4096.
    div_mod_lia. }
  assert (Hmn : modulenum op = m mod 256).
  { subst op. rewrite encode_invalid_value, modulenum_div_mod. unfold to_u32.
    change (2 ^ 18) with 262144. change (2 ^ 32) with 4294967296.
    change (2 ^ 8) with 256.
    div_mod_lia. }
  assert (Htag : Z.land op 0x3F = 0x0c).
  { subst op. rewrite encode_invalid_value, land_low6. unfold to_u32.
    change (2 ^ 18) with 262144. change (2 ^ 32) with 4294967296.
    change (2 ^ 6) with 64.
    div_mod_lia. }
  assert (Hin : exists module, nth_error (moduleDB s) (Z.to_nat (modulenum op)) = Some module).
  { destruct (nth_error (moduleDB s) (Z.to_nat (modulenum op))) as [module |] eqn:Hnth;
      [exists module; reflexivity |].
    apply nth_error_None in Hnth. rewrite Hmn in Hnth.
    pose proof (Z.mod_pos_bound m 256 ltac:(lia)).
    assert (m mod 256 <= m) by (apply Z.mod_le; lia). lia. }
  destruct Hin as (module & Hmodule).
  exists op, module. eexists.
  split; [exact Hop |]. split; [exact Htag |]. split; [exact Hfn |].
  split; [exact Hmn |]. split; [exact Hmodule |].
  split.
  { intros Hsmall. rewrite Hmn, Z.mod_small in * by lia.
    split; [reflexivity |].
    rewrite Hmodule in Hfound. injection Hfound as <-.
    symmetry. apply bytes_eqb_eq. exact Hname. }
  split; [| split; reflexivity].
  apply CallSyscall_sentinel_run; [| exact Hmodule].
  unfold is_sentinel. rewrite Hfn. reflexivity.
Qed.

Lemma ResolveSyscall_loop_run (modName : bytes) (nib address : Z)
    (pending : list Syscall) (s : HLE) :
  ResolveSyscall_loop pending modName nib address s
  = Ok tt (with_events s
             (flat_map (patch_events modName nib address)
                       (filter (resolves modName nib) pending))).
Proof.
  revert s. induction pending as [| sysc rest IH]; intros s;
    cbn [ResolveSyscall_loop filter].
  - cbn [flat_map]. rewrite with_events_nil. reflexivity.
  - change (strncmp_eq (moduleName sysc) modName 32 && (nid sysc =? nib))
      with (resolves modName nib sysc).
    unfold bind at 1. destruct (resolves modName nib sysc); cbn [when].
    + unfold bind at 1 2, INFO_LOG, Write_U32, emit, modify. fields.
      rewrite IH. cbn [flat_map]. rewrite <- with_events_app.
      unfold with_events at 2, patch_events. fields.
      rewrite <- !app_assoc. reflexivity.
    + unfold ret. apply IH.
Qed.

(** Against an entry whose stored name is shorter than 32 bytes, as every
    entry [WriteSyscall] appends is, the comparison over 32 bytes is
    equality of the names. *)
Lemma resolves_iff (modName : bytes) (nib : Z) (sysc : Syscall) :
  (strlen (moduleName sysc) < 32)%nat ->
  resolves modName nib sysc = true <->
  cstr (moduleName sysc) = cstr modName /\ nid sysc = nib.
Proof.
  intros Hshort. unfold resolves, strncmp_eq.
  rewrite andb_true_iff, Z.eqb_eq, bytes_eqb_eq.
  rewrite (firstn_all2 (cstr (moduleName sysc))) by (rewrite cstr_length; lia).
  split; intros (Hname & Hnid); (split; [| exact Hnid]).
  - rewrite Hname. apply firstn_all2.
    apply (f_equal (@length ascii)) in Hname.
    rewrite length_firstn, !cstr_length in Hname. rewrite cstr_length. lia.
  - rewrite Hname. symmetry. apply firstn_all2.
    rewrite <- Hname, cstr_length. lia.
Qed.

(** C7.  [ResolveSyscall] goes through the pending list in order and, for
    each entry whose module name (compared over 32 bytes, which for a
    stored name is equality) and function ID match, logs the resolution
    and writes [MIPS_MAKE_J] of the target address at the entry's address
    and the no-op four bytes further.  It does nothing else: the pending
    list stays as it was, the matched entries included. *)
Theorem ResolveSyscall_patches (modName : bytes) (nib address : Z) (s : HLE) :
  exists s',
    ResolveSyscall modName nib address s = Ok tt s' /\
    s' = with_events s
           (flat_map (patch_events modName nib address)
                     (filter (resolves modName nib) (unresolvedSyscalls s))) /\
    filter is_write (skipn (length (events s)) (events s'))
      = flat_map (fun sysc => [EvWriteU32 (MIPS_MAKE_J address) (symAddr sysc);
                               EvWriteU32 MIPS_MAKE_NOP (to_u32 (symAddr sysc + 4))])
                 (filter (resolves modName nib) (unresolvedSyscalls s)) /\
    unresolvedSyscalls s' = unresolvedSyscalls s /\
    (forall sysc, (strlen (moduleName sysc) < 32)%nat ->
       resolves modName nib sysc = true <->
       cstr (moduleName sysc) = cstr modName /\ nid sysc = nib).
Proof.
  eexists. split; [| split; [reflexivity | split; [| split; [reflexivity |]]]].
  - unfold ResolveSyscall, bind, gets. apply ResolveSyscall_loop_run.
  - unfold with_events. fields.
    rewrite skipn_app, Nat.sub_diag, skipn_all. cbn [app skipn].
    induction (filter (resolves modName nib) (unresolvedSyscalls s)) as [| sysc l IH];
      [reflexivity |].
    cbn [flat_map patch_events app filter is_write]. rewrite IH. reflexivity.
  - intros sysc. apply resolves_iff.
Qed.

(** ** More on the registry *)

Lemma strcmp_eq_refl (a : bytes) : strcmp_eq a a = true.
Proof. unfold strcmp_eq. apply bytes_eqb_eq. reflexivity. Qed.

Lemma GetModuleIndex_loop_spec (db : list HLEModule) (modName : bytes) (i : Z) :
  0 <= i ->
  (GetModuleIndex_loop db modName i = -1 /\
   forall m, In m db -> strcmp_eq modName (name m) = false) \/
  (i <= GetModuleIndex_loop db modName i < i + Z.of_nat (length db) /\
   exists m,
     nth_error db (Z.to_nat (GetModuleIndex_loop db modName i - i)) = Some m /\
     strcmp_eq modName (name m) = true /\
     forall j m', (j < Z.to_nat (GetModuleIndex_loop db modName i - i))%nat ->
                  nth_error db j = Some m' -> strcmp_eq modName (name m') = false).
Proof.
  platform_free.
  revert i. induction db as [| m0 rest IH]; intros i Hi; cbn [GetModuleIndex_loop].
  - left. split; [reflexivity | intros m []].
  - destruct (strcmp_eq modName (name m0)) eqn:Hcmp.
    + right. cbn [length]. split; [lia |]. exists m0. rewrite Z.sub_diag.
      repeat split; auto. intros j m' Hj. cbn in Hj. lia.
    + destruct (IH (i + 1) ltac:(lia)) as [(Hr & Hnone) | (Hr & m & Hnth & Hm & Hfirst)].
      * left. split; [exact Hr |]. intros m [<- | Hin]; auto.
      * right. cbn [length]. split; [lia |]. exists m.
        replace (Z.to_nat (GetModuleIndex_loop rest modName (i + 1) - i))
          with (S (Z.to_nat (GetModuleIndex_loop rest modName (i + 1) - (i + 1))))
          by lia.
        repeat split; auto.
        intros [| j] m' Hj Hj'; cbn [nth_error] in Hj'.
        -- injection Hj' as <-. exact Hcmp.
        -- apply (Hfirst j m'); [lia | exact Hj'].
Qed.

(** X1.  [GetModuleIndex] returns -1 exactly when no registered module has
    the name; otherwise it returns the index of the first module with the
    name, which is inside the registry. *)
Theorem GetModuleIndex_first_match (modName : bytes) (s : HLE) :
  exists r,
    GetModuleIndex modName s = Ok r s /\
    ((r = -1 /\ forall m, In m (moduleDB s) -> strcmp_eq modName (name m) = false) \/
     (0 <= r < Z.of_nat (length (moduleDB s)) /\
      exists m,
        nth_error (moduleDB s) (Z.to_nat r) = Some m /\
        strcmp_eq modName (name m) = true /\
        forall j m', (j < Z.to_nat r)%nat -> nth_error (moduleDB s) j = Some m' ->
                     strcmp_eq modName (name m') = false)).
Proof.
  exists (GetModuleIndex_loop (moduleDB s) modName 0).
  split; [apply GetModuleIndex_eq |].
  destruct (GetModuleIndex_loop_spec (moduleDB s) modName 0 (Z.le_refl 0)) as [H | H].
  - left. exact H.
  - right. rewrite Z.sub_0_r in H. exact H.
Qed.

Lemma GetModuleIndex_loop_app (db : list HLEModule) (new : HLEModule)
    (q : bytes) (i : Z) :
  0 <= i ->
  GetModuleIndex_loop (db ++ [new]) q i
  = if GetModuleIndex_loop db q i =? -1
    then if strcmp_eq q (name new) then i + Z.of_nat (length db) else -1
    else GetModuleIndex_loop db q i.
Proof.
  platform_free.
  revert i. induction db as [| m0 rest IH]; intros i Hi; cbn [GetModuleIndex_loop app].
  - cbn [Z.eqb length Z.of_nat]. rewrite Z.add_0_r. reflexivity.
  - destruct (strcmp_eq q (name m0)).
    + destruct (Z.eqb_spec i (-1)); [lia | reflexivity].
    + rewrite IH by lia. cbn [length].
      replace (i + 1 + Z.of_nat (length rest)) with (i + Z.of_nat (S (length rest))) by lia.
      reflexivity.
Qed.

(** X2.  After [RegisterModule], the name registered is found: at the end
    of the registry when it was not registered before, at its earlier
    index when it was (the new module is then unreachable by name).  The
    index of every name found before is unchanged, and a name not found
    before that differs from the new one is still not found. *)
Theorem RegisterModule_lookup (modName : bytes) (numFuncs : Z)
    (tbl : list HLEFunction) (s : HLE) :
  exists s',
    RegisterModule modName numFuncs tbl s = Ok tt s' /\
    moduleDB s' = moduleDB s ++ [mkHLEModule modName numFuncs tbl] /\
    (exists r, GetModuleIndex modName s' = Ok r s' /\ r <> -1 /\
       (GetModuleIndex_loop (moduleDB s) modName 0 = -1 ->
        r = Z.of_nat (length (moduleDB s))) /\
       (GetModuleIndex_loop (moduleDB s) modName 0 <> -1 ->
        r = GetModuleIndex_loop (moduleDB s) modName 0)) /\
    (forall q, GetModuleIndex_loop (moduleDB s) q 0 <> -1 ->
       GetModuleIndex q s' = Ok (GetModuleIndex_loop (moduleDB s) q 0) s') /\
    (forall q, GetModuleIndex_loop (moduleDB s) q 0 = -1 ->
       strcmp_eq q modName = false -> GetModuleIndex q s' = Ok (-1) s').
Proof.
  platform_free.
  eexists. split; [reflexivity |]. fields. split; [reflexivity |].
  assert (Hlook : forall q,
    GetModuleIndex_loop (moduleDB s ++ [mkHLEModule modName numFuncs tbl]) q 0
    = if GetModuleIndex_loop (moduleDB s) q 0 =? -1
      then if strcmp_eq q modName then Z.of_nat (length (moduleDB s)) else -1
      else GetModuleIndex_loop (moduleDB s) q 0).
  { intros q. rewrite GetModuleIndex_loop_app by lia. reflexivity. }
  split; [| split].
  - eexists. split; [apply GetModuleIndex_eq |]. fields. rewrite Hlook, strcmp_eq_refl.
    destruct (Z.eqb_spec (GetModuleIndex_loop (moduleDB s) modName 0) (-1)) as [He | Hne].
    + repeat split; intros; try contradiction; try reflexivity; lia.
    + repeat split; intros; try contradiction; try reflexivity; assumption.
  - intros q Hq. rewrite GetModuleIndex_eq. fields. rewrite Hlook.
    destruct (Z.eqb_spec (GetModuleIndex_loop (moduleDB s) q 0) (-1)); [contradiction |].
    reflexivity.
  - intros q Hq Hne. rewrite GetModuleIndex_eq. fields. rewrite Hlook, Hq, Hne.
    reflexivity.
Qed.

Lemma GetFuncIndex_loop_spec (tbl : list HLEFunction) (nib : Z) (todo : nat)
    (i : Z) (s : HLE) :
  0 <= i -> (Z.to_nat i + todo <= length tbl)%nat ->
  exists r,
    GetFuncIndex_loop tbl nib todo i s = Ok r s /\
    ((r = -1 /\
      forall j f, (Z.to_nat i <= j < Z.to_nat i + todo)%nat ->
                  nth_error tbl j = Some f -> ID f <> nib) \/
     (i <= r < i + Z.of_nat todo /\
      exists f, nth_error tbl (Z.to_nat r) = Some f /\ ID f = nib /\
        forall j g, (Z.to_nat i <= j < Z.to_nat r)%nat ->
                    nth_error tbl j = Some g -> ID g <> nib)).
Proof.
  platform_free.
  revert i. induction todo as [| todo IH]; intros i Hi Hlen; cbn [GetFuncIndex_loop].
  - exists (-1). split; [reflexivity |]. left. split; [reflexivity |]. intros j f Hj. lia.
  - destruct (nth_error tbl (Z.to_nat i)) as [f |] eqn:Hnth;
      [| apply nth_error_None in Hnth; lia].
    unfold bind. rewrite (at_index_ok _ _ _ s Hi Hnth).
    destruct (Z.eqb_spec (ID f) nib) as [Heq | Hne].
    + exists i. split; [reflexivity |]. right. split; [lia |].
      exists f. repeat split; auto. intros j g Hj. lia.
    + destruct (IH (i + 1) ltac:(lia) ltac:(lia))
        as (r & Hrun & [(Hr & Hnone) | (Hr & g & Hg & Hid & Hfirst)]).
      * exists r. split; [exact Hrun |]. left. split; [exact Hr |].
        intros j h Hj Hh. destruct (Nat.eq_dec j (Z.to_nat i)) as [-> | Hji].
        -- rewrite Hnth in Hh. injection Hh as <-. exact Hne.
        -- apply (Hnone j h); [lia | exact Hh].
      * exists r. split; [exact Hrun |]. right. split; [lia |].
        exists g. repeat split; auto.
        intros j h Hj Hh. destruct (Nat.eq_dec j (Z.to_nat i)) as [-> | Hji].
        -- rewrite Hnth in Hh. injection Hh as <-. exact Hne.
        -- apply (Hfirst j h); [lia | exact Hh].
Qed.

(** X4.  In a module whose table is as long as it declares,
    [GetFuncIndex] returns -1 exactly when none of the declared functions
    has the ID, and otherwise the index of the first declared function
    with the ID. *)
Theorem GetFuncIndex_first_match (m nib : Z) (module : HLEModule) (s : HLE) :
  0 <= m ->
  nth_error (moduleDB s) (Z.to_nat m) = Some module ->
  (Z.to_nat (numFunctions module) <= length (funcTable module))%nat ->
  exists r,
    GetFuncIndex m nib s = Ok r s /\
    ((r = -1 /\
      forall j f, (j < Z.to_nat (numFunctions module))%nat ->
                  nth_error (funcTable module) j = Some f -> ID f <> nib) \/
     (0 <= r < numFunctions module /\
      exists f, nth_error (funcTable module) (Z.to_nat r) = Some f /\ ID f = nib /\
        forall j g, (j < Z.to_nat r)%nat ->
                    nth_error (funcTable module) j = Some g -> ID g <> nib)).
Proof.
  platform_free.
  intros Hm Hmod Hwf.
  destruct (GetFuncIndex_loop_spec (funcTable module) nib
              (Z.to_nat (numFunctions module)) 0 s (Z.le_refl 0) ltac:(cbn; lia))
    as (r & Hrun & Hr).
  exists r. split.
  - unfold GetFuncIndex, bind, gets. rewrite (at_index_ok _ _ _ s Hm Hmod). exact Hrun.
  - destruct Hr as [(Hr & Hnone) | (Hr & f & Hf & Hid & Hfirst)].
    + left. split; [exact Hr |]. intros j f Hj. apply Hnone. cbn. lia.
    + right. split; [lia |]. exists f. repeat split; auto.
      intros j g Hj. apply Hfirst. cbn. lia.
Qed.

Lemma at_index_fault {A} (v : list A) (i : Z) (s : HLE) :
  i < 0 \/ Z.of_nat (length v) <= i -> at_index v i s = @Fault A.
Proof.
  platform_free.
  intros Hi. unfold at_index. destruct (Z.ltb_spec i 0); [reflexivity |].
  destruct (nth_error v (Z.to_nat i)) eqn:Hnth; [| reflexivity].
  assert (Hlt : (Z.to_nat i < length v)%nat) by (apply nth_error_Some; congruence).
  lia.
Qed.

Lemma GetFunc_run (modName : bytes) (nib r : Z) (s s2 : HLE) :
  GetModuleIndex_loop (moduleDB s) modName 0 <> -1 ->
  GetFuncIndex (GetModuleIndex_loop (moduleDB s) modName 0) nib s = Ok r s2 ->
  GetFunc modName nib s
  = Ok (if r =? -1 then None
        else slot (moduleDB s) (GetModuleIndex_loop (moduleDB s) modName 0) r) s.
Proof.
  intros Hreg Hidx.
  destruct (GetFuncIndex_pure _ _ _ _ _ Hidx) as (-> & _).
  unfold GetFunc. unfold bind at 1. rewrite GetModuleIndex_eq.
  destruct (Z.eqb_spec (GetModuleIndex_loop (moduleDB s) modName 0) (-1));
    [contradiction |].
  cbn [negb]. unfold bind at 1. rewrite Hidx.
  destruct (Z.eqb_spec r (-1)) as [| Hr]; [reflexivity |]. cbn [negb].
  destruct (GetFuncIndex_found _ _ _ _ _ Hidx Hr) as (Hr0 & f & Hslot & _).
  rewrite Hslot.
  destruct (slot_inv _ _ _ _ Hslot) as (Hm & _ & module & Hmod & Hfn).
  unfold bind, gets. rewrite (at_index_ok _ _ _ s Hm Hmod), (at_index_ok _ _ _ s Hr0 Hfn).
  reflexivity.
Qed.

(** X5.  [GetFuncIndex] indexes the registry without a check: a module
    index that is negative or not below the size of the registry is an
    access outside it.  [GetNibByName] passes on the -1 that
    [GetModuleIndex] returns for a name that is not registered, so for
    such a name it indexes the registry at -1; [GetFunc] and
    [GetSyscallOp] test for -1 first and return the null pointer and the
    invalid opcode. *)
Theorem lookups_outside_registry (moduleIndex nib : Z) (modName function : bytes)
    (s : HLE) :
  (moduleIndex < 0 \/ Z.of_nat (length (moduleDB s)) <= moduleIndex ->
   GetFuncIndex moduleIndex nib s = Fault) /\
  (GetModuleIndex_loop (moduleDB s) modName 0 = -1 ->
   GetNibByName modName function s = Fault /\
   GetFunc modName nib s = Ok None s /\
   exists s', GetSyscallOp modName nib s = Ok 0x0003FFCC s').
Proof.
  split.
  - intros Hout. unfold GetFuncIndex, bind, gets.
    rewrite (at_index_fault _ _ s Hout). reflexivity.
  - intros Hunk. repeat split.
    + unfold GetNibByName. unfold bind at 1. rewrite GetModuleIndex_eq, Hunk.
      unfold bind, gets. rewrite at_index_fault by (left; reflexivity). reflexivity.
    + unfold GetFunc, bind. rewrite GetModuleIndex_eq, Hunk. reflexivity.
    + unfold GetSyscallOp. unfold bind at 1. rewrite GetModuleIndex_eq, Hunk.
      cbn [Z.eqb negb]. eexists. reflexivity.
Qed.

Lemma GetNibByName_loop_spec (tbl : list HLEFunction) (function : bytes)
    (todo : nat) (i : Z) (s : HLE) :
  0 <= i -> (Z.to_nat i + todo <= length tbl)%nat ->
  exists r,
    GetNibByName_loop tbl function todo i s = Ok r s /\
    ((r = 0xFFFFFFFF /\
      forall j f, (Z.to_nat i <= j < Z.to_nat i + todo)%nat ->
                  nth_error tbl j = Some f -> strcmp_eq (fname f) function = false) \/
     (exists k f, (Z.to_nat i <= k < Z.to_nat i + todo)%nat /\
        nth_error tbl k = Some f /\ strcmp_eq (fname f) function = true /\
        r = ID f /\
        forall j g, (Z.to_nat i <= j < k)%nat ->
                    nth_error tbl j = Some g -> strcmp_eq (fname g) function = false)).
Proof.
  platform_free.
  revert i. induction todo as [| todo IH]; intros i Hi Hlen; cbn [GetNibByName_loop].
  - exists 0xFFFFFFFF. split; [reflexivity |]. left. split; [reflexivity |].
    intros j f Hj. lia.
  - destruct (nth_error tbl (Z.to_nat i)) as [f |] eqn:Hnth;
      [| apply nth_error_None in Hnth; lia].
    unfold bind. rewrite (at_index_ok _ _ _ s Hi Hnth).
    destruct (strcmp_eq (fname f) function) eqn:Hcmp.
    + exists (ID f). split; [reflexivity |]. right.
      exists (Z.to_nat i), f. repeat split; auto; try lia.
    + destruct (IH (i + 1) ltac:(lia) ltac:(lia))
        as (r & Hrun & [(Hr & Hnone) | (k & g & Hk & Hg & Hname & Hr & Hfirst)]).
      * exists r. split; [exact Hrun |]. left. split; [exact Hr |].
        intros j h Hj Hh. destruct (Nat.eq_dec j (Z.to_nat i)) as [-> | Hji].
        -- rewrite Hnth in Hh. injection Hh as <-. exact Hcmp.
        -- apply (Hnone j h); [lia | exact Hh].
      * exists r. split; [exact Hrun |]. right.
        exists k, g. repeat split; auto; try lia.
        intros j h Hj Hh. destruct (Nat.eq_dec j (Z.to_nat i)) as [-> | Hji].
        -- rewrite Hnth in Hh. injection Hh as <-. exact Hcmp.
        -- apply (Hfirst j h); [lia | exact Hh].
Qed.

(** X6.  For a registered module whose table is as long as it declares,
    [GetNibByName] returns the ID of the first declared function with the
    name, and [0xFFFFFFFF], the [u32] of -1, when no declared function has
    it.  In the first case [GetFunc] of the module and the returned ID
    finds a function with that ID. *)
Theorem GetNibByName_then_GetFunc (modName function : bytes) (module : HLEModule)
    (s : HLE) :
  GetModuleIndex_loop (moduleDB s) modName 0 <> -1 ->
  nth_error (moduleDB s) (Z.to_nat (GetModuleIndex_loop (moduleDB s) modName 0))
    = Some module ->
  (Z.to_nat (numFunctions module) <= length (funcTable module))%nat ->
  exists nib,
    GetNibByName modName function s = Ok nib s /\
    ((nib = 0xFFFFFFFF /\
      forall j f, (j < Z.to_nat (numFunctions module))%nat ->
                  nth_error (funcTable module) j = Some f ->
                  strcmp_eq (fname f) function = false) \/
     (exists k f, (k < Z.to_nat (numFunctions module))%nat /\
        nth_error (funcTable module) k = Some f /\
        strcmp_eq (fname f) function = true /\
        nib = ID f /\
        (forall j g, (j < k)%nat -> nth_error (funcTable module) j = Some g ->
                     strcmp_eq (fname g) function = false) /\
        exists g, GetFunc modName nib s = Ok (Some g) s /\ ID g = nib)).
Proof.
  platform_free.
  intros Hreg Hmod Hwf.
  set (m := GetModuleIndex_loop (moduleDB s) modName 0) in *.
  destruct (GetModuleIndex_loop_found _ _ 0 (Z.le_refl 0) Hreg) as (_ & Hm & _).
  fold m in Hm.
  destruct (GetNibByName_loop_spec (funcTable module) function
              (Z.to_nat (numFunctions module)) 0 s (Z.le_refl 0) ltac:(cbn; lia))
    as (nib & Hrun & Hres).
  exists nib. split.
  { unfold GetNibByName. unfold bind at 1. rewrite GetModuleIndex_eq. fold m.
    unfold bind, gets. rewrite (at_index_ok _ _ _ s (proj1 Hm) Hmod). exact Hrun. }
  destruct Hres as [(Hr & Hnone) | (k & f & Hk & Hf & Hname & Hr & Hfirst)].
  - left. split; [exact Hr |]. intros j f Hj. apply Hnone. cbn. lia.
  - right. exists k, f. cbn in Hk.
    split; [lia |]. split; [exact Hf |]. split; [exact Hname |]. split; [exact Hr |].
    split; [intros j g Hj; apply Hfirst; cbn; lia |].
    destruct (GetFuncIndex_loop_spec (funcTable module) nib
                (Z.to_nat (numFunctions module)) 0 s (Z.le_refl 0) ltac:(cbn; lia))
      as (r & Hloop & Hcase).
    assert (Hidx : GetFuncIndex m nib s = Ok r s).
    { unfold GetFuncIndex, bind, gets. rewrite (at_index_ok _ _ _ s (proj1 Hm) Hmod).
      exact Hloop. }
    destruct Hcase as [(_ & Hno) | (Hr0 & g & Hg & Hid & _)].
    + exfalso. apply (Hno k f); [cbn; lia | exact Hf | congruence].
    + exists g. split; [| exact Hid]. subst m.
      rewrite (GetFunc_run _ _ _ _ _ Hreg Hidx).
      destruct (Z.eqb_spec r (-1)); [lia |].
      rewrite (slot_intro _ _ _ module (proj1 Hm) (proj1 Hr0) Hmod). rewrite Hg.
      reflexivity.
Qed.

(** The fields of the opcode of a function that is found. *)
Lemma GetSyscallOp_valid_fields (modName : bytes) (nib m f : Z) (s s2 : HLE) :
  GetModuleIndex_loop (moduleDB s) modName 0 = m ->
  m <> -1 ->
  GetFuncIndex m nib s = Ok f s2 ->
  f <> -1 -> f < 4096 ->
  exists op,
    GetSyscallOp modName nib s = Ok op s /\
    funcnum op = f /\
    modulenum op = m mod 256 /\
    Z.land op 0x3F = 0x0c.
Proof.
  intros Hm Hreg Hidx Hf Hf4096.
  destruct (GetModuleIndex_loop_found (moduleDB s) modName 0 (Z.le_refl 0))
    as (_ & Hm0 & _); [rewrite Hm; exact Hreg |].
  rewrite Hm in Hm0.
  destruct (GetFuncIndex_found _ _ _ _ _ Hidx Hf) as (Hf0 & _).
  exists (to_u32 (Z.lor (Z.lor 0x0000000c (Z.shiftl m 18)) (Z.shiftl f 6))).
  split.
  { rewrite (GetSyscallOp_registered _ _ _ _ _ _ Hm Hreg Hidx).
    destruct (Z.eqb_spec f (-1)); [contradiction |]. reflexivity. }
  rewrite encode_value by lia.
  rewrite modulenum_div_mod, funcnum_div_mod, land_low6. unfold to_u32.
  change (2 ^ 18) with 262144. change (2 ^ 6) with 64.
  change (2 ^ 12) with 4096. change (2 ^ 8) with 256. change (2 ^ 32) with 4294967296.
  repeat split; div_mod_lia.
Qed.

(** X7.  For a module registered below index 256 and a function found
    below index 4095, the opcode of [GetSyscallOp] is not one
    [CallSyscall] refuses, and the table entry [CallSyscall] decodes from
    it is the function [GetFunc] returns, whose ID is the one asked for.
    When that function has a host implementation, the dispatch of the
    opcode invokes it first of all. *)
Theorem GetSyscallOp_dispatches_GetFunc (modName : bytes) (nib m f : Z) (s s2 : HLE) :
  GetModuleIndex_loop (moduleDB s) modName 0 = m ->
  m <> -1 -> m < 256 ->
  GetFuncIndex m nib s = Ok f s2 ->
  f <> -1 -> f < 4095 ->
  length (hleAfterSyscallReschedReason s) = REASON_SIZE ->
  exists op fn,
    GetSyscallOp modName nib s = Ok op s /\
    GetFunc modName nib s = Ok (Some fn) s /\
    ID fn = nib /\
    is_sentinel op = false /\
    slot (moduleDB s) (modulenum op) (funcnum op) = Some fn /\
    (forall body, func fn = Some body ->
       exists s' rest,
         CallSyscall op s = Ok tt s' /\
         events s' = events s ++ EvInvoke m f :: rest /\
         count is_invoke rest = O).
Proof.
  intros Hm Hreg Hm256 Hidx Hf Hf4095 Hlen.
  destruct (GetSyscallOp_valid_fields modName nib m f s s2 Hm Hreg Hidx Hf ltac:(lia))
    as (op & Hop & Hfn & Hmn & Htag).
  assert (Hm0 : 0 <= m).
  { destruct (GetModuleIndex_loop_found (moduleDB s) modName 0 (Z.le_refl 0))
      as (_ & Hr & _); [rewrite Hm; exact Hreg |]. rewrite Hm in Hr. lia. }
  rewrite Z.mod_small in Hmn by lia.
  destruct (GetFuncIndex_found _ _ _ _ _ Hidx Hf) as (Hf0 & fn & Hslot & Hid).
  exists op, fn.
  assert (Hsent : is_sentinel op = false).
  { unfold is_sentinel. rewrite Hfn.
    destruct (Z.eqb_spec f 0xfff); [lia |]. cbn [orb].
    apply Z.eqb_neq. intros ->. discriminate Htag. }
  split; [exact Hop |]. split.
  { subst m. rewrite (GetFunc_run _ _ _ _ _ Hreg Hidx).
    destruct (Z.eqb_spec f (-1)); [contradiction |]. rewrite Hslot. reflexivity. }
  split; [exact Hid |]. split; [exact Hsent |].
  rewrite Hmn, Hfn. split; [exact Hslot |].
  intros body Hbody.
  rewrite <- Hmn, <- Hfn in Hslot.
  destruct (CallSyscall_invoke_run op fn body s Hsent Hslot Hbody Hlen)
    as (mask1 & buf1 & evs & _ & Hevs & _ & _ & Hcall).
  rewrite Hmn, Hfn in Hcall.
  assert (Hnone : forall l, forallb is_dbg_assert l = true -> filter is_invoke l = []).
  { intros l Hl. apply filter_all_false.
    apply (forallb_implies_false is_dbg_assert is_invoke l Hl).
    intros []; reflexivity || discriminate. }
  assert (Hk : forall k r, filter is_invoke (kernel_calls k r) = []).
  { intros k r. apply filter_all_false.
    apply (forallb_implies_false is_kernel is_invoke _ (kernel_calls_kernel k r)).
    intros []; reflexivity || discriminate. }
  assert (Hd : forall k, filter is_invoke (debugger_calls k fn) = []).
  { intros k. apply filter_all_false.
    apply (forallb_implies_false is_debugger is_invoke _ (debugger_calls_debugger k fn)).
    intros []; reflexivity || discriminate. }
  destruct (mask1 =? HLE_AFTER_NOTHING).
  - eexists _, evs. split; [exact Hcall |]. split; [reflexivity |].
    unfold count. rewrite Hnone by exact Hevs. reflexivity.
  - eexists _, _. split; [exact Hcall |]. split; [reflexivity |].
    unfold count. rewrite !filter_app, Hnone, Hk, Hd by exact Hevs. reflexivity.
Qed.

(** X19.  For a name that is not registered [GetSyscallOp] logs one error
    and returns [0x0003FFCC], the opcode it returns for the module at
    index 0 and a function its table lacks: the opcode decodes to module 0
    and function [0xfff], and its dispatch names the first module of the
    registry in the error it logs. *)
Theorem GetSyscallOp_unknown_module (modName : bytes) (nib : Z) (s : HLE) :
  GetModuleIndex_loop (moduleDB s) modName 0 = -1 ->
  GetSyscallOp modName nib s
    = Ok 0x0003FFCC
        (with_events s [EvErrorLog "Unknown module %s!" [ArgStr (cstr modName)]]) /\
  0x0003FFCC = to_u32 (Z.lor 0x0003FFCC (Z.shiftl 0 18)) /\
  modulenum 0x0003FFCC = 0 /\
  funcnum 0x0003FFCC = 0xfff /\
  forall first t,
    nth_error (moduleDB t) 0 = Some first ->
    CallSyscall 0x0003FFCC t
    = Ok tt (with_events t
               [EvDbgAssert "Unknown syscall";
                EvErrorLog "Unknown syscall: Module: %s" [ArgStr (cstr (name first))]]).
Proof.
  intros Hunk. split; [| repeat split].
  - unfold GetSyscallOp. unfold bind at 1. rewrite GetModuleIndex_eq, Hunk.
    cbn [Z.eqb negb]. destruct s. reflexivity.
  - intros first t Hfirst. apply CallSyscall_sentinel_run; [reflexivity | exact Hfirst].
Qed.

(** X20.  The opcode holds eight bits of module index.  For a module
    registered at any index [m] and a function found below index 4096, the
    opcode of [GetSyscallOp] decodes to that function and to module
    [m mod 256]: from index 256 on, a module's opcodes are those of the
    module 256 places before it. *)
Theorem GetSyscallOp_module_wraps (modName : bytes) (nib m f : Z) (s s2 : HLE) :
  GetModuleIndex_loop (moduleDB s) modName 0 = m ->
  m <> -1 ->
  GetFuncIndex m nib s = Ok f s2 ->
  f <> -1 -> f < 4096 ->
  exists op,
    GetSyscallOp modName nib s = Ok op s /\
    funcnum op = f /\
    modulenum op = m mod 256 /\
    (256 <= m -> modulenum op <> m).
Proof.
  intros Hm Hreg Hidx Hf Hf4096.
  destruct (GetSyscallOp_valid_fields modName nib m f s s2 Hm Hreg Hidx Hf Hf4096)
    as (op & Hop & Hfn & Hmn & _).
  exists op. repeat split; auto.
  intros Hwide. rewrite Hmn. pose proof (Z.mod_pos_bound m 256 ltac:(lia)). lia.
Qed.

(** ** Function names *)

Lemma hex_digits_length (n : nat) (v : Z) : length (hex_digits n v) = n.
Proof.
  platform_free.
  revert v. induction n as [| n IH]; intros v; cbn [hex_digits]; [reflexivity |].
  rewrite length_app, IH. cbn [length]. lia.
Qed.

Lemma hex_digit_spec (d : Z) :
  0 <= d < 16 -> hex_value_digit (hex_digit d) = d /\ hex_digit d <> NUL.
Proof.
  platform_free.
  intros Hd.
  assert (Hcases : d = 0 \/ d = 1 \/ d = 2 \/ d = 3 \/ d = 4 \/ d = 5 \/ d = 6 \/ d = 7 \/
                   d = 8 \/ d = 9 \/ d = 10 \/ d = 11 \/ d = 12 \/ d = 13 \/ d = 14 \/
                   d = 15) by lia.
  repeat (destruct Hcases as [-> | Hcases]; [split; [reflexivity | discriminate] |]).
  subst d. split; [reflexivity | discriminate].
Qed.

Lemma hex_digits_no_nul (n : nat) (v : Z) : ~ In NUL (hex_digits n v).
Proof.
  platform_free.
  revert v. induction n as [| n IH]; intros v; cbn [hex_digits]; [intros [] |].
  intros Hin. apply in_app_or in Hin. destruct Hin as [Hin | [Heq | []]].
  - exact (IH _ Hin).
  - apply (proj2 (hex_digit_spec (v mod 16) (Z.mod_pos_bound v 16 ltac:(lia)))).
    exact Heq.
Qed.

Lemma hex_value_snoc (l : bytes) (c : ascii) :
  hex_value (l ++ [c]) = hex_value l * 16 + hex_value_digit c.
Proof. unfold hex_value. rewrite fold_left_app. reflexivity. Qed.

Lemma hex_value_digits (n : nat) (v : Z) :
  hex_value (hex_digits n v) = v mod 16 ^ Z.of_nat n.
Proof.
  platform_free.
  revert v. induction n as [| n IH]; intros v; cbn [hex_digits].
  - cbn. rewrite Z.mod_1_r. reflexivity.
  - rewrite hex_value_snoc, IH.
    rewrite (proj1 (hex_digit_spec (v mod 16) (Z.mod_pos_bound v 16 ltac:(lia)))).
    rewrite Nat2Z.inj_succ, Z.pow_succ_r by lia.
    rewrite Z.rem_mul_r by (try lia; apply Z.pow_pos_nonneg; lia).
    lia.
Qed.

Lemma sprintf_UNK_run (temp : bytes) (nib : Z) :
  length temp = 256%nat ->
  exists buf,
    sprintf_UNK temp nib = Some buf /\
    length buf = 256%nat /\
    cstr buf = lit "[UNK: 0x" ++ hex_digits 8 nib ++ lit " ]".
Proof.
  platform_free.
  intros Hlen. unfold sprintf_UNK.
  assert (Hdata : length (lit "[UNK: 0x" ++ hex_digits 8 nib ++ lit " ]" ++ [NUL]) = 19%nat).
  { rewrite !length_app, hex_digits_length. reflexivity. }
  rewrite poke_ok by (rewrite Hdata, Hlen; lia).
  eexists. split; [reflexivity |]. split.
  - rewrite !length_app, length_skipn, Hlen, hex_digits_length. cbn [length firstn lit list_ascii_of_string]. lia.
  - cbn [firstn app].
    replace ((lit "[UNK: 0x" ++ hex_digits 8 nib ++ lit " ]" ++ [NUL]) ++
             skipn (0 + length (lit "[UNK: 0x" ++ hex_digits 8 nib ++ lit " ]" ++ [NUL])) temp)
      with ((lit "[UNK: 0x" ++ hex_digits 8 nib ++ lit " ]") ++
            NUL :: skipn (0 + length (lit "[UNK: 0x" ++ hex_digits 8 nib ++ lit " ]" ++ [NUL])) temp)
      by (rewrite <- !app_assoc; reflexivity).
    apply cstr_app_nul.
    intros Hin. apply in_app_or in Hin. destruct Hin as [Hin | Hin].
    + cbn in Hin. intuition discriminate.
    + apply in_app_or in Hin. destruct Hin as [Hin | Hin].
      * exact (hex_digits_no_nul _ _ Hin).
      * cbn in Hin. intuition discriminate.
Qed.

(** X8.  [GetFuncName] by module name returns the name of the function
    [GetFunc] finds.  When [GetFunc] finds none it returns its static
    buffer of 256 bytes, holding the 18 characters "[UNK: 0x", the ID as
    eight hexadecimal digits, and " ]": the write stays inside the buffer
    whatever it held, and the digits determine the ID, so two IDs never
    share a placeholder. *)
Theorem GetFuncName_placeholder (modName : bytes) (nib : Z) (s : HLE) :
  0 <= nib < 2 ^ 32 ->
  (forall fn, GetFunc modName nib s = Ok (Some fn) s ->
     GetFuncName modName nib s = Ok (fname fn) s) /\
  (GetFunc modName nib s = Ok None s ->
     exists buf,
       GetFuncName modName nib s = Ok buf s /\
       length buf = 256%nat /\
       cstr buf = lit "[UNK: 0x" ++ hex_digits 8 nib ++ lit " ]" /\
       length (cstr buf) = 18%nat) /\
  (forall temp, length temp = 256%nat ->
     exists buf,
       sprintf_UNK temp nib = Some buf /\
       length buf = 256%nat /\
       cstr buf = lit "[UNK: 0x" ++ hex_digits 8 nib ++ lit " ]") /\
  hex_value (hex_digits 8 nib) = nib /\
  (forall nib', 0 <= nib' < 2 ^ 32 -> hex_digits 8 nib' = hex_digits 8 nib -> nib' = nib).
Proof.
  platform_free.
  intros Hnib.
  assert (Hval : forall v, 0 <= v < 2 ^ 32 -> hex_value (hex_digits 8 v) = v).
  { intros v Hv. rewrite hex_value_digits. apply Z.mod_small.
    change (16 ^ Z.of_nat 8) with (2 ^ 32). exact Hv. }
  split; [| split; [| split; [| split]]].
  - intros fn Hfn. unfold GetFuncName, bind. rewrite Hfn. reflexivity.
  - intros Hnone.
    destruct (sprintf_UNK_run GetFuncName_temp nib) as (buf & Hbuf & Hlen & Hstr);
      [apply repeat_length |].
    exists buf. unfold GetFuncName, bind. rewrite Hnone, Hbuf.
    repeat split; auto.
    rewrite Hstr, !length_app, hex_digits_length. reflexivity.
  - intros temp Htemp. apply sprintf_UNK_run, Htemp.
  - apply Hval, Hnib.
  - intros nib' Hnib' Heq.
    rewrite <- (Hval nib' Hnib'), <- (Hval nib Hnib), Heq. reflexivity.
Qed.

(** X9.  [GetFuncName] by indices returns "[unknown]" when the module
    index is negative or not below the size of the registry, and when the
    function index is negative or above the number of functions the
    module declares; for a function index below that number it returns
    the name of the table entry. *)
Theorem GetFuncName_index_bounds (moduleIndex fidx : Z) (s : HLE) :
  (moduleIndex < 0 \/ Z.of_nat (length (moduleDB s)) <= moduleIndex ->
   GetFuncName_index moduleIndex fidx s = Ok (lit "[unknown]") s) /\
  (forall module,
     0 <= moduleIndex ->
     nth_error (moduleDB s) (Z.to_nat moduleIndex) = Some module ->
     (fidx < 0 \/ numFunctions module < fidx ->
      GetFuncName_index moduleIndex fidx s = Ok (lit "[unknown]") s) /\
     (forall f, 0 <= fidx < numFunctions module ->
        nth_error (funcTable module) (Z.to_nat fidx) = Some f ->
        GetFuncName_index moduleIndex fidx s = Ok (fname f) s)).
Proof.
  platform_free.
  split.
  - intros Hout. unfold GetFuncName_index, bind, gets.
    destruct (Z.leb_spec 0 moduleIndex); [| reflexivity].
    destruct (Z.ltb_spec moduleIndex (Z.of_nat (length (moduleDB s)))); [lia | reflexivity].
  - intros module Hm Hmod.
    assert (Hin : (Z.to_nat moduleIndex < length (moduleDB s))%nat)
      by (apply nth_error_Some; congruence).
    assert (Hguard : (0 <=? moduleIndex) && (moduleIndex <? Z.of_nat (length (moduleDB s))) = true).
    { apply andb_true_iff. split; [apply Z.leb_le | apply Z.ltb_lt]; lia. }
    split.
    + intros Hout. unfold GetFuncName_index, bind, gets. rewrite Hguard.
      rewrite (at_index_ok _ _ _ s Hm Hmod).
      destruct (Z.leb_spec 0 fidx); [| reflexivity].
      destruct (Z.leb_spec fidx (numFunctions module)); [lia | reflexivity].
    + intros f Hf Hnth. unfold GetFuncName_index, bind, gets. rewrite Hguard.
      rewrite (at_index_ok _ _ _ s Hm Hmod).
      destruct (Z.leb_spec 0 fidx); [| lia].
      destruct (Z.leb_spec fidx (numFunctions module)); [| lia]. cbn [andb].
      rewrite (at_index_ok _ _ _ s (proj1 Hf) Hnth). reflexivity.
Qed.

(** X10.  The test of [GetFuncName] by indices accepts a function index
    equal to the number of functions.  In a module whose table holds
    exactly the functions it declares, that index is one past the last
    entry, and the read is outside the table. *)
Theorem GetFuncName_index_one_past (moduleIndex : Z) (module : HLEModule) (s : HLE) :
  0 <= moduleIndex ->
  nth_error (moduleDB s) (Z.to_nat moduleIndex) = Some module ->
  0 <= numFunctions module ->
  Z.of_nat (length (funcTable module)) = numFunctions module ->
  GetFuncName_index moduleIndex (numFunctions module) s = Fault.
Proof.
  platform_free.
  intros Hm Hmod Hn Hlen.
  assert (Hin : (Z.to_nat moduleIndex < length (moduleDB s))%nat)
    by (apply nth_error_Some; congruence).
  unfold GetFuncName_index, bind, gets.
  destruct (Z.leb_spec 0 moduleIndex); [| lia].
  destruct (Z.ltb_spec moduleIndex (Z.of_nat (length (moduleDB s)))); [| lia]. cbn [andb].
  rewrite (at_index_ok _ _ _ s Hm Hmod).
  destruct (Z.leb_spec 0 (numFunctions module)); [| lia].
  destruct (Z.leb_spec (numFunctions module) (numFunctions module)); [| lia]. cbn [andb].
  rewrite at_index_fault by (right; lia). reflexivity.
Qed.

(** ** More on requests and dispatches *)

Lemma stored_reason_long (r : bytes) :
  (REASON_SIZE <= strlen r)%nat ->
  firstn (REASON_SIZE - 1) r = stored_reason (Some r).
Proof.
  platform_free.
  intros Hlong. unfold stored_reason. symmetry. apply firstn_cstr.
  rewrite REASON_SIZE_eq in *. lia.
Qed.

Lemma stored_reason_short (r : bytes) :
  (strlen r < REASON_SIZE)%nat -> cstr r = stored_reason (Some r).
Proof.
  platform_free.
  intros Hshort. unfold stored_reason. symmetry. apply firstn_all2.
  rewrite cstr_length, REASON_SIZE_eq in *. lia.
Qed.

Lemma hleReSchedule_effect (reason : option bytes) (s : HLE) :
  length (hleAfterSyscallReschedReason s) = REASON_SIZE ->
  exists buf' evs,
    hleReSchedule reason s
    = Ok tt (mkHLE (moduleDB s) (unresolvedSyscalls s)
               (Z.lor (hleAfterSyscall s) HLE_AFTER_RESCHED) buf' (events s ++ evs)) /\
    length buf' = REASON_SIZE /\
    forallb is_dbg_assert evs = true /\
    cstr buf' = stored_reason reason.
Proof.
  intros Hlen.
  destruct (hleReSchedule_run reason s Hlen) as (buf' & evs & Hrun & Hlen' & Hevs & Hbuf).
  exists buf', evs. repeat split; auto.
  destruct reason as [r |]; [| exact Hbuf].
  destruct (Nat.leb_spec REASON_SIZE (strlen r)) as [Hlong | Hshort].
  - rewrite (proj1 Hbuf). apply stored_reason_long, Hlong.
  - rewrite Hbuf. apply stored_reason_short, Hshort.
Qed.

Lemma request_effect (r : Request) (s : HLE) :
  length (hleAfterSyscallReschedReason s) = REASON_SIZE ->
  exists buf' evs,
    request r s
    = Ok tt (mkHLE (moduleDB s) (unresolvedSyscalls s)
               (Z.lor (hleAfterSyscall s) (request_flags r)) buf' (events s ++ evs)) /\
    length buf' = REASON_SIZE /\
    forallb is_dbg_assert evs = true /\
    cstr buf' = match r with
                | ReqReSchedule reason | ReqReScheduleCB _ reason => stored_reason reason
                | _ => cstr (hleAfterSyscallReschedReason s)
                end.
Proof.
  intros Hlen.
  assert (Hflag : forall flag,
    exists buf' evs,
      or_hleAfterSyscall flag s
      = Ok tt (mkHLE (moduleDB s) (unresolvedSyscalls s)
                 (Z.lor (hleAfterSyscall s) flag) buf' (events s ++ evs)) /\
      length buf' = REASON_SIZE /\
      forallb is_dbg_assert evs = true /\
      cstr buf' = cstr (hleAfterSyscallReschedReason s)).
  { intros flag. exists (hleAfterSyscallReschedReason s), [].
    rewrite app_nil_r, or_hleAfterSyscall_run. repeat split; auto. }
  destruct r as [| | reason | callbacks reason | |]; cbn [request request_flags];
    unfold hleCheckAllCallbacks, hleCheckCurrentCallbacks, hleRunInterrupts, hleDebugBreak;
    try apply Hflag.
  - apply hleReSchedule_effect, Hlen.
  - destruct (hleReSchedule_effect reason s Hlen) as (buf' & evs & Hrun & Hlen' & Hevs & Hbuf).
    exists buf', evs. unfold hleReScheduleCB, bind. rewrite Hrun.
    destruct callbacks; cbn [when].
    + rewrite or_hleAfterSyscall_run. fields. rewrite Z.lor_assoc. repeat split; auto.
    + repeat split; auto.
Qed.

Lemma call_effect (body : HLEFunc) (s : HLE) :
  length (hleAfterSyscallReschedReason s) = REASON_SIZE ->
  exists buf' evs,
    call body s
    = Ok tt (mkHLE (moduleDB s) (unresolvedSyscalls s)
               (Z.lor (hleAfterSyscall s) (body_flags body)) buf' (events s ++ evs)) /\
    length buf' = REASON_SIZE /\
    forallb is_dbg_assert evs = true /\
    cstr buf' = match last_reason body with
                | Some reason => stored_reason reason
                | None => cstr (hleAfterSyscallReschedReason s)
                end.
Proof.
  revert s. induction body as [| r rest IH]; intros s Hlen; cbn [call body_flags last_reason].
  - exists (hleAfterSyscallReschedReason s), [].
    rewrite app_nil_r, Z.lor_0_r. destruct s. repeat split; auto.
  - destruct (request_effect r s Hlen) as (b1 & e1 & Hr & Hl1 & He1 & Hc1).
    unfold bind. rewrite Hr.
    destruct (IH (mkHLE (moduleDB s) (unresolvedSyscalls s)
                    (Z.lor (hleAfterSyscall s) (request_flags r)) b1 (events s ++ e1)) Hl1)
      as (b2 & e2 & Hc & Hl2 & He2 & Hc2). fields.
    exists b2, (e1 ++ e2). rewrite Hc, <- app_assoc, <- Z.lor_assoc.
    split; [reflexivity |]. split; [exact Hl2 |].
    split; [rewrite forallb_app, He1, He2; reflexivity |].
    rewrite Hc2. destruct (last_reason rest); [reflexivity |].
    rewrite Hc1. destruct r; reflexivity.
Qed.

Lemma body_flags_app (a b : HLEFunc) :
  body_flags (a ++ b) = Z.lor (body_flags a) (body_flags b).
Proof.
  induction a as [| r a IH]; cbn [app body_flags]; [reflexivity |].
  rewrite IH, Z.lor_assoc. reflexivity.
Qed.

Lemma body_flags_perm (a b : HLEFunc) :
  Permutation a b -> body_flags a = body_flags b.
Proof.
  induction 1 as [| r a b _ IH | r r' a | a b c _ IH1 _ IH2]; cbn [body_flags].
  - reflexivity.
  - rewrite IH. reflexivity.
  - rewrite !Z.lor_assoc, (Z.lor_comm (request_flags r')). reflexivity.
  - congruence.
Qed.

(** X11.  A host function body leaves in [hleAfterSyscall] the bits it
    found, or-ed with the bit of each of its requests.  The bitmask
    therefore does not depend on the order of the requests, nor on how
    often one is repeated. *)
Theorem call_raises_flags (body : HLEFunc) (s : HLE) :
  length (hleAfterSyscallReschedReason s) = REASON_SIZE ->
  exists s',
    call body s = Ok tt s' /\
    hleAfterSyscall s' = Z.lor (hleAfterSyscall s) (body_flags body) /\
    moduleDB s' = moduleDB s /\
    unresolvedSyscalls s' = unresolvedSyscalls s /\
    (forall body', Permutation body body' ->
       exists s'', call body' s = Ok tt s'' /\ hleAfterSyscall s'' = hleAfterSyscall s') /\
    (exists s'', call (body ++ body) s = Ok tt s'' /\
                 hleAfterSyscall s'' = hleAfterSyscall s').
Proof.
  intros Hlen.
  destruct (call_effect body s Hlen) as (buf' & evs & Hrun & _).
  eexists. split; [exact Hrun |]. fields. repeat split.
  - intros body' Hperm.
    destruct (call_effect body' s Hlen) as (b & e & Hrun' & _).
    eexists. split; [exact Hrun' |]. fields.
    rewrite (body_flags_perm _ _ Hperm). reflexivity.
  - destruct (call_effect (body ++ body) s Hlen) as (b & e & Hrun' & _).
    eexists. split; [exact Hrun' |]. fields.
    rewrite body_flags_app, Z.lor_diag. reflexivity.
Qed.

(** X12.  After a host function body, the reason buffer holds the reason
    of the last reschedule request of the body, whatever was requested
    before it: its first 511 characters, or "Invalid reason" for a null
    pointer.  A body without a reschedule request leaves the stored reason
    as it was. *)
Theorem call_stores_last_reason (body : HLEFunc) (s : HLE) :
  length (hleAfterSyscallReschedReason s) = REASON_SIZE ->
  exists s',
    call body s = Ok tt s' /\
    length (hleAfterSyscallReschedReason s') = REASON_SIZE /\
    cstr (hleAfterSyscallReschedReason s')
    = match last_reason body with
      | Some None => lit "Invalid reason"
      | Some (Some r) => firstn (REASON_SIZE - 1) (cstr r)
      | None => cstr (hleAfterSyscallReschedReason s)
      end.
Proof.
  intros Hlen.
  destruct (call_effect body s Hlen) as (buf' & evs & Hrun & Hlen' & _ & Hbuf).
  eexists. split; [exact Hrun |]. fields. split; [exact Hlen' |].
  rewrite Hbuf. destruct (last_reason body) as [[r |] |]; reflexivity.
Qed.

(** X13.  A dispatch that invokes a host function is decided by the bits
    the body raises and the last reason it gives: after the invocation and
    the reports of the body's assertions, the coordinator runs unless the
    bitmask is empty, with the bitmask or-ed from the entry value and the
    body's requests, and the kernel receives as reason what the last
    reschedule request stored.  The registry and the pending list are
    unchanged. *)
Theorem CallSyscall_invoked (op : Z) (fn : HLEFunction) (body : HLEFunc) (s : HLE) :
  is_sentinel op = false ->
  slot (moduleDB s) (modulenum op) (funcnum op) = Some fn ->
  func fn = Some body ->
  length (hleAfterSyscallReschedReason s) = REASON_SIZE ->
  exists s' asserts,
    CallSyscall op s = Ok tt s' /\
    forallb is_dbg_assert asserts = true /\
    moduleDB s' = moduleDB s /\
    unresolvedSyscalls s' = unresolvedSyscalls s /\
    let mask1 := Z.lor (hleAfterSyscall s) (body_flags body) in
    let reason1 := match last_reason body with
                   | Some reason => stored_reason reason
                   | None => cstr (hleAfterSyscallReschedReason s)
                   end in
    events s'
    = events s ++ EvInvoke (modulenum op) (funcnum op) :: asserts
        ++ (if mask1 =? HLE_AFTER_NOTHING then []
            else kernel_calls mask1 reason1 ++ debugger_calls mask1 fn) /\
    hleAfterSyscall s'
    = (if mask1 =? HLE_AFTER_NOTHING then HLE_AFTER_NOTHING
       else mask_after_finish mask1 fn) /\
    cstr (hleAfterSyscallReschedReason s')
    = (if mask1 =? HLE_AFTER_NOTHING then reason1 else []).
Proof.
  intros Hsent Hslot Hbody Hlen. unfold CallSyscall.
  change ((funcnum op =? 0xfff) || (op =? 0xffff)) with (is_sentinel op).
  rewrite Hsent. destruct s as [db pend mask buf evs0]. fields.
  destruct (slot_inv _ _ _ _ Hslot) as (Hm & Hf & module & Hmod & Hfn).
  destruct (call_effect body
              (mkHLE db pend mask buf (evs0 ++ [EvInvoke (modulenum op) (funcnum op)])) Hlen)
    as (buf1 & evs & Hcall & Hlen1 & Hevs & Hbuf1). fields.
  unfold_monad. step.
  rewrite (at_index_ok _ _ _ _ Hm Hmod). step.
  rewrite (at_index_ok _ _ _ _ Hf Hfn). step.
  rewrite Hbody. step. rewrite Hcall. step.
  rewrite <- Hbuf1.
  destruct (Z.eqb_spec (Z.lor mask (body_flags body)) HLE_AFTER_NOTHING) as [Hz | Hnz];
    cbn [negb].
  - eexists _, evs. split; [reflexivity |]. fields. rewrite Hz, app_nil_r, <- app_assoc.
    repeat split; auto.
  - rewrite hleFinishSyscall_run with (fn := fn); fields;
      [| exact Hslot | rewrite Hlen1, REASON_SIZE_eq; lia].
    eexists _, evs. split; [reflexivity |]. fields.
    rewrite <- !app_assoc. repeat split; auto.
Qed.

Lemma at_index_none {A} (v : list A) (i : Z) (s : HLE) :
  nth_error v (Z.to_nat i) = None -> at_index v i s = @Fault A.
Proof.
  intros Hnone. unfold at_index. destruct (i <? 0); [reflexivity |].
  rewrite Hnone. reflexivity.
Qed.

Lemma CallSyscall_not_dispatchable (op : Z) (s : HLE) :
  dispatchable (moduleDB s) op = false -> CallSyscall op s = Fault.
Proof.
  platform_free.
  unfold dispatchable, CallSyscall.
  change ((funcnum op =? 0xfff) || (op =? 0xffff)) with (is_sentinel op).
  pose proof (modulenum_range op) as Hm. pose proof (funcnum_range op) as Hf.
  destruct (is_sentinel op).
  - destruct (nth_error (moduleDB s) (Z.to_nat (modulenum op))) eqn:Hmod; [discriminate |].
    intros _. unfold_monad. step. rewrite (at_index_none _ _ _ Hmod). reflexivity.
  - unfold slot.
    destruct (Z.ltb_spec (modulenum op) 0); [lia |].
    destruct (Z.ltb_spec (funcnum op) 0); [lia |]. cbn [orb].
    destruct (nth_error (moduleDB s) (Z.to_nat (modulenum op))) as [module |] eqn:Hmod.
    + destruct (nth_error (funcTable module) (Z.to_nat (funcnum op))) eqn:Hfn;
        [discriminate |].
      intros _. unfold_monad. step.
      rewrite (at_index_ok _ _ _ _ (proj1 Hm) Hmod). step.
      rewrite (at_index_none _ _ _ Hfn). reflexivity.
    + intros _. unfold_monad. step. rewrite (at_index_none _ _ _ Hmod). reflexivity.
Qed.

(** A dispatch whose table entries exist, with what it leaves untouched. *)
Lemma CallSyscall_frame_run (op : Z) (s : HLE) :
  length (hleAfterSyscallReschedReason s) = REASON_SIZE ->
  dispatchable (moduleDB s) op = true ->
  exists s' evs,
    CallSyscall op s = Ok tt s' /\
    moduleDB s' = moduleDB s /\
    unresolvedSyscalls s' = unresolvedSyscalls s /\
    length (hleAfterSyscallReschedReason s') = REASON_SIZE /\
    events s' = events s ++ evs /\
    count is_write evs = O.
Proof.
  platform_free.
  intros Hlen Hdisp. unfold dispatchable in Hdisp.
  destruct (is_sentinel op) eqn:Hsent.
  - destruct (nth_error (moduleDB s) (Z.to_nat (modulenum op))) as [module |] eqn:Hmod;
      [| discriminate].
    eexists _, _. split; [apply (CallSyscall_sentinel_run op module s Hsent Hmod) |].
    unfold with_events; fields. repeat split; auto.
  - destruct (slot (moduleDB s) (modulenum op) (funcnum op)) as [fn |] eqn:Hslot;
      [| discriminate].
    destruct (func fn) as [body |] eqn:Hbody.
    + destruct (CallSyscall_invoke_run op fn body s Hsent Hslot Hbody Hlen)
        as (mask1 & buf1 & e1 & Hlen1 & He1 & _ & _ & Hcall).
      assert (Hnone : forall p l, (forall e, p e = true -> is_write e = false) ->
                forallb p l = true -> filter is_write l = []).
      { intros p l Hp Hl. apply filter_all_false.
        apply (forallb_implies_false p is_write l Hl Hp). }
      assert (Ha : filter is_write e1 = []).
      { apply (Hnone is_dbg_assert); [intros []; reflexivity || discriminate | exact He1]. }
      destruct (mask1 =? HLE_AFTER_NOTHING).
      * eexists _, _. split; [exact Hcall |]. fields. repeat split; auto.
        unfold count. cbn [filter is_write]. rewrite Ha. reflexivity.
      * eexists _, _. split; [exact Hcall |]. fields. repeat split; auto.
        -- rewrite length_cleared; rewrite Hlen1; [reflexivity |].
           rewrite REASON_SIZE_eq. lia.
        -- unfold count. cbn [filter is_write]. rewrite !filter_app, Ha.
           rewrite (Hnone is_kernel), (Hnone is_debugger);
             auto using kernel_calls_kernel, debugger_calls_debugger;
             intros []; reflexivity || discriminate.
    + eexists _, _. split; [apply (CallSyscall_unimplemented_run op fn s Hsent Hslot Hbody) |].
      unfold with_events; fields. repeat split; auto.
Qed.

(** X15.  [CallSyscall] checks no index.  It returns exactly when the
    module index decoded from the opcode is inside the registry and, for
    an opcode it does not refuse, the function index decoded is inside the
    table of that module; every other opcode makes it read outside a
    table. *)
Theorem CallSyscall_returns_iff (op : Z) (s : HLE) :
  length (hleAfterSyscallReschedReason s) = REASON_SIZE ->
  (dispatchable (moduleDB s) op = true -> exists s', CallSyscall op s = Ok tt s') /\
  (dispatchable (moduleDB s) op = false -> CallSyscall op s = Fault).
Proof.
  intros Hlen. split.
  - intros Hdisp. destruct (CallSyscall_frame_run op s Hlen Hdisp) as (s' & _ & H & _).
    exists s'. exact H.
  - apply CallSyscall_not_dispatchable.
Qed.

(** X3.  [HLEShutdown] empties the registry and the pending list and
    clears the bitmask; it leaves the reason buffer as it was.  After it
    no name is found, [ResolveSyscall] patches nothing, and every dispatch
    reads outside the empty registry. *)
Theorem HLEShutdown_empties (s : HLE) :
  exists s',
    HLEShutdown s = Ok tt s' /\
    s' = mkHLE [] [] HLE_AFTER_NOTHING (hleAfterSyscallReschedReason s) (events s) /\
    (forall modName, GetModuleIndex modName s' = Ok (-1) s') /\
    (forall modName nib address, ResolveSyscall modName nib address s' = Ok tt s') /\
    (forall op, CallSyscall op s' = Fault).
Proof.
  eexists. split; [reflexivity |]. fields. split; [reflexivity |].
  split; [| split].
  - intros modName. reflexivity.
  - intros modName nib address. reflexivity.
  - intros op. apply CallSyscall_not_dispatchable. fields.
    unfold dispatchable, slot. destruct (is_sentinel op).
    + destruct (Z.to_nat (modulenum op)); reflexivity.
    + destruct ((modulenum op <? 0) || (funcnum op <? 0)); [reflexivity |].
      destruct (Z.to_nat (modulenum op)); reflexivity.
Qed.

(** X23.  The third step of [hleFinishSyscall] makes at most one kernel
    call, and [__KernelCheckCallbacks] is that call exactly when the
    all-callbacks bit is set and neither reschedule bit is.  Whatever the
    bitmask, the stored reason is empty afterwards and the bitmask is
    empty or the debug-break bit. *)
Theorem hleFinishSyscall_sweep (m f : Z) (fn : HLEFunction) (s : HLE) :
  slot (moduleDB s) m f = Some fn ->
  (0 < length (hleAfterSyscallReschedReason s))%nat ->
  exists s' evs,
    hleFinishSyscall m f s = Ok tt s' /\
    events s' = events s ++ evs /\
    (count is_resched_phase evs <= 1)%nat /\
    (In EvKernelCheckCallbacks evs <->
     mask_has (hleAfterSyscall s) HLE_AFTER_ALL_CALLBACKS = true /\
     mask_has (hleAfterSyscall s) HLE_AFTER_RESCHED = false /\
     mask_has (hleAfterSyscall s) HLE_AFTER_RESCHED_CALLBACKS = false) /\
    cstr (hleAfterSyscallReschedReason s') = [] /\
    settled (hleAfterSyscall s').
Proof.
  platform_free.
  intros Hslot Hbuf.
  eexists _, _. split; [exact (hleFinishSyscall_run m f fn s Hslot Hbuf) |]. fields.
  split; [reflexivity |].
  split; [| split; [| split; [reflexivity | apply mask_after_finish_settled]]].
  - unfold count, kernel_calls, debugger_calls.
    repeat match goal with
           | |- context [mask_has ?k ?flag] => destruct (mask_has k flag)
           end;
      destruct (blacklisted fn); cbn; lia.
  - unfold kernel_calls, debugger_calls.
    repeat match goal with
           | |- context [mask_has ?k ?flag] => destruct (mask_has k flag)
           end;
      destruct (blacklisted fn); cbn; intuition discriminate.
Qed.

Lemma CallSyscall_quiet_step (op : Z) (s : HLE) :
  length (hleAfterSyscallReschedReason s) = REASON_SIZE ->
  hleAfterSyscall s = HLE_AFTER_DEBUG_BREAK ->
  quiet (moduleDB s) op = true ->
  exists s' evs,
    CallSyscall op s = Ok tt s' /\
    moduleDB s' = moduleDB s /\
    length (hleAfterSyscallReschedReason s') = REASON_SIZE /\
    hleAfterSyscall s' = HLE_AFTER_DEBUG_BREAK /\
    events s' = events s ++ evs /\
    (forall e, In e evs -> is_debugger e = false).
Proof.
  intros Hlen Hmask Hquiet. unfold quiet in Hquiet.
  destruct (is_sentinel op) eqn:Hsent.
  - destruct (nth_error (moduleDB s) (Z.to_nat (modulenum op))) as [module |] eqn:Hmod;
      [| discriminate].
    eexists _, _. split; [apply (CallSyscall_sentinel_run op module s Hsent Hmod) |].
    unfold with_events; fields. repeat split; auto.
    intros e [<- | [<- | []]]; reflexivity.
  - destruct (slot (moduleDB s) (modulenum op) (funcnum op)) as [fn |] eqn:Hslot;
      [| discriminate].
    destruct (func fn) as [body |] eqn:Hbody.
    + destruct (CallSyscall_invoke_run op fn body s Hsent Hslot Hbody Hlen)
        as (mask1 & buf1 & e1 & Hlen1 & He1 & Hmono & _ & Hcall).
      assert (Hbit : Z.testbit mask1 5 = true) by (apply Hmono; rewrite Hmask; reflexivity).
      rewrite (testbit5_nonzero _ Hbit) in Hcall.
      unfold mask_after_finish, debugger_calls in Hcall.
      rewrite mask_has_debug_break, Hbit, Hquiet in Hcall. cbn [andb negb] in Hcall.
      rewrite app_nil_r in Hcall.
      eexists _, _. split; [exact Hcall |]. fields. repeat split; auto.
      * rewrite length_cleared; rewrite Hlen1; [reflexivity |].
        rewrite REASON_SIZE_eq. lia.
      * apply not_debugger_invoke_asserts_kernel. exact He1.
    + eexists _, _. split; [apply (CallSyscall_unimplemented_run op fn s Hsent Hslot Hbody) |].
      unfold with_events; fields. repeat split; auto.
      intros e [<- | []]. reflexivity.
Qed.

Lemma dispatch_all_quiet (db : list HLEModule) (ops : list Z) :
  forallb (quiet db) ops = true ->
  forall s,
    moduleDB s = db ->
    length (hleAfterSyscallReschedReason s) = REASON_SIZE ->
    hleAfterSyscall s = HLE_AFTER_DEBUG_BREAK ->
    exists seen s' evs,
      dispatch_all ops s = Ok seen s' /\
      seen = repeat HLE_AFTER_DEBUG_BREAK (length ops) /\
      hleAfterSyscall s' = HLE_AFTER_DEBUG_BREAK /\
      events s' = events s ++ evs /\
      (forall e, In e evs -> is_debugger e = false).
Proof.
  induction ops as [| op rest IH]; intros Hops s Hdb Hlen Hmask; cbn [dispatch_all].
  - exists [], s, []. rewrite app_nil_r. repeat split; auto. intros e [].
  - cbn [forallb] in Hops. apply andb_true_iff in Hops. destruct Hops as (Hop & Hrest).
    rewrite <- Hdb in Hop.
    destruct (CallSyscall_quiet_step op s Hlen Hmask Hop)
      as (s1 & e1 & Hcall & Hdb1 & Hlen1 & Hmask1 & Hev1 & Hq1).
    destruct (IH Hrest s1 (eq_trans Hdb1 Hdb) Hlen1 Hmask1)
      as (seen & s' & e2 & Hrun & Hseen & Hfin & Hev2 & Hq2).
    exists (hleAfterSyscall s :: seen), s', (e1 ++ e2).
    unfold bind, gets. rewrite Hcall, Hrun. unfold ret.
    split; [reflexivity |]. split; [cbn [length repeat]; congruence |].
    split; [exact Hfin |]. split; [rewrite Hev2, Hev1, app_assoc; reflexivity |].
    intros e Hin. apply in_app_or in Hin. destruct Hin; auto.
Qed.

(** X25.  A pending debug break waits as long as needed: through any run
    of dispatches that are refused, find a null host function, or invoke
    a blacklisted function, the bitmask is the debug-break bit at every
    entry and at the end, and no call into the debugger is made. *)
Theorem debug_break_waits (ops : list Z) (s : HLE) :
  length (hleAfterSyscallReschedReason s) = REASON_SIZE ->
  hleAfterSyscall s = HLE_AFTER_DEBUG_BREAK ->
  forallb (quiet (moduleDB s)) ops = true ->
  exists seen s' evs,
    dispatch_all ops s = Ok seen s' /\
    seen = repeat HLE_AFTER_DEBUG_BREAK (length ops) /\
    hleAfterSyscall s' = HLE_AFTER_DEBUG_BREAK /\
    events s' = events s ++ evs /\
    count is_debugger evs = O.
Proof.
  intros Hlen Hmask Hops.
  destruct (dispatch_all_quiet (moduleDB s) ops Hops s eq_refl Hlen Hmask)
    as (seen & s' & evs & Hrun & Hseen & Hfin & Hev & Hq).
  exists seen, s', evs. repeat split; auto.
  unfold count. rewrite (filter_all_false is_debugger evs Hq). reflexivity.
Qed.

(** ** More on the patcher and the resolver *)

Lemma cstr_no_nul_id (l : bytes) : ~ In NUL l -> cstr l = l.
Proof.
  intros Hl. rewrite <- (app_nil_r l) at 1.
  assert (H : cstr (l ++ NUL :: []) = l) by (apply cstr_app_nul, Hl).
  unfold cstr in *.
  assert (Hs : strlen (l ++ []) = length l).
  { rewrite app_nil_r. clear H. induction l as [| c t IH]; cbn [strlen length]; [reflexivity |].
    destruct (Ascii.eqb_spec c NUL) as [-> | _].
    - exfalso. apply Hl. left. reflexivity.
    - f_equal. apply IH. intros Hin. apply Hl. right. exact Hin. }
  rewrite Hs, app_nil_r. apply firstn_all.
Qed.

Lemma patch_writes (modName : bytes) (nib address : Z) (l : list Syscall) :
  filter is_write (flat_map (patch_events modName nib address) l)
  = flat_map (fun sysc => [EvWriteU32 (MIPS_MAKE_J address) (symAddr sysc);
                           EvWriteU32 MIPS_MAKE_NOP (to_u32 (symAddr sysc + 4))]) l.
Proof.
  induction l as [| sysc l IH]; [reflexivity |].
  cbn [flat_map patch_events app filter is_write]. rewrite IH. reflexivity.
Qed.

Lemma ResolveSyscall_run (modName : bytes) (nib address : Z) (s : HLE) :
  ResolveSyscall modName nib address s
  = Ok tt (with_events s
             (flat_map (patch_events modName nib address)
                       (filter (resolves modName nib) (unresolvedSyscalls s)))).
Proof. unfold ResolveSyscall, bind, gets. apply ResolveSyscall_loop_run. Qed.

Lemma WriteSyscall_deferred_run (modName : bytes) (nib address : Z) (s : HLE) :
  nib <> 0 ->
  GetModuleIndex_loop (moduleDB s) modName 0 = -1 ->
  exists copied,
    WriteSyscall modName nib address s
    = Ok tt (mkHLE (moduleDB s)
               (unresolvedSyscalls s ++ [mkSyscall copied address nib])
               (hleAfterSyscall s) (hleAfterSyscallReschedReason s)
               (events s ++ [EvInfoLog "Syscall (%s,%08x) unresolved, storing for later resolving"
                               [ArgStr (cstr modName); ArgHex nib]])) /\
    length copied = 32%nat /\
    cstr copied = firstn 31 (cstr modName).
Proof.
  intros Hnib Hreg.
  destruct (copied_name modName) as (copied & Hpoke & Hlen & Hcstr & _).
  exists copied. split; [| auto].
  unfold WriteSyscall.
  destruct (Z.eqb_spec nib 0); [contradiction |].
  unfold bind at 1. rewrite GetModuleIndex_eq, Hreg. cbn [Z.eqb negb].
  unfold_monad. step. rewrite Hpoke. reflexivity.
Qed.

(** X16.  A call site recorded by [WriteSyscall] for a module that is not
    registered, under a name shorter than 32 characters, is patched by the
    next [ResolveSyscall] of that name and function ID: after the patches
    of the earlier matching entries, the jump to the target is written at
    the recorded address and the no-op four bytes further.  The recording
    itself writes nothing to guest memory. *)
Theorem WriteSyscall_then_ResolveSyscall (modName : bytes) (nib address target : Z)
    (s : HLE) :
  nib <> 0 ->
  GetModuleIndex_loop (moduleDB s) modName 0 = -1 ->
  (strlen modName < 32)%nat ->
  exists s1 s2,
    WriteSyscall modName nib address s = Ok tt s1 /\
    filter is_write (skipn (length (events s)) (events s1)) = [] /\
    ResolveSyscall modName nib target s1 = Ok tt s2 /\
    filter is_write (skipn (length (events s1)) (events s2))
    = flat_map (fun sysc => [EvWriteU32 (MIPS_MAKE_J target) (symAddr sysc);
                             EvWriteU32 MIPS_MAKE_NOP (to_u32 (symAddr sysc + 4))])
               (filter (resolves modName nib) (unresolvedSyscalls s))
      ++ [EvWriteU32 (MIPS_MAKE_J target) address;
          EvWriteU32 MIPS_MAKE_NOP (to_u32 (address + 4))].
Proof.
  intros Hnib Hreg Hshort.
  destruct (WriteSyscall_deferred_run modName nib address s Hnib Hreg)
    as (copied & Hwrite & Hlen & Hcstr).
  assert (Hmatch : resolves modName nib (mkSyscall copied address nib) = true).
  { apply resolves_iff; cbn [moduleName nid].
    - rewrite <- cstr_length, Hcstr, length_firstn. lia.
    - split; [| reflexivity]. rewrite Hcstr. apply firstn_all2.
      rewrite cstr_length. lia. }
  eexists _, _. split; [exact Hwrite |]. fields.
  split.
  { rewrite skipn_app, Nat.sub_diag, skipn_all. reflexivity. }
  split; [apply ResolveSyscall_run |].
  unfold with_events. fields.
  rewrite skipn_app, Nat.sub_diag, skipn_all. cbn [app skipn].
  rewrite filter_app. cbn [filter]. rewrite Hmatch.
  rewrite flat_map_app, filter_app, !patch_writes. reflexivity.
Qed.

(** X17.  Under a name of 32 characters or more the entry [WriteSyscall]
    records keeps the first 31 characters only, and the comparison over
    32 bytes in [ResolveSyscall] never matches it with that name: the
    call site is not patched by resolving the name it was recorded for,
    while resolving the 31-character prefix as a name does match it. *)
Theorem WriteSyscall_long_name_unresolved (modName : bytes) (nib address : Z) (s : HLE) :
  nib <> 0 ->
  GetModuleIndex_loop (moduleDB s) modName 0 = -1 ->
  (32 <= strlen modName)%nat ->
  exists s1 copied,
    WriteSyscall modName nib address s = Ok tt s1 /\
    unresolvedSyscalls s1 = unresolvedSyscalls s ++ [mkSyscall copied address nib] /\
    cstr copied = firstn 31 (cstr modName) /\
    resolves modName nib (mkSyscall copied address nib) = false /\
    resolves (firstn 31 (cstr modName)) nib (mkSyscall copied address nib) = true /\
    forall target,
      ResolveSyscall modName nib target s1
      = Ok tt (with_events s1
                 (flat_map (patch_events modName nib target)
                           (filter (resolves modName nib) (unresolvedSyscalls s)))).
Proof.
  intros Hnib Hreg Hlong.
  destruct (WriteSyscall_deferred_run modName nib address s Hnib Hreg)
    as (copied & Hwrite & Hlen & Hcstr).
  assert (Hprefix : ~ In NUL (firstn 31 (cstr modName))).
  { intros Hin. apply (cstr_no_nul modName). eapply in_firstn, Hin. }
  assert (Hmiss : resolves modName nib (mkSyscall copied address nib) = false).
  { unfold resolves, strncmp_eq. cbn [moduleName nid].
    apply andb_false_iff. left.
    destruct (bytes_eqb (firstn 32 (cstr copied)) (firstn 32 (cstr modName))) eqn:Heq;
      [| reflexivity].
    apply bytes_eqb_eq in Heq. apply (f_equal (@length ascii)) in Heq.
    rewrite Hcstr, !length_firstn, cstr_length in Heq. lia. }
  eexists _, copied. split; [exact Hwrite |]. fields.
  split; [reflexivity |]. split; [exact Hcstr |]. split; [exact Hmiss |].
  split.
  - apply resolves_iff; cbn [moduleName nid].
    + rewrite <- cstr_length, Hcstr, length_firstn. lia.
    + split; [| reflexivity]. rewrite Hcstr. symmetry. apply cstr_no_nul_id, Hprefix.
  - intros target. rewrite ResolveSyscall_run. fields.
    rewrite filter_app. cbn [filter]. rewrite Hmiss, app_nil_r. reflexivity.
Qed.

(** X18.  [ResolveSyscall] keeps no record of what it resolved: a second
    call with the same arguments makes the same log entries and writes
    over again.  When no pending entry matches, a call changes nothing. *)
Theorem ResolveSyscall_repeats (modName : bytes) (nib address : Z) (s : HLE) :
  exists s1 s2 evs,
    ResolveSyscall modName nib address s = Ok tt s1 /\
    events s1 = events s ++ evs /\
    ResolveSyscall modName nib address s1 = Ok tt s2 /\
    events s2 = events s1 ++ evs /\
    (length (filter is_write evs)
     = 2 * length (filter (resolves modName nib) (unresolvedSyscalls s)))%nat /\
    (filter (resolves modName nib) (unresolvedSyscalls s) = [] -> s1 = s).
Proof.
  eexists _, _, _. split; [apply ResolveSyscall_run |].
  split; [reflexivity |]. split; [apply ResolveSyscall_run |].
  split; [reflexivity |]. split.
  - rewrite patch_writes.
    induction (filter (resolves modName nib) (unresolvedSyscalls s)) as [| sysc l IH];
      [reflexivity |].
    cbn [flat_map app length]. rewrite IH. lia.
  - intros ->. apply with_events_nil.
Qed.

Lemma WriteSyscall_registered_run (modName : bytes) (nib address op : Z) (s s' : HLE) :
  nib <> 0 ->
  GetModuleIndex_loop (moduleDB s) modName 0 <> -1 ->
  GetSyscallOp modName nib s = Ok op s' ->
  WriteSyscall modName nib address s
  = Ok tt (with_events s [EvWriteU32 MIPS_MAKE_JR_RA address;
                          EvWriteU32 op (to_u32 (address + 4))]).
Proof.
  intros Hnib Hreg Hop. unfold WriteSyscall.
  destruct (Z.eqb_spec nib 0); [contradiction |].
  unfold bind at 1. rewrite GetModuleIndex_eq.
  destruct (Z.eqb_spec (GetModuleIndex_loop (moduleDB s) modName 0) (-1));
    [contradiction |].
  cbn [negb]. unfold bind, Write_U32, emit, modify.
  rewrite (GetSyscallOp_frame _ _ _ _ _ Hreg Hop) by reflexivity.
  unfold with_events. fields. rewrite <- app_assoc. reflexivity.
Qed.

(** The invalid opcode of a registered module, and the module its module
    field points at. *)
Lemma invalid_opcode_of_module (modName : bytes) (nib m : Z) (s s2 : HLE) :
  GetModuleIndex_loop (moduleDB s) modName 0 = m ->
  m <> -1 ->
  GetFuncIndex m nib s = Ok (-1) s2 ->
  exists module,
    GetSyscallOp modName nib s = Ok (to_u32 (Z.lor 0x0003FFCC (Z.shiftl m 18))) s /\
    funcnum (to_u32 (Z.lor 0x0003FFCC (Z.shiftl m 18))) = 0xfff /\
    nth_error (moduleDB s)
      (Z.to_nat (modulenum (to_u32 (Z.lor 0x0003FFCC (Z.shiftl m 18))))) = Some module.
Proof.
  intros Hm Hreg Hidx.
  destruct (GetModuleIndex_loop_found (moduleDB s) modName 0 (Z.le_refl 0))
    as (_ & Hrange & _); [rewrite Hm; exact Hreg |].
  rewrite Hm in Hrange.
  split with (x := match nth_error (moduleDB s)
      (Z.to_nat (modulenum (to_u32 (Z.lor 0x0003FFCC (Z.shiftl m 18))))) with
      | Some module => module | None => mkHLEModule [] 0 [] end).
  assert (Hfn : funcnum (to_u32 (Z.lor 0x0003FFCC (Z.shiftl m 18))) = 0xfff).
  { rewrite encode_invalid_value, funcnum_div_mod. unfold to_u32.
    change (2 ^ 18) with 262144. change (2 ^ 32) with 4294967296.
    change (2 ^ 6) with 64. change (2 ^ 12) with 4096. div_mod_lia. }
  assert (Hmn : modulenum (to_u32 (Z.lor 0x0003FFCC (Z.shiftl m 18))) = m mod 256).
  { rewrite encode_invalid_value, modulenum_div_mod. unfold to_u32.
    change (2 ^ 18) with 262144. change (2 ^ 32) with 4294967296.
    change (2 ^ 8) with 256. div_mod_lia. }
  split; [| split; [exact Hfn |]].
  - rewrite (GetSyscallOp_registered _ _ _ _ _ _ Hm Hreg Hidx). reflexivity.
  - destruct (nth_error (moduleDB s)
      (Z.to_nat (modulenum (to_u32 (Z.lor 0x0003FFCC (Z.shiftl m 18)))))) eqn:Hnth;
      [reflexivity |].
    apply nth_error_None in Hnth. rewrite Hmn in Hnth.
    pose proof (Z.mod_pos_bound m 256 ltac:(lia)).
    assert (m mod 256 <= m) by (apply Z.mod_le; lia). lia.
Qed.

(** X21.  Patching and dispatching agree.  For a nonzero function ID found
    below index 4095 in a module registered below index 256,
    [WriteSyscall] stamps the return instruction and, four bytes further,
    an opcode that [CallSyscall] does not refuse and decodes to a table
    entry with the ID that was patched in. *)
Theorem WriteSyscall_then_CallSyscall (modName : bytes) (nib address m f : Z)
    (s s2 : HLE) :
  nib <> 0 ->
  GetModuleIndex_loop (moduleDB s) modName 0 = m ->
  m <> -1 -> m < 256 ->
  GetFuncIndex m nib s = Ok f s2 ->
  f <> -1 -> f < 4095 ->
  exists op fn,
    WriteSyscall modName nib address s
    = Ok tt (with_events s [EvWriteU32 MIPS_MAKE_JR_RA address;
                            EvWriteU32 op (to_u32 (address + 4))]) /\
    is_sentinel op = false /\
    modulenum op = m /\ funcnum op = f /\
    slot (moduleDB s) (modulenum op) (funcnum op) = Some fn /\
    ID fn = nib.
Proof.
  intros Hnib Hm Hreg Hm256 Hidx Hf Hf4095.
  destruct (GetSyscallOp_valid_fields modName nib m f s s2 Hm Hreg Hidx Hf ltac:(lia))
    as (op & Hop & Hfn & Hmn & Htag).
  assert (Hm0 : 0 <= m).
  { destruct (GetModuleIndex_loop_found (moduleDB s) modName 0 (Z.le_refl 0))
      as (_ & Hr & _); [rewrite Hm; exact Hreg |]. rewrite Hm in Hr. lia. }
  rewrite Z.mod_small in Hmn by lia.
  destruct (GetFuncIndex_found _ _ _ _ _ Hidx Hf) as (Hf0 & fn & Hslot & Hid).
  exists op, fn. split.
  { apply WriteSyscall_registered_run with (s' := s); [exact Hnib | | exact Hop].
    rewrite Hm. exact Hreg. }
  split.
  { unfold is_sentinel. rewrite Hfn.
    destruct (Z.eqb_spec f 0xfff); [lia |]. cbn [orb].
    apply Z.eqb_neq. intros ->. discriminate Htag. }
  rewrite Hmn, Hfn. repeat split; auto.
Qed.

(** X22.  For a nonzero function ID that a registered module's table
    lacks, [WriteSyscall] still stamps the call site: with the return
    instruction and the invalid opcode of the module.  Dispatching what
    was stamped logs an error and invokes nothing. *)
Theorem WriteSyscall_unknown_function (modName : bytes) (nib address m : Z)
    (s s2 : HLE) :
  nib <> 0 ->
  GetModuleIndex_loop (moduleDB s) modName 0 = m ->
  m <> -1 ->
  GetFuncIndex m nib s = Ok (-1) s2 ->
  exists op module s1,
    WriteSyscall modName nib address s = Ok tt s1 /\
    s1 = with_events s [EvWriteU32 MIPS_MAKE_JR_RA address;
                        EvWriteU32 op (to_u32 (address + 4))] /\
    op = to_u32 (Z.lor 0x0003FFCC (Z.shiftl m 18)) /\
    is_sentinel op = true /\
    nth_error (moduleDB s) (Z.to_nat (modulenum op)) = Some module /\
    CallSyscall op s1
    = Ok tt (with_events s1
               [EvDbgAssert "Unknown syscall";
                EvErrorLog "Unknown syscall: Module: %s" [ArgStr (cstr (name module))]]).
Proof.
  intros Hnib Hm Hreg Hidx.
  destruct (invalid_opcode_of_module modName nib m s s2 Hm Hreg Hidx)
    as (module & Hop & Hfn & Hmodule).
  set (op := to_u32 (Z.lor 0x0003FFCC (Z.shiftl m 18))) in *.
  assert (Hsent : is_sentinel op = true) by (unfold is_sentinel; rewrite Hfn; reflexivity).
  exists op, module. eexists. split.
  { apply WriteSyscall_registered_run with (s' := s); [exact Hnib | | exact Hop].
    rewrite Hm. exact Hreg. }
  split; [reflexivity |]. split; [reflexivity |]. split; [exact Hsent |].
  split; [exact Hmodule |].
  apply CallSyscall_sentinel_run; [exact Hsent | exact Hmodule].
Qed.

Lemma GetFuncIndex_loop_short (tbl : list HLEFunction) (nib : Z) (todo : nat)
    (i : Z) (s : HLE) :
  0 <= i ->
  (Z.to_nat i <= length tbl < Z.to_nat i + todo)%nat ->
  (forall j f, (Z.to_nat i <= j)%nat -> nth_error tbl j = Some f -> ID f <> nib) ->
  GetFuncIndex_loop tbl nib todo i s = Fault.
Proof.
  platform_free.
  revert i. induction todo as [| todo IH]; intros i Hi Hlen Hnone; [lia |].
  cbn [GetFuncIndex_loop]. unfold bind.
  destruct (nth_error tbl (Z.to_nat i)) as [f |] eqn:Hnth.
  - rewrite (at_index_ok _ _ _ s Hi Hnth).
    destruct (Z.eqb_spec (ID f) nib) as [Heq | _].
    + exfalso. apply (Hnone (Z.to_nat i) f); [lia | exact Hnth | exact Heq].
    + assert (Hin : (Z.to_nat i < length tbl)%nat) by (apply nth_error_Some; congruence).
      apply IH; [lia | lia |].
      intros j g Hj. apply Hnone. lia.
  - rewrite (at_index_none _ _ _ Hnth). reflexivity.
Qed.

(** X24.  [GetFuncIndex] searches as many entries as the module declares.
    When the module declares more functions than its table holds and no
    entry of the table has the ID, the search reads past the end of the
    table. *)
Theorem GetFuncIndex_short_table (m nib : Z) (module : HLEModule) (s : HLE) :
  0 <= m ->
  nth_error (moduleDB s) (Z.to_nat m) = Some module ->
  (length (funcTable module) < Z.to_nat (numFunctions module))%nat ->
  (forall f, In f (funcTable module) -> ID f <> nib) ->
  GetFuncIndex m nib s = Fault.
Proof.
  platform_free.
  intros Hm Hmod Hshort Hnone.
  unfold GetFuncIndex, bind, gets. rewrite (at_index_ok _ _ _ s Hm Hmod).
  apply GetFuncIndex_loop_short; [lia | cbn; lia |].
  intros j f _ Hj. apply Hnone. eapply nth_error_In, Hj.
Qed.

(** ** The three cases of the patcher *)

Lemma forallb_firstn_nth {A} (p : A -> bool) (l : list A) (k : nat) :
  forallb p (firstn k l) = true ->
  forall j x, (j < k)%nat -> nth_error l j = Some x -> p x = true.
Proof.
  platform_free.
  revert l. induction k as [| k IH]; intros l Hall j x Hj Hnth; [lia |].
  destruct l as [| y rest]; [destruct j; discriminate |].
  cbn [firstn forallb] in Hall. apply andb_true_iff in Hall as [Hy Hrest].
  destruct j as [| j]; cbn [nth_error] in Hnth.
  - injection Hnth as <-. exact Hy.
  - apply (IH rest Hrest j x); [lia | exact Hnth].
Qed.

(** The lookup by name returns the index of the first entry with the name. *)
Lemma registered_at_loop (db : list HLEModule) (modName : bytes) (m : nat)
    (module : HLEModule) (i : Z) :
  registered_at db modName m module ->
  GetModuleIndex_loop db modName i = i + Z.of_nat m.
Proof.
  platform_free.
  revert m i. induction db as [| d rest IH]; intros m i (Hnth & Hname & Hfirst).
  - destruct m; discriminate.
  - destruct m as [| m]; cbn [nth_error firstn forallb GetModuleIndex_loop] in *.
    + injection Hnth as ->. rewrite Hname. lia.
    + apply andb_true_iff in Hfirst as [Hd Hrest]. apply negb_true_iff in Hd.
      rewrite Hd. rewrite (IH m (i + 1)); [lia |]. repeat split; assumption.
Qed.

Lemma unregistered_loop (db : list HLEModule) (modName : bytes) (i : Z) :
  unregistered db modName -> GetModuleIndex_loop db modName i = -1.
Proof.
  unfold unregistered. revert i.
  induction db as [| d rest IH]; intros i Hnone; cbn [GetModuleIndex_loop existsb] in *;
    [reflexivity |].
  apply orb_false_iff in Hnone as [Hd Hrest]. rewrite Hd. apply IH. exact Hrest.
Qed.

(** The search by ID stops at the first entry with the ID, and reads no
    entry behind it. *)
Lemma GetFuncIndex_loop_first (tbl : list HLEFunction) (nib : Z) (k : nat) :
  forall (todo : nat) (i : Z) (fn : HLEFunction) (s : HLE),
    0 <= i -> (k < todo)%nat ->
    nth_error tbl (Z.to_nat i + k) = Some fn -> ID fn = nib ->
    (forall j g, (Z.to_nat i <= j < Z.to_nat i + k)%nat ->
                 nth_error tbl j = Some g -> ID g <> nib) ->
    GetFuncIndex_loop tbl nib todo i s = Ok (i + Z.of_nat k) s.
Proof.
  platform_free.
  induction k as [| k IH]; intros todo i fn s Hi Hk Hnth Hid Hfirst;
    (destruct todo as [| todo]; [lia |]); cbn [GetFuncIndex_loop]; unfold bind.
  - rewrite Nat.add_0_r in Hnth. rewrite (at_index_ok _ _ _ s Hi Hnth).
    destruct (Z.eqb_spec (ID fn) nib); [| contradiction].
    unfold ret. f_equal. lia.
  - destruct (nth_error tbl (Z.to_nat i)) as [g |] eqn:Hg.
    + rewrite (at_index_ok _ _ _ s Hi Hg).
      destruct (Z.eqb_spec (ID g) nib) as [Heq | Hne].
      * exfalso. apply (Hfirst (Z.to_nat i) g); [lia | exact Hg | exact Heq].
      * rewrite (IH todo (i + 1) fn s); [f_equal; lia | lia | lia | | exact Hid |].
        -- replace (Z.to_nat (i + 1) + k)%nat with (Z.to_nat i + S k)%nat by lia.
           exact Hnth.
        -- intros j h Hj. apply Hfirst. lia.
    + apply nth_error_None in Hg.
      assert (Z.to_nat i + S k < length tbl)%nat
        by (apply nth_error_Some; rewrite Hnth; discriminate).
      lia.
Qed.

Lemma declared_at_GetFuncIndex (m f : nat) (module : HLEModule) (fn : HLEFunction)
    (nib : Z) (s : HLE) :
  nth_error (moduleDB s) m = Some module ->
  declared_at module nib f fn ->
  GetFuncIndex (Z.of_nat m) nib s = Ok (Z.of_nat f) s.
Proof.
  platform_free.
  intros Hmod (Hf & Hnth & Hid & Hfirst).
  unfold GetFuncIndex, bind, gets.
  rewrite (at_index_ok _ _ module s (Nat2Z.is_nonneg m))
    by (rewrite Nat2Z.id; exact Hmod).
  rewrite (GetFuncIndex_loop_first (funcTable module) nib f _ 0 fn s);
    [reflexivity | lia | exact Hf | exact Hnth | exact Hid |].
  intros j g Hj Hg Heq.
  pose proof (forallb_firstn_nth _ _ _ Hfirst j g ltac:(cbn in Hj; lia) Hg) as Hne.
  apply negb_true_iff, Z.eqb_neq in Hne. contradiction.
Qed.

Lemma undeclared_GetFuncIndex (m : nat) (module : HLEModule) (nib : Z) (s : HLE) :
  nth_error (moduleDB s) m = Some module ->
  undeclared module nib ->
  GetFuncIndex (Z.of_nat m) nib s = Ok (-1) s.
Proof.
  platform_free.
  intros Hmod (Hlen & Hnone).
  unfold GetFuncIndex, bind, gets.
  rewrite (at_index_ok _ _ module s (Nat2Z.is_nonneg m))
    by (rewrite Nat2Z.id; exact Hmod).
  destruct (GetFuncIndex_loop_spec (funcTable module) nib
              (Z.to_nat (numFunctions module)) 0 s (Z.le_refl 0) ltac:(cbn; lia))
    as (r & Hrun & [(-> & _) | (Hr & g & Hg & Hid & _)]); [exact Hrun |].
  exfalso.
  pose proof (forallb_firstn_nth _ _ _ Hnone (Z.to_nat r) g ltac:(lia) Hg) as Hne.
  apply negb_true_iff, Z.eqb_neq in Hne. contradiction.
Qed.

(** The fields of a valid opcode whose indices fit them. *)
Lemma valid_opcode_fields (m f : Z) :
  0 <= m < 256 -> 0 <= f < 4096 ->
  to_u32 (Z.lor (Z.lor 0x0000000c (Z.shiftl m 18)) (Z.shiftl f 6))
  = 0x0000000c + m * 2 ^ 18 + f * 2 ^ 6 /\
  modulenum (to_u32 (Z.lor (Z.lor 0x0000000c (Z.shiftl m 18)) (Z.shiftl f 6))) = m /\
  funcnum (to_u32 (Z.lor (Z.lor 0x0000000c (Z.shiftl m 18)) (Z.shiftl f 6))) = f /\
  Z.land (to_u32 (Z.lor (Z.lor 0x0000000c (Z.shiftl m 18)) (Z.shiftl f 6))) 0x3F = 0x0c.
Proof.
  platform_free.
  intros Hm Hf. rewrite encode_value by lia.
  assert (Hsmall : to_u32 (m * 2 ^ 18 + f * 2 ^ 6 + 12) = m * 2 ^ 18 + f * 2 ^ 6 + 12).
  { unfold to_u32. apply Z.mod_small.
    change (2 ^ 18) with 262144. change (2 ^ 6) with 64.
    change (2 ^ 32) with 4294967296. lia. }
  rewrite Hsmall, modulenum_div_mod, funcnum_div_mod, land_low6.
  change (2 ^ 18) with 262144. change (2 ^ 6) with 64.
  change (2 ^ 12) with 4096. change (2 ^ 8) with 256.
  repeat split; [lia | div_mod_lia ..].
Qed.

(** C6.  [WriteSyscall] with a zero function ID writes the return
    instruction at the address and the no-op four bytes further, whatever
    the registry holds.

    With a nonzero ID and a module registered under the name, first at
    index [m], the lookup by name returns [m], and the patcher writes the
    return instruction at the address and, four bytes further, the opcode
    of [GetSyscallOp]; the encoder returns an opcode whenever the tables
    are as long as they are declared.  That opcode is
    [0x0c | m<<18 | f<<6] when the module declares the ID first at index
    [f], and then, for [m] below 256 and [f] below 4096, it is
    [12 + m * 2^18 + f * 2^6], whose module field is [m], whose function
    field is [f] and whose low six bits are [0x0c].  It is
    [0x0003FFCC | m<<18] when none of the declared entries has the ID.

    With a nonzero ID and a name no entry of the registry has, the lookup
    returns -1, and the patcher writes nothing to guest memory: it logs
    once and appends one entry to the pending list, made of the module
    name bounded to 31 characters, the address and the function ID. *)
Theorem WriteSyscall_cases (modName : bytes) (nib address : Z) (s : HLE) :
  (nib = 0 ->
   WriteSyscall modName nib address s
   = Ok tt (with_events s [EvWriteU32 MIPS_MAKE_JR_RA address;
                           EvWriteU32 MIPS_MAKE_NOP (to_u32 (address + 4))])) /\
  (forall (m : nat) (module : HLEModule),
   nib <> 0 ->
   registered_at (moduleDB s) modName m module ->
   GetModuleIndex modName s = Ok (Z.of_nat m) s /\
   (registry_wf (moduleDB s) -> exists op, GetSyscallOp modName nib s = Ok op s) /\
   (forall op s', GetSyscallOp modName nib s = Ok op s' ->
      WriteSyscall modName nib address s
      = Ok tt (with_events s [EvWriteU32 MIPS_MAKE_JR_RA address;
                              EvWriteU32 op (to_u32 (address + 4))])) /\
   (forall (f : nat) (fn : HLEFunction),
      declared_at module nib f fn ->
      exists op,
        op = to_u32 (Z.lor (Z.lor 0x0000000c (Z.shiftl (Z.of_nat m) 18))
                           (Z.shiftl (Z.of_nat f) 6)) /\
        GetSyscallOp modName nib s = Ok op s /\
        WriteSyscall modName nib address s
        = Ok tt (with_events s [EvWriteU32 MIPS_MAKE_JR_RA address;
                                EvWriteU32 op (to_u32 (address + 4))]) /\
        ((m < 256)%nat -> (f < 4096)%nat ->
         op = 0x0000000c + Z.of_nat m * 2 ^ 18 + Z.of_nat f * 2 ^ 6 /\
         modulenum op = Z.of_nat m /\
         funcnum op = Z.of_nat f /\
         Z.land op 0x3F = 0x0c)) /\
   (undeclared module nib ->
      exists op,
        op = to_u32 (Z.lor 0x0003FFCC (Z.shiftl (Z.of_nat m) 18)) /\
        GetSyscallOp modName nib s = Ok op s /\
        WriteSyscall modName nib address s
        = Ok tt (with_events s [EvWriteU32 MIPS_MAKE_JR_RA address;
                                EvWriteU32 op (to_u32 (address + 4))]))) /\
  (nib <> 0 ->
   unregistered (moduleDB s) modName ->
   GetModuleIndex modName s = Ok (-1) s /\
   exists copied evs,
     WriteSyscall modName nib address s
     = Ok tt (mkHLE (moduleDB s)
                (unresolvedSyscalls s ++ [mkSyscall copied address nib])
                (hleAfterSyscall s) (hleAfterSyscallReschedReason s)
                (events s ++ evs)) /\
     evs = [EvInfoLog "Syscall (%s,%08x) unresolved, storing for later resolving"
              [ArgStr (cstr modName); ArgHex nib]] /\
     count is_write evs = O /\
     length copied = 32%nat /\
     cstr copied = firstn 31 (cstr modName) /\
     ((strlen modName < 32)%nat -> cstr copied = cstr modName)).
Proof.
  split; [| split].
  - intros ->. unfold WriteSyscall. cbn [Z.eqb]. unfold_monad.
    unfold with_events. fields. rewrite <- app_assoc. reflexivity.
  - intros m module Hnib Hreg.
    pose proof (registered_at_loop _ _ _ _ 0 Hreg) as Hloop. cbn [Z.add] in Hloop.
    assert (Hfound : GetModuleIndex_loop (moduleDB s) modName 0 <> -1)
      by (rewrite Hloop; clear; lia).
    destruct Hreg as (Hmod & _).
    split; [rewrite GetModuleIndex_eq, Hloop; reflexivity |].
    split; [intros Hwf; apply GetSyscallOp_total; assumption |].
    split; [intros op s' Hop;
            exact (WriteSyscall_registered_run modName nib address op s s' Hnib Hfound Hop) |].
    split.
    + intros f fn Hdecl.
      pose proof (declared_at_GetFuncIndex m f module fn nib s Hmod Hdecl) as Hidx.
      pose proof (GetSyscallOp_registered modName nib _ _ s s Hloop
                    ltac:(clear; lia) Hidx) as Hop.
      destruct (Z.eqb_spec (Z.of_nat f) (-1)) as [Hneg | _]; [exfalso; clear - Hneg; lia |].
      cbn [negb] in Hop.
      eexists. split; [reflexivity |]. split; [exact Hop |].
      split; [exact (WriteSyscall_registered_run modName nib address _ s s Hnib Hfound Hop) |].
      intros Hm256 Hf4096.
      apply valid_opcode_fields; clear - Hm256 Hf4096; lia.
    + intros Hundecl.
      pose proof (undeclared_GetFuncIndex m module nib s Hmod Hundecl) as Hidx.
      pose proof (GetSyscallOp_registered modName nib _ _ s s Hloop
                    ltac:(clear; lia) Hidx) as Hop.
      cbn [Z.eqb negb] in Hop.
      eexists. split; [reflexivity |]. split; [exact Hop |].
      exact (WriteSyscall_registered_run modName nib address _ s s Hnib Hfound Hop).
  - intros Hnib Hnone.
    pose proof (unregistered_loop _ _ 0 Hnone) as Hloop.
    split; [rewrite GetModuleIndex_eq, Hloop; reflexivity |].
    destruct (copied_name modName) as (copied & Hpoke & Hlen & Hcstr & Hshort).
    exists copied. eexists. split; [| split; [reflexivity | split; [reflexivity | auto]]].
    unfold WriteSyscall.
    destruct (Z.eqb_spec nib 0); [contradiction |].
    unfold bind at 1. rewrite GetModuleIndex_eq, Hloop. cbn [Z.eqb negb].
    unfold_monad. step. rewrite Hpoke. reflexivity.
Qed.

End Program.

(** ** The statements at the example registry *)

Lemma GetSyscallOp_decode_witness :
  exists op,
    GetSyscallOp (lit "A") 0x1111 demo_state = Ok op demo_state /\
    modulenum op = 1 /\ funcnum op = 2 /\
    Z.land (Z.shiftr op 6) 0xFFF = 2 /\
    Z.land (Z.shiftr op 18) 0xFF = 1 /\
    Z.land op 0x3F = 0x0c.
Proof.
  apply (GetSyscallOp_decode demo_state demo_state demo_state (lit "A") 0x1111 1 2);
    [reflexivity | lia | reflexivity | lia | lia | lia].
Defined.

Lemma hleFinishSyscall_priority_witness :
  exists s' calls dbg,
    hleFinishSyscall demo_NID_IDLE 1 2 demo_requested = Ok tt s' /\
    events s' = events demo_requested ++ calls ++ dbg /\
    forallb is_debugger dbg = true /\
    (Z.land (hleAfterSyscall demo_requested) HLE_AFTER_CURRENT_CALLBACKS <> 0 ->
     Z.land (hleAfterSyscall demo_requested) HLE_AFTER_RUN_INTERRUPTS <> 0 ->
     Z.land (hleAfterSyscall demo_requested) HLE_AFTER_RESCHED <> 0 ->
     calls = [EvKernelForceCallbacks; EvRunOnePendingInterrupt;
              if mask_has (hleAfterSyscall demo_requested) HLE_AFTER_RESCHED_CALLBACKS
              then EvKernelReScheduleCB true
                     (cstr (hleAfterSyscallReschedReason demo_requested))
              else EvKernelReSchedule
                     (cstr (hleAfterSyscallReschedReason demo_requested))]) /\
    (Z.land (hleAfterSyscall demo_requested) HLE_AFTER_RESCHED <> 0 ->
     Z.land (hleAfterSyscall demo_requested) HLE_AFTER_RESCHED_CALLBACKS <> 0 ->
     filter is_resched_phase (calls ++ dbg)
       = [EvKernelReScheduleCB true (cstr (hleAfterSyscallReschedReason demo_requested))] /\
     count is_plain_resched (calls ++ dbg) = O).
Proof.
  apply (hleFinishSyscall_priority demo_NID_IDLE 1 2 demo_wait demo_requested);
    [reflexivity | vm_compute; lia].
Defined.

Lemma debug_break_sticky_witness :
  exists s1 s2 evs1 evs2,
    CallSyscall demo_NID_IDLE demo_op_suspend demo_state = Ok tt s1 /\
    events s1 = events demo_state ++ evs1 /\
    (forall e, In e evs1 -> is_debugger e = false) /\
    hleAfterSyscall s1 = HLE_AFTER_DEBUG_BREAK /\
    cstr (hleAfterSyscallReschedReason s1) = [] /\
    CallSyscall demo_NID_IDLE demo_op_nothing s1 = Ok tt s2 /\
    events s2 = events s1 ++ evs2 /\
    filter is_debugger evs2 = [EvCoreEnableStepping true; EvHostSetDebugMode true] /\
    hleAfterSyscall s2 = HLE_AFTER_NOTHING.
Proof.
  apply (debug_break_sticky demo_NID_IDLE demo_op_suspend demo_op_nothing
           demo_suspend demo_nothing [ReqDebugBreak] [] demo_state).
  - reflexivity.
  - reflexivity.
  - reflexivity.
  - reflexivity.
  - left. reflexivity.
  - left. reflexivity.
  - reflexivity.
  - reflexivity.
  - reflexivity.
  - vm_compute. discriminate.
  - vm_compute. discriminate.
  - vm_compute. discriminate.
Defined.

Lemma CallSyscall_sentinel_aborts_witness :
  exists evs,
    CallSyscall demo_NID_IDLE demo_op_invalid demo_state
      = Ok tt (with_events demo_state evs) /\
    evs = [EvDbgAssert "Unknown syscall";
           EvErrorLog "Unknown syscall: Module: %s" [ArgStr (cstr (name demo_module_A))]] /\
    count is_error_log evs = 1%nat /\
    count is_invoke evs = O.
Proof.
  apply (CallSyscall_sentinel_aborts demo_NID_IDLE demo_op_invalid demo_module_A demo_state);
    [left; reflexivity | reflexivity].
Defined.

(** The [syscall] instruction with the largest code has function field
    [0xfff] and module field 255.  The registry holds two modules, and
    [CallSyscall] indexes it at 255 to name the module: the read is outside
    the vector, and no error is logged. *)
Lemma CallSyscall_sentinel_outside_registry :
  funcnum demo_op_garbage = 0xfff /\
  modulenum demo_op_garbage = 255 /\
  length (moduleDB demo_state) = 2%nat /\
  CallSyscall demo_NID_IDLE demo_op_garbage demo_state = Fault /\
  ~ (exists s', CallSyscall demo_NID_IDLE demo_op_garbage demo_state = Ok tt s').
Proof.
  assert (H : CallSyscall demo_NID_IDLE demo_op_garbage demo_state = Fault)
    by (vm_compute; reflexivity).
  repeat split; try reflexivity; try exact H.
  intros (s' & Hs'). rewrite H in Hs'. discriminate.
Qed.

Lemma GetSyscallOp_unresolved_function_witness :
  exists op module evs,
    GetSyscallOp (lit "A") 0x9999 demo_state = Ok op demo_state /\
    Z.land op 0x3F = 0x0c /\
    funcnum op = 0xfff /\
    modulenum op = 1 mod 256 /\
    nth_error (moduleDB demo_state) (Z.to_nat (modulenum op)) = Some module /\
    (1 < 256 -> modulenum op = 1 /\ cstr (name module) = cstr (lit "A")) /\
    CallSyscall demo_NID_IDLE op demo_state = Ok tt (with_events demo_state evs) /\
    evs = [EvDbgAssert "Unknown syscall";
           EvErrorLog "Unknown syscall: Module: %s" [ArgStr (cstr (name module))]] /\
    count is_invoke evs = O.
Proof.
  apply (GetSyscallOp_unresolved_function demo_NID_IDLE (lit "A") 0x9999 1
           demo_state demo_state demo_state);
    [reflexivity | lia | reflexivity].
Defined.

(** For the module "A", the opcode of a function the table lacks and the
    opcode of a function it holds carry the same low six bits, [0x0c]: the
    tag does not tell them apart.  In a module that fills all 4096 indices
    the opcode of the function at index 4095 is the very opcode returned
    for a function the table lacks. *)
Lemma GetSyscallOp_invalid_shares_tag :
  (exists op_absent op_valid,
     GetSyscallOp (lit "A") 0x9999 demo_state = Ok op_absent demo_state /\
     GetSyscallOp (lit "A") 0x1111 demo_state = Ok op_valid demo_state /\
     op_absent = 0x0007FFCC /\
     op_valid = 0x0004008C /\
     Z.land op_absent 0x3F = Z.land op_valid 0x3F /\
     Z.land op_absent 0x3F = 0x0c) /\
  GetFuncIndex 0 0x1111 demo_full = Ok 4095 demo_full /\
  GetFuncIndex 0 0x9999 demo_full = Ok (-1) demo_full /\
  GetSyscallOp (lit "A") 0x1111 demo_full = GetSyscallOp (lit "A") 0x9999 demo_full.
Proof.
  split; [exists 0x0007FFCC, 0x0004008C; repeat split; vm_compute; reflexivity |].
  split; [vm_compute; reflexivity |].
  split; vm_compute; reflexivity.
Qed.

Lemma CallSyscall_unimplemented_witness :
  exists evs,
    CallSyscall demo_NID_IDLE demo_op_stub demo_state
      = Ok tt (with_events demo_state evs) /\
    count is_error_log evs = 1%nat /\
    count is_invoke evs = O /\
    count is_write evs = O /\
    count is_kernel evs = O /\
    count is_debugger evs = O /\
    (is_sentinel demo_op_stub = false ->
     evs = [EvErrorLog "Unimplemented HLE function %s" [ArgStr (cstr (fname demo_stub))]]).
Proof.
  apply (CallSyscall_unimplemented demo_NID_IDLE demo_op_stub demo_stub demo_state);
    reflexivity.
Defined.

Lemma hleReSchedule_stores_reason_witness :
  exists s',
    hleReSchedule (Some demo_long_reason) demo_state = Ok tt s' /\
    hleAfterSyscall s' = Z.lor (hleAfterSyscall demo_state) HLE_AFTER_RESCHED /\
    Z.land (hleAfterSyscall s') HLE_AFTER_RESCHED <> 0 /\
    length (hleAfterSyscallReschedReason s') = REASON_SIZE /\
    ((REASON_SIZE <= strlen demo_long_reason)%nat ->
       cstr (hleAfterSyscallReschedReason s') = firstn (REASON_SIZE - 1) demo_long_reason /\
       length (cstr (hleAfterSyscallReschedReason s')) = (REASON_SIZE - 1)%nat /\
       nth_error (hleAfterSyscallReschedReason s') (REASON_SIZE - 1) = Some NUL) /\
    ((strlen demo_long_reason < REASON_SIZE)%nat ->
       cstr (hleAfterSyscallReschedReason s') = cstr demo_long_reason).
Proof.
  apply (hleReSchedule_stores_reason (Some demo_long_reason) demo_state).
  reflexivity.
Defined.

Lemma hleAfterSyscall_settled_at_entry_witness :
  (forall op, dispatchable (moduleDB demo_state) op = true ->
     exists s',
       CallSyscall demo_NID_IDLE op demo_state = Ok tt s' /\
       (is_sentinel op = true -> hleAfterSyscall s' = hleAfterSyscall demo_state) /\
       (forall fn, is_sentinel op = false ->
          slot (moduleDB demo_state) (modulenum op) (funcnum op) = Some fn ->
          func fn = None -> hleAfterSyscall s' = hleAfterSyscall demo_state) /\
       (forall fn body, is_sentinel op = false ->
          slot (moduleDB demo_state) (modulenum op) (funcnum op) = Some fn ->
          func fn = Some body -> settled (hleAfterSyscall s'))) /\
  (settled (hleAfterSyscall demo_state) ->
   forallb (dispatchable (moduleDB demo_state))
     [demo_op_suspend; demo_op_stub; demo_op_invalid; demo_op_wait; demo_op_nothing] = true ->
   exists seen s',
     dispatch_all demo_NID_IDLE
       [demo_op_suspend; demo_op_stub; demo_op_invalid; demo_op_wait; demo_op_nothing]
       demo_state = Ok seen s' /\
     length seen = length [demo_op_suspend; demo_op_stub; demo_op_invalid; demo_op_wait;
                           demo_op_nothing] /\
     Forall settled seen /\
     settled (hleAfterSyscall s')).
Proof.
  apply (hleAfterSyscall_settled_at_entry demo_NID_IDLE
           [demo_op_suspend; demo_op_stub; demo_op_invalid; demo_op_wait; demo_op_nothing]
           demo_state).
  reflexivity.
Defined.

(** ** Runs of the example registry *)

(** The registry is what two registrations build from the initial statics. *)
Example RegisterModule_twice :
  (RegisterModule (lit "Kernel_Library") 1 [demo_suspend] ;;
   RegisterModule (lit "A") 3 [demo_stub; demo_nothing; demo_wait])%hle HLE_initial
  = Ok tt demo_state.
Proof. reflexivity. Qed.

(** The scenario of a bound call: the call site is stamped with the return
    instruction and the opcode of module 1, function 2. *)
Example WriteSyscall_bound_call :
  WriteSyscall demo_JR_RA demo_NOP (lit "A") 0x1111 0x08804000 demo_state
  = Ok tt (with_events demo_state
             [EvWriteU32 demo_JR_RA 0x08804000; EvWriteU32 demo_op_wait 0x08804004]).
Proof. vm_compute. reflexivity. Qed.

(** Dispatching that opcode invokes the function, which asks for a plain
    reschedule with the reason "wait"; the coordinator makes that one
    kernel call and clears the pending state. *)
Example CallSyscall_bound_call :
  exists s',
    CallSyscall demo_NID_IDLE demo_op_wait demo_state = Ok tt s' /\
    events s' = [EvInvoke 1 2; EvKernelReSchedule (lit "wait")] /\
    hleAfterSyscall s' = HLE_AFTER_NOTHING /\
    cstr (hleAfterSyscallReschedReason s') = [].
Proof. eexists. split; [vm_compute; reflexivity |]. repeat split. Qed.

(** The call site of an unregistered module is left alone and recorded. *)
Example WriteSyscall_deferred :
  exists s',
    WriteSyscall demo_JR_RA demo_NOP (lit "B") 0x5555 0x08800000 demo_state = Ok tt s' /\
    unresolvedSyscalls s' = [mkSyscall (strncpy (lit "B") 32) 0x08800000 0x5555] /\
    count is_write (events s') = O.
Proof. eexists. split; [vm_compute; reflexivity |]. split; reflexivity. Qed.

(** Resolving one of two pending entries patches its site only and keeps
    both entries. *)
Example ResolveSyscall_one_of_two :
  exists s',
    ResolveSyscall demo_NOP demo_J (lit "B") 0x6666 0x08900000 demo_pending = Ok tt s' /\
    filter is_write (events s')
      = [EvWriteU32 0x0A240000 0x08800010; EvWriteU32 demo_NOP 0x08800014] /\
    unresolvedSyscalls s' = unresolvedSyscalls demo_pending.
Proof. eexists. split; [vm_compute; reflexivity |]. split; reflexivity. Qed.

(** A run over every kind of dispatch: the debug break asked for by the
    blacklisted function stays pending across the two dispatches that
    invoke nothing and is taken by the next function invoked. *)
Example dispatch_all_run :
  exists s',
    dispatch_all demo_NID_IDLE
      [demo_op_suspend; demo_op_stub; demo_op_invalid; demo_op_wait; demo_op_nothing]
      demo_state
    = Ok [0x00; 0x20; 0x20; 0x20; 0x00] s' /\
    filter (fun e => is_kernel e || is_debugger e) (events s')
    = [EvKernelReSchedule (lit "wait");
       EvCoreEnableStepping true; EvHostSetDebugMode true].
Proof. eexists. split; [vm_compute; reflexivity |]. reflexivity. Qed.

(** A null reason is replaced; a reason of 600 characters is cut to 511. *)
Example hleReSchedule_null_reason :
  exists s',
    hleReSchedule None demo_state = Ok tt s' /\
    cstr (hleAfterSyscallReschedReason s') = lit "Invalid reason" /\
    hleAfterSyscall s' = HLE_AFTER_RESCHED.
Proof. eexists. split; [vm_compute; reflexivity |]. split; reflexivity. Qed.

Example hleReSchedule_long_reason :
  exists s',
    hleReSchedule (Some demo_long_reason) demo_state = Ok tt s' /\
    hleAfterSyscallReschedReason s' = repeat "x"%char 511 ++ [NUL].
Proof. eexists. split; [vm_compute; reflexivity |]. reflexivity. Qed.

(** ** The further statements at the example registry *)

Lemma GetFuncIndex_first_match_witness :
  exists r : Z,
    GetFuncIndex 1 4369 demo_state = Ok r demo_state /\
    (r = -1 /\
     (forall (j : nat) (f : HLEFunction),
      (j < Z.to_nat (numFunctions demo_module_A))%nat ->
      nth_error (funcTable demo_module_A) j = Some f -> ID f <> 4369) \/
     0 <= r < numFunctions demo_module_A /\
     exists f : HLEFunction,
       nth_error (funcTable demo_module_A) (Z.to_nat r) = Some f /\
       ID f = 4369 /\
       (forall (j : nat) (g : HLEFunction),
        (j < Z.to_nat r)%nat ->
        nth_error (funcTable demo_module_A) j = Some g -> ID g <> 4369)).
Proof.
  apply (GetFuncIndex_first_match 1 4369 demo_module_A demo_state).
  all: first [reflexivity | lia | (vm_compute; reflexivity) | (vm_compute; lia) | (vm_compute; discriminate)].
Defined.

Lemma GetNibByName_then_GetFunc_witness :
  exists nib : Z,
    GetNibByName (lit "A") (lit "sceDemoWait") demo_state = Ok nib demo_state /\
    (nib = 4294967295 /\
     (forall (j : nat) (f : HLEFunction),
      (j < Z.to_nat (numFunctions demo_module_A))%nat ->
      nth_error (funcTable demo_module_A) j = Some f ->
      strcmp_eq (fname f) (lit "sceDemoWait") = false) \/
     exists (k : nat) (f : HLEFunction),
       (k < Z.to_nat (numFunctions demo_module_A))%nat /\
       nth_error (funcTable demo_module_A) k = Some f /\
       strcmp_eq (fname f) (lit "sceDemoWait") = true /\
       nib = ID f /\
       (forall (j : nat) (g : HLEFunction),
        (j < k)%nat ->
        nth_error (funcTable demo_module_A) j = Some g ->
        strcmp_eq (fname g) (lit "sceDemoWait") = false) /\
       exists g : HLEFunction,
         GetFunc (lit "A") nib demo_state = Ok (Some g) demo_state /\ ID g = nib).
Proof.
  apply (GetNibByName_then_GetFunc (lit "A") (lit "sceDemoWait") demo_module_A demo_state).
  all: first [reflexivity | lia | (vm_compute; reflexivity) | (vm_compute; lia) | (vm_compute; discriminate)].
Defined.

Lemma GetSyscallOp_dispatches_GetFunc_witness :
  exists (op : Z) (fn : HLEFunction),
    GetSyscallOp (lit "A") 4369 demo_state = Ok op demo_state /\
    GetFunc (lit "A") 4369 demo_state = Ok (Some fn) demo_state /\
    ID fn = 4369 /\
    is_sentinel op = false /\
    slot (moduleDB demo_state) (modulenum op) (funcnum op) = Some fn /\
    (forall body : HLEFunc,
     func fn = Some body ->
     exists (s' : HLE) (rest : list Event),
       CallSyscall demo_NID_IDLE op demo_state = Ok tt s' /\
       events s' = events demo_state ++ EvInvoke 1 2 :: rest /\
       count is_invoke rest = 0%nat).
Proof.
  apply (GetSyscallOp_dispatches_GetFunc demo_NID_IDLE (lit "A") 4369 1 2 demo_state demo_state).
  all: first [reflexivity | lia | (vm_compute; reflexivity) | (vm_compute; lia) | (vm_compute; discriminate)].
Defined.

Lemma GetFuncName_placeholder_witness :
  (forall fn : HLEFunction,
   GetFunc (lit "A") 39321 demo_state = Ok (Some fn) demo_state ->
   GetFuncName (lit "A") 39321 demo_state = Ok (fname fn) demo_state) /\
  (GetFunc (lit "A") 39321 demo_state = Ok None demo_state ->
   exists buf : bytes,
     GetFuncName (lit "A") 39321 demo_state = Ok buf demo_state /\
     Datatypes.length buf = 256%nat /\
     cstr buf = lit "[UNK: 0x" ++ hex_digits 8 39321 ++ lit " ]" /\
     Datatypes.length (cstr buf) = 18%nat) /\
  (forall temp : list ascii,
   Datatypes.length temp = 256%nat ->
   exists buf : bytes,
     sprintf_UNK temp 39321 = Some buf /\
     Datatypes.length buf = 256%nat /\
     cstr buf = lit "[UNK: 0x" ++ hex_digits 8 39321 ++ lit " ]") /\
  hex_value (hex_digits 8 39321) = 39321 /\
  (forall nib' : Z,
   0 <= nib' < 2 ^ 32 -> hex_digits 8 nib' = hex_digits 8 39321 -> nib' = 39321).
Proof.
  apply (GetFuncName_placeholder (lit "A") 39321 demo_state).
  all: first [reflexivity | lia | (vm_compute; reflexivity) | (vm_compute; lia) | (vm_compute; discriminate)].
Defined.

Lemma GetFuncName_index_one_past_witness :
  GetFuncName_index 1 (numFunctions demo_module_A) demo_state = Fault.
Proof.
  apply (GetFuncName_index_one_past 1 demo_module_A demo_state).
  all: first [reflexivity | lia | (vm_compute; reflexivity) | (vm_compute; lia) | (vm_compute; discriminate)].
Defined.

Lemma call_raises_flags_witness :
  exists s' : HLE,
    call demo_body demo_state = Ok tt s' /\
    hleAfterSyscall s' = Z.lor (hleAfterSyscall demo_state) (body_flags demo_body) /\
    moduleDB s' = moduleDB demo_state /\
    unresolvedSyscalls s' = unresolvedSyscalls demo_state /\
    (forall body' : list Request,
     Permutation demo_body body' ->
     exists s'' : HLE,
       call body' demo_state = Ok tt s'' /\ hleAfterSyscall s'' = hleAfterSyscall s') /\
    exists s'' : HLE,
      call (demo_body ++ demo_body) demo_state = Ok tt s'' /\
      hleAfterSyscall s'' = hleAfterSyscall s'.
Proof.
  apply (call_raises_flags demo_body demo_state).
  all: first [reflexivity | lia | (vm_compute; reflexivity) | (vm_compute; lia) | (vm_compute; discriminate)].
Defined.

Lemma call_stores_last_reason_witness :
  exists s' : HLE,
    call demo_body demo_state = Ok tt s' /\
    Datatypes.length (hleAfterSyscallReschedReason s') = REASON_SIZE /\
    cstr (hleAfterSyscallReschedReason s') =
    match last_reason demo_body with
    | Some (Some r) => firstn (REASON_SIZE - 1) (cstr r)
    | Some None => lit "Invalid reason"
    | None => cstr (hleAfterSyscallReschedReason demo_state)
    end.
Proof.
  apply (call_stores_last_reason demo_body demo_state).
  all: first [reflexivity | lia | (vm_compute; reflexivity) | (vm_compute; lia) | (vm_compute; discriminate)].
Defined.

Lemma CallSyscall_invoked_witness :
  exists (s' : HLE) (asserts : list Event),
    CallSyscall demo_NID_IDLE demo_op_wait demo_state = Ok tt s' /\
    forallb is_dbg_assert asserts = true /\
    moduleDB s' = moduleDB demo_state /\
    unresolvedSyscalls s' = unresolvedSyscalls demo_state /\
    (let mask1 :=
       Z.lor (hleAfterSyscall demo_state)
         (body_flags [ReqReScheduleCB false (Some (lit "wait"))])
       in
     let reason1 :=
       match last_reason [ReqReScheduleCB false (Some (lit "wait"))] with
       | Some reason => stored_reason reason
       | None => cstr (hleAfterSyscallReschedReason demo_state)
       end in
     events s' =
     events demo_state ++
     EvInvoke (modulenum demo_op_wait) (funcnum demo_op_wait)
     :: asserts ++
        (if mask1 =? HLE_AFTER_NOTHING
         then []
         else
          kernel_calls mask1 reason1 ++ debugger_calls demo_NID_IDLE mask1 demo_wait) /\
     hleAfterSyscall s' =
     (if mask1 =? HLE_AFTER_NOTHING
      then HLE_AFTER_NOTHING
      else mask_after_finish demo_NID_IDLE mask1 demo_wait) /\
     cstr (hleAfterSyscallReschedReason s') =
     (if mask1 =? HLE_AFTER_NOTHING then reason1 else [])).
Proof.
  apply (CallSyscall_invoked demo_NID_IDLE demo_op_wait demo_wait [ReqReScheduleCB false (Some (lit "wait"))] demo_state).
  all: first [reflexivity | lia | (vm_compute; reflexivity) | (vm_compute; lia) | (vm_compute; discriminate)].
Defined.

Lemma CallSyscall_returns_iff_witness :
  (dispatchable (moduleDB demo_state) demo_op_garbage = true ->
   exists s' : HLE, CallSyscall demo_NID_IDLE demo_op_garbage demo_state = Ok tt s') /\
  (dispatchable (moduleDB demo_state) demo_op_garbage = false ->
   CallSyscall demo_NID_IDLE demo_op_garbage demo_state = Fault).
Proof.
  apply (CallSyscall_returns_iff demo_NID_IDLE demo_op_garbage demo_state).
  all: first [reflexivity | lia | (vm_compute; reflexivity) | (vm_compute; lia) | (vm_compute; discriminate)].
Defined.

Lemma WriteSyscall_then_ResolveSyscall_witness :
  exists s1 s2 : HLE,
    WriteSyscall demo_JR_RA demo_NOP (lit "B") 21845 142606368 demo_pending = Ok tt s1 /\
    filter is_write (skipn (Datatypes.length (events demo_pending)) (events s1)) = [] /\
    ResolveSyscall demo_NOP demo_J (lit "B") 21845 143654912 s1 = Ok tt s2 /\
    filter is_write (skipn (Datatypes.length (events s1)) (events s2)) =
    flat_map
      (fun sysc : Syscall =>
       [EvWriteU32 (demo_J 143654912) (symAddr sysc);
        EvWriteU32 demo_NOP (to_u32 (symAddr sysc + 4))])
      (filter (resolves (lit "B") 21845) (unresolvedSyscalls demo_pending)) ++
    [EvWriteU32 (demo_J 143654912) 142606368;
     EvWriteU32 demo_NOP (to_u32 (142606368 + 4))].
Proof.
  apply (WriteSyscall_then_ResolveSyscall demo_JR_RA demo_NOP demo_J (lit "B") 21845 142606368 143654912 demo_pending).
  all: first [reflexivity | lia | (vm_compute; reflexivity) | (vm_compute; lia) | (vm_compute; discriminate)].
Defined.

Lemma WriteSyscall_long_name_unresolved_witness :
  exists (s1 : HLE) (copied : bytes),
    WriteSyscall demo_JR_RA demo_NOP demo_long_name 21845 142606368 demo_state =
    Ok tt s1 /\
    unresolvedSyscalls s1 =
    unresolvedSyscalls demo_state ++
    [{| moduleName := copied; symAddr := 142606368; nid := 21845 |}] /\
    cstr copied = firstn 31 (cstr demo_long_name) /\
    resolves demo_long_name 21845
      {| moduleName := copied; symAddr := 142606368; nid := 21845 |} =
    false /\
    resolves (firstn 31 (cstr demo_long_name)) 21845
      {| moduleName := copied; symAddr := 142606368; nid := 21845 |} =
    true /\
    (forall target : Z,
     ResolveSyscall demo_NOP demo_J demo_long_name 21845 target s1 =
     Ok tt
       (with_events s1
          (flat_map (patch_events demo_NOP demo_J demo_long_name 21845 target)
             (filter (resolves demo_long_name 21845) (unresolvedSyscalls demo_state))))).
Proof.
  apply (WriteSyscall_long_name_unresolved demo_JR_RA demo_NOP demo_J demo_long_name 21845 142606368 demo_state).
  all: first [reflexivity | lia | (vm_compute; reflexivity) | (vm_compute; lia) | (vm_compute; discriminate)].
Defined.

Lemma GetSyscallOp_unknown_module_witness :
  GetSyscallOp (lit "B") 21845 demo_state =
  Ok 262092
    (with_events demo_state
       [EvErrorLog "Unknown module %s!" [ArgStr (cstr (lit "B"))]]) /\
  262092 = to_u32 (Z.lor 262092 (Z.shiftl 0 18)) /\
  modulenum 262092 = 0 /\
  funcnum 262092 = 4095 /\
  (forall (first : HLEModule) (t : HLE),
   nth_error (moduleDB t) 0 = Some first ->
   CallSyscall demo_NID_IDLE 262092 t =
   Ok tt
     (with_events t
        [EvDbgAssert "Unknown syscall";
         EvErrorLog "Unknown syscall: Module: %s" [ArgStr (cstr (name first))]])).
Proof.
  apply (GetSyscallOp_unknown_module demo_NID_IDLE (lit "B") 21845 demo_state).
  all: first [reflexivity | lia | (vm_compute; reflexivity) | (vm_compute; lia) | (vm_compute; discriminate)].
Defined.

Lemma GetSyscallOp_module_wraps_witness :
  exists op : Z,
    GetSyscallOp (lit "A") 4369 demo_wide = Ok op demo_wide /\
    funcnum op = 2 /\
    modulenum op = 256 mod 256 /\ (256 <= 256 -> modulenum op <> 256).
Proof.
  apply (GetSyscallOp_module_wraps (lit "A") 4369 256 2 demo_wide demo_wide).
  all: first [reflexivity | lia | (vm_compute; reflexivity) | (vm_compute; lia) | (vm_compute; discriminate)].
Defined.

Lemma WriteSyscall_then_CallSyscall_witness :
  exists (op : Z) (fn : HLEFunction),
    WriteSyscall demo_JR_RA demo_NOP (lit "A") 4369 142622720 demo_state =
    Ok tt
      (with_events demo_state
         [EvWriteU32 demo_JR_RA 142622720; EvWriteU32 op (to_u32 (142622720 + 4))]) /\
    is_sentinel op = false /\
    modulenum op = 1 /\
    funcnum op = 2 /\
    slot (moduleDB demo_state) (modulenum op) (funcnum op) = Some fn /\ ID fn = 4369.
Proof.
  apply (WriteSyscall_then_CallSyscall demo_JR_RA demo_NOP (lit "A") 4369 142622720 1 2 demo_state demo_state).
  all: first [reflexivity | lia | (vm_compute; reflexivity) | (vm_compute; lia) | (vm_compute; discriminate)].
Defined.

Lemma WriteSyscall_unknown_function_witness :
  exists (op : Z) (module : HLEModule) (s1 : HLE),
    WriteSyscall demo_JR_RA demo_NOP (lit "A") 39321 142622720 demo_state = Ok tt s1 /\
    s1 =
    with_events demo_state
      [EvWriteU32 demo_JR_RA 142622720; EvWriteU32 op (to_u32 (142622720 + 4))] /\
    op = to_u32 (Z.lor 262092 (Z.shiftl 1 18)) /\
    is_sentinel op = true /\
    nth_error (moduleDB demo_state) (Z.to_nat (modulenum op)) = Some module /\
    CallSyscall demo_NID_IDLE op s1 =
    Ok tt
      (with_events s1
         [EvDbgAssert "Unknown syscall";
          EvErrorLog "Unknown syscall: Module: %s" [ArgStr (cstr (name module))]]).
Proof.
  apply (WriteSyscall_unknown_function demo_NID_IDLE demo_JR_RA demo_NOP (lit "A") 39321 142622720 1 demo_state demo_state).
  all: first [reflexivity | lia | (vm_compute; reflexivity) | (vm_compute; lia) | (vm_compute; discriminate)].
Defined.

Lemma hleFinishSyscall_sweep_witness :
  exists (s' : HLE) (evs : list Event),
    hleFinishSyscall demo_NID_IDLE 1 2 demo_sweep = Ok tt s' /\
    events s' = events demo_sweep ++ evs /\
    (count is_resched_phase evs <= 1)%nat /\
    (In EvKernelCheckCallbacks evs <->
     mask_has (hleAfterSyscall demo_sweep) HLE_AFTER_ALL_CALLBACKS = true /\
     mask_has (hleAfterSyscall demo_sweep) HLE_AFTER_RESCHED = false /\
     mask_has (hleAfterSyscall demo_sweep) HLE_AFTER_RESCHED_CALLBACKS = false) /\
    cstr (hleAfterSyscallReschedReason s') = [] /\ settled (hleAfterSyscall s').
Proof.
  apply (hleFinishSyscall_sweep demo_NID_IDLE 1 2 demo_wait demo_sweep).
  all: first [reflexivity | lia | (vm_compute; reflexivity) | (vm_compute; lia) | (vm_compute; discriminate)].
Defined.

Lemma GetFuncIndex_short_table_witness :
  GetFuncIndex 0 39321 demo_short = Fault.
Proof.
  apply (GetFuncIndex_short_table 0 39321 demo_module_short demo_short).
  - lia.
  - reflexivity.
  - vm_compute. lia.
  - intros f [<- | [<- | [<- | []]]]; vm_compute; discriminate.
Defined.

Lemma debug_break_waits_witness :
  exists (seen : list Z) (s' : HLE) (evs : list Event),
    dispatch_all demo_NID_IDLE
      [demo_op_suspend; demo_op_stub; demo_op_invalid; demo_op_suspend]
      demo_break_pending =
    Ok seen s' /\
    seen =
    repeat HLE_AFTER_DEBUG_BREAK
      (Datatypes.length
         [demo_op_suspend; demo_op_stub; demo_op_invalid; demo_op_suspend]) /\
    hleAfterSyscall s' = HLE_AFTER_DEBUG_BREAK /\
    events s' = events demo_break_pending ++ evs /\ count is_debugger evs = 0%nat.
Proof.
  apply (debug_break_waits demo_NID_IDLE [demo_op_suspend; demo_op_stub; demo_op_invalid; demo_op_suspend] demo_break_pending).
  all: first [reflexivity | lia | (vm_compute; reflexivity) | (vm_compute; lia) | (vm_compute; discriminate)].
Defined.

(** The three cases of [WriteSyscall] on the demo registry: a zero ID; the
    ID of module 1, function 2; an ID module 1 does not declare; a module
    that is not registered. *)
Lemma WriteSyscall_cases_witness :
  WriteSyscall demo_JR_RA demo_NOP (lit "A") 0 0x08804000 demo_state
  = Ok tt (with_events demo_state
             [EvWriteU32 demo_JR_RA 0x08804000; EvWriteU32 demo_NOP 0x08804004]) /\
  GetModuleIndex (lit "A") demo_state = Ok 1 demo_state /\
  WriteSyscall demo_JR_RA demo_NOP (lit "A") 0x1111 0x08804000 demo_state
  = Ok tt (with_events demo_state
             [EvWriteU32 demo_JR_RA 0x08804000; EvWriteU32 0x0004008C 0x08804004]) /\
  modulenum 0x0004008C = 1 /\ funcnum 0x0004008C = 2 /\
  WriteSyscall demo_JR_RA demo_NOP (lit "A") 0x4444 0x08804000 demo_state
  = Ok tt (with_events demo_state
             [EvWriteU32 demo_JR_RA 0x08804000; EvWriteU32 0x0007FFCC 0x08804004]) /\
  GetModuleIndex (lit "B") demo_state = Ok (-1) demo_state /\
  exists copied,
    WriteSyscall demo_JR_RA demo_NOP (lit "B") 0x5555 0x08800000 demo_state
    = Ok tt (mkHLE demo_db [mkSyscall copied 0x08800000 0x5555] HLE_AFTER_NOTHING
               (repeat NUL REASON_SIZE)
               [EvInfoLog "Syscall (%s,%08x) unresolved, storing for later resolving"
                  [ArgStr (lit "B"); ArgHex 0x5555]]) /\
    cstr copied = lit "B".
Proof.
  assert (Hreg : registered_at (moduleDB demo_state) (lit "A") 1 demo_module_A)
    by (split; [reflexivity | split; reflexivity]).
  assert (Hdecl : declared_at demo_module_A 0x1111 2 demo_wait)
    by (split; [cbn; lia | split; [reflexivity | split; reflexivity]]).
  assert (Hundecl : undeclared demo_module_A 0x4444)
    by (split; [cbn; lia | reflexivity]).
  assert (Hnone : unregistered (moduleDB demo_state) (lit "B")) by reflexivity.
  destruct (WriteSyscall_cases demo_JR_RA demo_NOP (lit "A") 0 0x08804000 demo_state)
    as (Hzero & _ & _).
  destruct (WriteSyscall_cases demo_JR_RA demo_NOP (lit "A") 0x1111 0x08804000 demo_state)
    as (_ & Hbound & _).
  destruct (Hbound 1%nat demo_module_A ltac:(discriminate) Hreg)
    as (Hindex & _ & _ & Hfound & _).
  destruct (Hfound 2%nat demo_wait Hdecl) as (op & Hop & _ & Hwrite & Hfields).
  destruct (Hfields ltac:(lia) ltac:(lia)) as (Hvalue & Hmod & Hfun & _).
  change (op = 0x0004008C) in Hvalue. rewrite Hvalue in Hwrite, Hmod, Hfun.
  destruct (WriteSyscall_cases demo_JR_RA demo_NOP (lit "A") 0x4444 0x08804000 demo_state)
    as (_ & Hbound' & _).
  destruct (Hbound' 1%nat demo_module_A ltac:(discriminate) Hreg)
    as (_ & _ & _ & _ & Hmissing).
  destruct (Hmissing Hundecl) as (op' & Hop' & _ & Hwrite').
  change (op' = 0x0007FFCC) in Hop'. rewrite Hop' in Hwrite'.
  destruct (WriteSyscall_cases demo_JR_RA demo_NOP (lit "B") 0x5555 0x08800000 demo_state)
    as (_ & _ & Hdeferred).
  destruct (Hdeferred ltac:(discriminate) Hnone)
    as (Hminus & copied & evs & Hrun & Hevs & _ & _ & _ & Hshort).
  rewrite Hevs in Hrun.
  split; [exact (Hzero eq_refl) |]. split; [exact Hindex |].
  split; [exact Hwrite |]. split; [exact Hmod |]. split; [exact Hfun |].
  split; [exact Hwrite' |]. split; [exact Hminus |].
  exists copied. split; [exact Hrun |].
  exact (Hshort ltac:(cbn; lia)).
Defined.
